(** * Analytics aggregation layer of the sports-management dashboard

    Shallow embedding of
    - [client/src/services/analyticsService.ts] (regional, level and growth
      charts),
    - the dashboard statistics service ([fetchDashboardStats]),
    - the reports service ([getAnalyticsData], [getUserEngagementMetrics],
      [getProgramPerformanceMetrics] and the subscription registry),
    - the recent activity and the relative times of the dashboard service
      ([fetchRecentActivity], [getTimeAgo]),
    - the components [SportsAnalytics.tsx] and [Dashboard.tsx] as far as
      they decide what is shown,
    - [client/src/utils/seedDashboardData.ts],
    followed by the properties established for them. *)

From Stdlib Require Import ZArith Zwf Lia Ascii String.
From Stdlib Require Floats.SpecFloat.
From stdpp Require Import base option list sorting gmap strings pretty.
From Equations Require Import Equations.

Local Open Scope string_scope.
Local Open Scope list_scope.
Local Open Scope Z_scope.

(** ** The JavaScript fragment the services rely on *)

Module JS.

(** Values stored in the counter objects: a number, [NaN], or [undefined]. *)
Inductive value := Num (n : Z) | NaN | Undefined.

(** [x || d] on an optional string field: [undefined] and the empty string
    are falsy. *)
Definition or_default (x : option string) (d : string) : string :=
  match x with
  | Some s => if decide (s = "") then d else s
  | None => d
  end.

(** Property names every object literal inherits from [Object.prototype]. *)
Definition objectPrototypeKeys : list string :=
  [ "constructor"; "hasOwnProperty"; "isPrototypeOf"; "propertyIsEnumerable";
    "toLocaleString"; "toString"; "valueOf"; "__proto__";
    "__defineGetter__"; "__defineSetter__"; "__lookupGetter__";
    "__lookupSetter__" ].

Definition inherited (k : string) : bool :=
  bool_decide (k ∈ objectPrototypeKeys).

(** [v + 1] of the postfix increment. *)
Definition succ (v : value) : value :=
  match v with
  | Num n => Num (n + 1)
  | NaN | Undefined => NaN
  end.

(** Own properties of an object whose values are numbers. *)
Abbreviation counters := (gmap string value).

(** [o[k] !== undefined]: the lookup walks the prototype chain, so an
    inherited name is defined although it is no own property. *)
Definition is_defined (o : counters) (k : string) : bool :=
  bool_decide (is_Some (o !! k)) || inherited k.

(** [o[k]++]. An own number is incremented in place. Anything else (an
    inherited method, [undefined]) increments to [NaN], which is stored as
    an own property; the [__proto__] setter drops the non-object instead. *)
Definition increment (o : counters) (k : string) : counters :=
  match o !! k with
  | Some v => <[k := succ v]> o
  | None => if decide (k = "__proto__") then o else <[k := NaN]> o
  end.

(** [o.k] for a name that is not inherited. *)
Definition get (o : counters) (k : string) : value :=
  default Undefined (o !! k).

(** *** Numbers

    A number that is not an integer is kept as a pair [(m, e)] standing for
    the double [m * 2 ^ e].  Counts, durations and timestamps are integers
    below 2^53 in absolute value, which doubles hold exactly, so they are
    kept as [Z]; every quotient and product below then stays within the
    normal range of doubles. *)
Definition double := (Z * Z)%type.

(** [num / den] rounded to the nearest integer, halves to the even one, for
    [0 <= num] and [0 < den]. *)
Definition div_half_even (num den : Z) : Z :=
  let q := num / den in
  let r := num `mod` den in
  if 2 * r <? den then q
  else if den <? 2 * r then q + 1
  else if Z.even q then q else q + 1.

(** The [l] with [2 ^ l <= p / q < 2 ^ (l + 1)], for [0 < p] and [0 < q]. *)
Definition binade (p q : Z) : Z :=
  let s := Z.log2 p - Z.log2 q in
  if q * 2 ^ Z.max 0 s <=? p * 2 ^ Z.max 0 (- s) then s else s - 1.

(** The double nearest to [p / q], for [0 < p] and [0 < q]: a mantissa of 53
    bits, rounded to nearest, halves to even. *)
Definition nearest_double (p q : Z) : double :=
  let e := binade p q - 52 in
  (div_half_even (p * 2 ^ Z.max 0 (- e)) (q * 2 ^ Z.max 0 e), e).

(** The double nearest to the quotient of two integers.  A zero divisor does
    not occur: every division of the services is guarded. *)
Definition round_ratio (p q : Z) : double :=
  if q =? 0 then (0, 0)
  else
    let '(p, q) := if q <? 0 then (- p, - q) else (p, q) in
    if p =? 0 then (0, 0)
    else if p <? 0 then let '(m, e) := nearest_double (- p) q in (- m, e)
    else nearest_double p q.

Definition int (n : Z) : double := (n, 0).

(** [x / y] *)
Definition divide (x y : double) : double :=
  round_ratio (x.1 * 2 ^ Z.max 0 (x.2 - y.2)) (y.1 * 2 ^ Z.max 0 (y.2 - x.2)).

(** [x * y] *)
Definition multiply (x y : double) : double :=
  round_ratio (x.1 * y.1 * 2 ^ Z.max 0 (x.2 + y.2)) (2 ^ Z.max 0 (- (x.2 + y.2))).

(** [Math.round(x)]: the integer nearest to [x], halves towards
    +infinity. *)
Definition Math_round (x : double) : Z :=
  let '(m, e) := x in
  if 0 <=? e then m * 2 ^ e else (2 * m + 2 ^ (- e)) / (2 * 2 ^ (- e)).

Definition Math_min (a b : Z) : Z := Z.min a b.

(** [l[i]]: [undefined] outside the array. *)
Definition index {A} (l : list A) (i : Z) : option A :=
  if i <? 0 then None else l !! Z.to_nat i.

(** *** Objects used as dictionaries, with their property order

    Own properties in creation order.  The values are objects, hence
    truthy. *)
Abbreviation object V := (list (string * V)).

Fixpoint lookup_own {V} (k : string) (o : object V) : option V :=
  match o with
  | [] => None
  | (k', v) :: o' => if decide (k' = k) then Some v else lookup_own k o'
  end.

(** [o[k]] is truthy: an own property, or a member inherited from
    [Object.prototype]. *)
Definition has_member {V} (o : object V) (k : string) : bool :=
  bool_decide (is_Some (lookup_own k o)) || inherited k.

(** [o[k] = v]: an existing property keeps its place, a new one goes last. *)
Fixpoint set {V} (k : string) (v : V) (o : object V) : object V :=
  match o with
  | [] => [(k, v)]
  | (k', v') :: o' =>
      if decide (k' = k) then (k, v) :: o' else (k', v') :: set k v o'
  end.

(** [o[k].field++] as an update [f] of the own property [k].  When [k] is
    not an own property the write lands on the inherited member and [o]
    keeps its own properties. *)
Fixpoint update {V} (f : V → V) (k : string) (o : object V) : object V :=
  match o with
  | [] => []
  | (k', v) :: o' =>
      if decide (k' = k) then (k', f v) :: o' else (k', v) :: update f k o'
  end.

Definition digit (c : ascii) : option N :=
  let n := Ascii.N_of_ascii c in
  if decide (48 ≤ n ∧ n ≤ 57)%N then Some (n - 48)%N else None.

Fixpoint parse_digits (acc : N) (s : string) : option N :=
  match s with
  | EmptyString => Some acc
  | String c s' => d ← digit c; parse_digits (10 * acc + d)%N s'
  end.

(** An array index is the canonical decimal form of an integer below
    [2^32 - 1]; such property names are enumerated first. *)
Definition array_index (k : string) : option N :=
  n ← parse_digits 0 k;
  if decide (k = pretty n ∧ n ≤ 4294967294)%N then Some n else None.

(** [arr.sort(cmp)]: a stable sort; [x] goes before the first [y] with
    [cmp(x, y) <= 0]. *)
Fixpoint sort_insert {A} (cmp : A → A → Z) (x : A) (l : list A) : list A :=
  match l with
  | [] => [x]
  | y :: l' => if cmp x y <=? 0 then x :: y :: l'
               else y :: sort_insert cmp x l'
  end.

Definition Array_sort {A} (cmp : A → A → Z) (l : list A) : list A :=
  foldr (sort_insert cmp) [] l.

Definition indexed {V} (o : object V) : list (N * (string * V)) :=
  omap (λ kv, n ← array_index kv.1; Some (n, kv)) o.

(** [Object.entries(o)]: array indices in ascending numeric order, then
    the other names in creation order. *)
Definition Object_entries {V} (o : object V) : list (string * V) :=
  (snd <$> Array_sort (λ a b, Z.of_N a.1 - Z.of_N b.1) (indexed o))
  ++ filter (λ kv, array_index kv.1 = None) o.

(** [Math.floor(x)] *)
Definition Math_floor (x : double) : Z :=
  let '(m, e) := x in
  if 0 <=? e then m * 2 ^ e else m / 2 ^ (- e).

(** The number literal [0.1]: the double 3602879701896397 / 2^55. *)
Definition tenth : double := (3602879701896397, -55).

(** [x || y] on two optional strings. *)
Definition or_else (x y : option string) : option string :=
  match x with
  | Some s => if decide (s = "") then y else x
  | None => y
  end.

(** [`${x}`] for a string that may be [undefined]. *)
Definition template (x : option string) : string := default "undefined" x.

(** [arr.slice(0, end)] for an integer [end]: a negative [end] counts from
    the end of the array. *)
Definition slice0 {A} (end_ : Z) (arr : list A) : list A :=
  if end_ <? 0 then take (Z.to_nat (Z.of_nat (length arr) + end_)) arr
  else take (Z.to_nat end_) arr.

End JS.

(** ** Documents read from the store

    The fields the services read from [doc.data()], decoded; [None] is an
    absent field.  Timestamps are milliseconds since the epoch. *)

(** A field on which the code calls [toDate]: absent, a [Timestamp], or
    another stored value (a string, a number), which has no such method. *)
Inductive DateField := NoField | Timestamp (t : Z) | NotTimestamp.

Record Doc := {
  doc_id : string;
  (** [doc.ref.parent.parent?.id] *)
  doc_parent : option string;
  location : option string;
  level : option string;
  createdAt : option Z;
  duration : option Z;
  doc_name : option string;
  doc_status : option string;
  startDate : DateField;
  endDate : DateField
}.

(** ** analyticsService.ts *)

Module LevelData.
Record t := mk { name : string; value : JS.value; color : string }.
End LevelData.

Definition levelCounts0 : JS.counters :=
  <["Grassroots" := JS.Num 0]>
    (<["Semi-Pro" := JS.Num 0]> (<["Professional" := JS.Num 0]> ∅)).

(** [data.level || "Grassroots"] *)
Definition level_of (d : Doc) : string := JS.or_default (level d) "Grassroots".

(** Body of the [forEach] over the athletes snapshot. *)
Definition count_level (levelCounts : JS.counters) (d : Doc) : JS.counters :=
  let level := level_of d in
  if JS.is_defined levelCounts level then JS.increment levelCounts level
  else levelCounts.

(** [fetchLevelData]; the argument is the outcome of
    [getDocs(collection(db, "athletes"))], [None] when it rejects. *)
Definition fetchLevelData (athletesSnapshot : option (list Doc))
  : list LevelData.t :=
  match athletesSnapshot with
  | Some docs =>
      let levelCounts := foldl count_level levelCounts0 docs in
      [ LevelData.mk "Grassroots" (JS.get levelCounts "Grassroots") "#8884d8";
        LevelData.mk "Semi-Pro" (JS.get levelCounts "Semi-Pro") "#82ca9d";
        LevelData.mk "Professional" (JS.get levelCounts "Professional") "#ffc658" ]
  | None =>
      [ LevelData.mk "Grassroots" (JS.Num 0) "#8884d8";
        LevelData.mk "Semi-Pro" (JS.Num 0) "#82ca9d";
        LevelData.mk "Professional" (JS.Num 0) "#ffc658" ]
  end.

Module Counts.
Record t := mk { athletes : Z; events : Z }.
Definition incr_athletes (c : t) : t := mk (athletes c + 1) (events c).
Definition incr_events (c : t) : t := mk (athletes c) (events c + 1).
End Counts.

Module RegionalData.
Record t := mk { name : string; athletes : Z; events : Z }.
End RegionalData.

Module GrowthData.
Record t := mk { month : string; athletes : Z; events : Z }.
End GrowthData.

(** [data.location || "Unknown"] *)
Definition location_of (d : Doc) : string :=
  JS.or_default (location d) "Unknown".

(** [if (!o[k]) o[k] = { athletes: 0, events: 0 }] *)
Definition ensure (o : JS.object Counts.t) (k : string) : JS.object Counts.t :=
  if JS.has_member o k then o else JS.set k (Counts.mk 0 0) o.

(** Body of the two [forEach] loops; [bump] is the [++] on the counter of
    the loop. *)
Definition count_location (bump : Counts.t → Counts.t)
    (locationCounts : JS.object Counts.t) (d : Doc) : JS.object Counts.t :=
  let location := location_of d in
  JS.update bump location (ensure locationCounts location).

Definition count_athlete_location := count_location Counts.incr_athletes.
Definition count_event_location := count_location Counts.incr_events.

Definition locationCounts_of (athletes events : list Doc) : JS.object Counts.t :=
  foldl count_event_location (foldl count_athlete_location [] athletes) events.

Definition to_regional (e : string * Counts.t) : RegionalData.t :=
  RegionalData.mk e.1 (Counts.athletes e.2) (Counts.events e.2).

(** [(a, b) => b.athletes - a.athletes] *)
Definition by_athletes_desc (a b : RegionalData.t) : Z :=
  RegionalData.athletes b - RegionalData.athletes a.

(** [fetchRegionalData]; the arguments are the outcomes of the two
    [getDocs] calls, [None] when one rejects. *)
Definition fetchRegionalData (athletesSnapshot eventsSnapshot : option (list Doc))
  : list RegionalData.t :=
  match athletesSnapshot, eventsSnapshot with
  | Some athletes, Some events =>
      take 10 (JS.Array_sort by_athletes_desc
                 (to_regional <$> JS.Object_entries (locationCounts_of athletes events)))
  | _, _ => []
  end.

Definition monthNames : list string :=
  ["Jan"; "Feb"; "Mar"; "Apr"; "May"; "Jun"; "Jul"; "Aug"; "Sep"; "Oct"; "Nov"; "Dec"].

Section Growth.
(** [date.getMonth()] of the runtime, for a timestamp. *)
Variable getMonth : Z → Z.

(** [monthNames[i]] used as a property name. *)
Definition monthKey (i : Z) : string :=
  default "undefined" (JS.index monthNames i).

(** The initialisation loop, [i] from 5 down to 0;
    [new Date(y, m - i, 1).getMonth()] is [m - i] modulo 12. *)
Definition monthlyData0 (now : Z) : JS.object Counts.t :=
  foldl (λ monthlyData i,
           JS.set (monthKey ((getMonth now - i) `mod` 12)) (Counts.mk 0 0) monthlyData)
        [] [5; 4; 3; 2; 1; 0].

Definition count_month (f : Counts.t → Counts.t)
    (monthlyData : JS.object Counts.t) (d : Doc) : JS.object Counts.t :=
  match createdAt d with
  | Some t =>
      let monthKey := monthKey (getMonth t) in
      if JS.has_member monthlyData monthKey
      then JS.update f monthKey monthlyData
      else monthlyData
  | None => monthlyData
  end.

Definition monthlyData_of (now : Z) (athletes events : list Doc) :=
  foldl (count_month Counts.incr_events)
    (foldl (count_month Counts.incr_athletes) (monthlyData0 now) athletes)
    events.

(** The [map] over the entries with its two running totals. *)
Fixpoint cumulative (cumulativeAthletes cumulativeEvents : Z)
    (entries : list (string * Counts.t)) : list GrowthData.t :=
  match entries with
  | [] => []
  | (month, counts) :: rest =>
      let cumulativeAthletes := cumulativeAthletes + Counts.athletes counts in
      let cumulativeEvents := cumulativeEvents + Counts.events counts in
      GrowthData.mk month cumulativeAthletes cumulativeEvents
        :: cumulative cumulativeAthletes cumulativeEvents rest
  end.

(** [fetchGrowthData] at instant [now]; the snapshots are the outcomes of
    the two range queries. *)
Definition fetchGrowthData (now : Z)
    (athletesSnapshot eventsSnapshot : option (list Doc)) : list GrowthData.t :=
  match athletesSnapshot, eventsSnapshot with
  | Some athletes, Some events =>
      cumulative 0 0 (JS.Object_entries (monthlyData_of now athletes events))
  | _, _ => []
  end.
End Growth.

(** ** The document store

    A read against the store either fulfils or rejects; a rejected promise
    is [None]. *)

Inductive Op := OpEq | OpGe | OpLe | OpGt | OpLt | OpIn.

Inductive FieldValue :=
  | VStr (s : string)
  | VTime (t : Z)
  | VStrs (l : list string).

Inductive Constraint :=
  | where_ (field : string) (op : Op) (v : FieldValue)
  | orderBy (field : string) (direction : string)
  | limit (n : nat).

Inductive Source :=
  | collection (name : string)
  | collectionGroup (name : string).

Record Query := query { source : Source; constraints : list Constraint }.

#[global] Instance Op_eq_dec : EqDecision Op.
Proof. solve_decision. Defined.
#[global] Instance FieldValue_eq_dec : EqDecision FieldValue.
Proof. solve_decision. Defined.
#[global] Instance Constraint_eq_dec : EqDecision Constraint.
Proof. solve_decision. Defined.
#[global] Instance Source_eq_dec : EqDecision Source.
Proof. solve_decision. Defined.
#[global] Instance Query_eq_dec : EqDecision Query.
Proof. solve_decision. Defined.

Record Firestore := {
  getCountFromServer : Query → option nat;
  getDocs : Query → option (list Doc)
}.

(** [(await getCountFromServer(q)).data().count] *)
Definition count (db : Firestore) (q : Query) : option Z :=
  Z.of_nat <$> getCountFromServer db q.

(** [p.catch(handler)] *)
Definition catch_ {A} (p : option A) (handler : unit → option A) : option A :=
  match p with
  | Some a => Some a
  | None => handler ()
  end.

(** [() => ({ data: () => ({ count: 0 }) })] *)
Definition zero_count : unit → option Z := λ _, Some 0.

Definition MS_PER_DAY : Z := 24 * 60 * 60 * 1000.
Definition MS_PER_HOUR : Z := 60 * 60 * 1000.

(** ** Dates in the time zone of the host

    A [Date] is its time value, the milliseconds since the epoch.  The
    methods that read or set calendar fields work on the local time value,
    through the two conversions of the language specification: [LocalTime]
    of an instant, and [UTC] of a local time value.  [UTC] of a local time
    that occurs twice is the earlier instant, and of a local time that is
    skipped it is the instant reached with the offset in force before the
    skip.  In every zone the same local time one calendar day later is a
    later instant. *)
Class TimeZone := {
  LocalTime : Z → Z;
  UTC : Z → Z;
  next_day_later : ∀ t, t < UTC (LocalTime t + MS_PER_DAY)
}.

(** [date.setDate(date.getDate() + n)]: the local time value moves by [n]
    days, its time within the day stays. *)
Definition setDate_plus {tz : TimeZone} (date : Z) (n : Z) : Z :=
  UTC (LocalTime date + n * MS_PER_DAY).

(** [addDays] and [subDays] of date-fns: [setDate(getDate() + amount)],
    and the date itself for an amount of 0. *)
Definition addDays {tz : TimeZone} (date : Z) (amount : Z) : Z :=
  if decide (amount = 0) then date else setDate_plus date amount.
Definition subDays {tz : TimeZone} (date : Z) (n : Z) : Z := addDays date (- n).

(** [date.setHours(h, m, s, ms)], given as the milliseconds [time] into the
    day: the day of the local time value stays. *)
Definition setHours {tz : TimeZone} (date : Z) (time : Z) : Z :=
  UTC (LocalTime date `div` MS_PER_DAY * MS_PER_DAY + time).

(** A zone that keeps one offset from UTC for good. *)
Program Definition fixed_offset (offset : Z) : TimeZone :=
  {| LocalTime t := t + offset; UTC t := t - offset |}.
Next Obligation. simpl. unfold MS_PER_DAY. lia. Qed.

Definition utc : TimeZone := fixed_offset 0.

(** Eastern time as observed in 2025: five hours behind UTC, four from
    2025-03-09 07:00 UTC until 2025-11-02 06:00 UTC. *)
Definition eastern_offset (t : Z) : Z :=
  if decide (1741503600000 ≤ t < 1762063200000)
  then -4 * MS_PER_HOUR else -5 * MS_PER_HOUR.

(** The instants whose local time value is [t], earliest first. *)
Definition eastern_instants (t : Z) : list Z :=
  filter (λ u, u + eastern_offset u = t) [t + 4 * MS_PER_HOUR; t + 5 * MS_PER_HOUR].

Program Definition eastern_2025 : TimeZone :=
  {| LocalTime t := t + eastern_offset t;
     UTC t := match eastern_instants t with
              | u :: _ => u
              | [] => t + 5 * MS_PER_HOUR
              end |}.
Next Obligation.
  unfold eastern_instants, eastern_offset, MS_PER_DAY, MS_PER_HOUR.
  rewrite !filter_cons, filter_nil.
  repeat case_decide; simpl; lia.
Qed.

(** ** Dashboard statistics service *)

Module DashboardStats.
Record t := mk {
  totalUsers : Z;
  activePrograms : Z;
  upcomingEvents : Z;
  tasksCompleted : Z;
  totalCertificates : Z;
  totalAdmissions : Z;
  totalBlogPosts : Z;
  totalAthletes : Z;
  scoutedAthletes : Z;
  activeTrainingPrograms : Z;
  recentRegistrations : Z;
  contactSubmissions : Z
}.
End DashboardStats.

(** The chain of [catch] handlers that resolves the contact collection. *)
Definition contactSubmissionsCount (db : Firestore) : option Z :=
  catch_
    (catch_
       (catch_ (count db (query (collection "contactSubmissions") []))
               (λ _, count db (query (collection "contacts") [])))
       (λ _, count db (query (collection "messages") [])))
    zero_count.

(** The [try] block that computes the statistics object from the counts of
    the first batch; [None] when one of its awaits rejects. *)
Definition dashboard_stats_body {tz : TimeZone} (db : Firestore) (now : Z)
    (usersCount programsCount tasksCount certificatesCount admissionsCount
     blogPostsCount athletesCount scoutedAthletesCount contactSubmissionsCount : Z)
  : option DashboardStats.t :=
  completedTasks ←
    count db (query (collection "tasks") [where_ "status" OpEq (VStr "completed")]);
  let tasksCompleted :=
    if 0 <? tasksCount
    then JS.Math_round
           (JS.multiply (JS.divide (JS.int completedTasks) (JS.int tasksCount))
              (JS.int 100))
    else 0 in
  upcomingEventsCount ←
    catch_
      (upcomingEventsCount ←
         count db (query (collection "events") [where_ "startDate" OpGe (VTime now)]);
       if decide (upcomingEventsCount = 0)
       then count db (query (collection "events") [])
       else Some upcomingEventsCount)
      (λ _, count db (query (collection "events") []));
  recentRegistrations ←
    count db (query (collection "users")
                [where_ "createdAt" OpGe (VTime (subDays now 7))]);
  let activeTrainingProgramsCount :=
    default 0
      (count db (query (collection "programs") [where_ "type" OpEq (VStr "training")])) in
  Some {|
    DashboardStats.totalUsers := usersCount;
    DashboardStats.activePrograms := programsCount;
    DashboardStats.upcomingEvents := upcomingEventsCount;
    DashboardStats.tasksCompleted := tasksCompleted;
    DashboardStats.totalCertificates := certificatesCount;
    DashboardStats.totalAdmissions := admissionsCount;
    DashboardStats.totalBlogPosts := blogPostsCount;
    DashboardStats.totalAthletes := athletesCount;
    DashboardStats.scoutedAthletes := scoutedAthletesCount;
    DashboardStats.activeTrainingPrograms := activeTrainingProgramsCount;
    DashboardStats.recentRegistrations := recentRegistrations;
    DashboardStats.contactSubmissions := contactSubmissionsCount
  |}.

(** [fetchDashboardStats] at instant [now]; [None] is the rejection with
    "Failed to fetch dashboard statistics". *)
Definition fetchDashboardStats {tz : TimeZone} (db : Firestore) (now : Z) : option DashboardStats.t :=
  usersCount ← catch_ (count db (query (collection "users") [])) zero_count;
  programsCount ←
    catch_ (count db (query (collection "programs") [where_ "status" OpEq (VStr "active")]))
           zero_count;
  eventsCount ← catch_ (count db (query (collection "events") [])) zero_count;
  tasksCount ← catch_ (count db (query (collection "tasks") [])) zero_count;
  certificatesCount ← catch_ (count db (query (collection "certificates") [])) zero_count;
  admissionsCount ←
    catch_ (count db (query (collection "admissionApplications") [])) zero_count;
  blogPostsCount ← catch_ (count db (query (collection "blogPosts") [])) zero_count;
  athletesCount ← catch_ (count db (query (collection "athletes") [])) zero_count;
  scoutedAthletesCount ←
    catch_ (count db (query (collection "athletes") [where_ "status" OpEq (VStr "scouted")]))
           zero_count;
  trainingProgramsCount ←
    catch_ (count db (query (collection "programs") [where_ "type" OpEq (VStr "training")]))
           zero_count;
  recentRegistrationsCount ←
    catch_ (count db (query (collection "users")
                        [where_ "createdAt" OpGt (VTime (now - 7 * 24 * 60 * 60 * 1000))]))
           zero_count;
  contactSubmissionsCount ← contactSubmissionsCount db;
  match dashboard_stats_body db now usersCount programsCount tasksCount
          certificatesCount admissionsCount blogPostsCount athletesCount
          scoutedAthletesCount contactSubmissionsCount with
  | Some stats => Some stats
  | None =>
      Some {|
        DashboardStats.totalUsers := usersCount;
        DashboardStats.activePrograms := programsCount;
        DashboardStats.upcomingEvents := 0;
        DashboardStats.tasksCompleted := 0;
        DashboardStats.totalCertificates := certificatesCount;
        DashboardStats.totalAdmissions := admissionsCount;
        DashboardStats.totalBlogPosts := blogPostsCount;
        DashboardStats.totalAthletes := athletesCount;
        DashboardStats.scoutedAthletes := scoutedAthletesCount;
        DashboardStats.activeTrainingPrograms := 0;
        DashboardStats.recentRegistrations := 0;
        DashboardStats.contactSubmissions := contactSubmissionsCount
      |}
  end.

(** ** Reports service *)

Module UserGrowthData.
Record t := mk { date : string; totalUsers : Z; newUsers : Z }.
End UserGrowthData.

Module TaskCompletionData.
Record t := mk { date : string; completed : Z; pending : Z; overdue : Z }.
End TaskCompletionData.

Module AnalyticsData.
Record t := mk {
  totalUsers : Z;
  activeUsers : Z;
  totalPrograms : Z;
  activePrograms : Z;
  totalEvents : Z;
  upcomingEvents : Z;
  completionRate : Z;
  completedTasks : Z;
  totalTasks : Z;
  userGrowth : list UserGrowthData.t;
  taskCompletion : list TaskCompletionData.t;
  lastUpdated : Z
}.
End AnalyticsData.

Module ProgramPerformance.
Record t := mk {
  id : string;
  name : string;
  status : string;
  startDate : Z;
  endDate : Z;
  enrollments : Z;
  completions : Z;
  completionRate : Z;
  rating : Z;
  lastUpdated : Z
}.
End ProgramPerformance.

Module UserEngagementMetrics.
Record t := mk {
  weeklyEngagement : Z;
  monthlyEngagement : Z;
  activeLastWeek : Z;
  activeLastMonth : Z;
  averageSessionDuration : Z;
  totalSessions : Z;
  lastUpdated : Z
}.
End UserEngagementMetrics.

(** The order in which the loop below descends, with a proof that unfolds
    by computation. *)
#[local] Instance Zwf_wf : WellFounded (Zwf.Zwf 0) :=
  Acc_intro_generator 12 (Zwf.Zwf_well_founded 0).

(** The loop of [getDaysArray], [for (dt = new Date(start); dt <= end;
    dt.setDate(dt.getDate() + 1)) arr.push(new Date(dt))].  It terminates
    because every step is a later instant. *)
Equations? getDaysArray_loop {tz : TimeZone} (arr : list Z) (dt end_ : Z) : list Z
  by wf (end_ - dt) (Zwf.Zwf 0) :=
  getDaysArray_loop arr dt end_ with decide (dt ≤ end_) => {
    | left _ := getDaysArray_loop (arr ++ [dt]) (setDate_plus dt 1) end_;
    | right _ := arr }.
Proof.
  pose proof (next_day_later dt). unfold setDate_plus, Zwf.Zwf.
  rewrite Z.mul_1_l. lia.
Qed.

Definition getDaysArray {tz : TimeZone} (start end_ : Z) : list Z :=
  getDaysArray_loop [] start end_.

(** [setHours(0, 0, 0, 0)] and [setHours(23, 59, 59, 999)] on a copy of the
    date. *)
Definition startOfDay {tz : TimeZone} (date : Z) : Z := setHours date 0.
Definition endOfDay {tz : TimeZone} (date : Z) : Z := setHours date (MS_PER_DAY - 1).

Definition users_created_until (t : Z) : Query :=
  query (collection "users") [where_ "createdAt" OpLe (VTime t)].
Definition users_created_between (t1 t2 : Z) : Query :=
  query (collection "users")
    [where_ "createdAt" OpGe (VTime t1); where_ "createdAt" OpLe (VTime t2)].
Definition tasks_completed_between (t1 t2 : Z) : Query :=
  query (collection "tasks")
    [where_ "status" OpEq (VStr "completed");
     where_ "completedAt" OpGe (VTime t1); where_ "completedAt" OpLe (VTime t2)].
Definition tasks_due_between (t1 t2 : Z) : Query :=
  query (collection "tasks")
    [where_ "status" OpIn (VStrs ["pending"; "in-progress"]);
     where_ "dueDate" OpGe (VTime t1); where_ "dueDate" OpLe (VTime t2)].
Definition tasks_due_before (t : Z) : Query :=
  query (collection "tasks")
    [where_ "status" OpIn (VStrs ["pending"; "in-progress"]);
     where_ "dueDate" OpLt (VTime t)].

Section Reports.
(** [format(date, 'yyyy-MM-dd')] of date-fns. *)
Variable format : Z → string.

(** The [async (date) => ...] of the user growth series. *)
Definition userGrowth_of_day {tz : TimeZone} (db : Firestore) (date : Z) : option UserGrowthData.t :=
  totalUsers ← count db (users_created_until (endOfDay date));
  newUsers ← count db (users_created_between (startOfDay date) (endOfDay date));
  Some (UserGrowthData.mk (format date) totalUsers newUsers).

(** The [async (date) => ...] of the task completion series. *)
Definition taskCompletion_of_day {tz : TimeZone} (db : Firestore) (date : Z)
  : option TaskCompletionData.t :=
  completed ← count db (tasks_completed_between (startOfDay date) (endOfDay date));
  pending ← count db (tasks_due_between (startOfDay date) (endOfDay date));
  overdue ← count db (tasks_due_before (startOfDay date));
  Some (TaskCompletionData.mk (format date) completed pending overdue).

(** [fetchData] of [getAnalyticsData] at instant [now]; [None] is the
    rejection with "Failed to fetch analytics data".  [Promise.all] over
    the days is [mapM]: it fulfils when every member does. *)
Definition getAnalyticsData_fetchData {tz : TimeZone} (db : Firestore) (now : Z)
  : option AnalyticsData.t :=
  usersCount ← count db (query (collection "users") []);
  activeUsersCount ←
    count db (query (collection "users")
                [where_ "lastActiveAt" OpGe (VTime (subDays now 30));
                 where_ "status" OpEq (VStr "active")]);
  programsCount ← count db (query (collection "programs") []);
  activeProgramsCount ←
    count db (query (collection "programs") [where_ "status" OpEq (VStr "active")]);
  eventsCount ← count db (query (collection "events") []);
  upcomingEventsCount ←
    count db (query (collection "events") [where_ "startDate" OpGe (VTime now)]);
  tasksCount ← count db (query (collection "tasks") []);
  completedTasksCount ←
    count db (query (collection "tasks") [where_ "status" OpEq (VStr "completed")]);
  userGrowth ← mapM (userGrowth_of_day db) (getDaysArray (subDays now 29) now);
  taskCompletion ← mapM (taskCompletion_of_day db) (getDaysArray (subDays now 29) now);
  Some {|
    AnalyticsData.totalUsers := usersCount;
    AnalyticsData.activeUsers := activeUsersCount;
    AnalyticsData.totalPrograms := programsCount;
    AnalyticsData.activePrograms := activeProgramsCount;
    AnalyticsData.totalEvents := eventsCount;
    AnalyticsData.upcomingEvents := upcomingEventsCount;
    AnalyticsData.totalTasks := tasksCount;
    AnalyticsData.completedTasks := completedTasksCount;
    AnalyticsData.completionRate :=
      if 0 <? tasksCount
      then JS.Math_round
             (JS.multiply (JS.divide (JS.int completedTasksCount) (JS.int tasksCount))
                (JS.int 100))
      else 0;
    AnalyticsData.userGrowth := userGrowth;
    AnalyticsData.taskCompletion := taskCompletion;
    AnalyticsData.lastUpdated := now
  |}.
End Reports.

(** [session.duration || 0] *)
Definition duration_of (session : Doc) : Z := default 0 (duration session).

(** [fetchData] of [getUserEngagementMetrics] at instant [now]. *)
Definition getUserEngagementMetrics_fetchData {tz : TimeZone} (db : Firestore) (now : Z)
  : option UserEngagementMetrics.t :=
  let weekAgo := subDays now 7 in
  let monthAgo := subDays now 30 in
  activeThisWeek ←
    count db (query (collection "users")
                [where_ "lastActiveAt" OpGe (VTime weekAgo);
                 where_ "status" OpEq (VStr "active")]);
  activeThisMonth ←
    count db (query (collection "users")
                [where_ "lastActiveAt" OpGe (VTime monthAgo);
                 where_ "status" OpEq (VStr "active")]);
  sessions ←
    getDocs db (query (collection "sessions")
                  [where_ "endTime" OpGe (VTime monthAgo); orderBy "endTime" "desc"]);
  let totalSessions := Z.of_nat (length sessions) in
  let totalDuration := foldl (λ sum session, sum + duration_of session) 0 sessions in
  let averageSessionDuration :=
    if 0 <? totalSessions
    then JS.Math_round
           (JS.divide (JS.divide (JS.int totalDuration) (JS.int totalSessions))
              (JS.int 60))
    else 0 in
  totalUsers ← count db (query (collection "users") []);
  let weeklyEngagement :=
    if 0 <? totalUsers
    then JS.Math_min 100
           (JS.Math_round
              (JS.multiply (JS.divide (JS.int activeThisWeek) (JS.int totalUsers))
                 (JS.int 100)))
    else 0 in
  let monthlyEngagement :=
    if 0 <? totalUsers
    then JS.Math_min 100
           (JS.Math_round
              (JS.multiply (JS.divide (JS.int activeThisMonth) (JS.int totalUsers))
                 (JS.int 100)))
    else 0 in
  Some {|
    UserEngagementMetrics.weeklyEngagement := weeklyEngagement;
    UserEngagementMetrics.monthlyEngagement := monthlyEngagement;
    UserEngagementMetrics.activeLastWeek := activeThisWeek;
    UserEngagementMetrics.activeLastMonth := activeThisMonth;
    UserEngagementMetrics.averageSessionDuration := averageSessionDuration;
    UserEngagementMetrics.totalSessions := totalSessions;
    UserEngagementMetrics.lastUpdated := now
  |}.

(** The [forEach] that indexes enrolment or completion documents by the id
    of the program they hang under; a document without one is skipped. *)
Definition count_by_program (byProgram : gmap string Z) (d : Doc) : gmap string Z :=
  match doc_parent d with
  | Some programId =>
      if decide (programId = "") then byProgram
      else <[programId := default 0 (byProgram !! programId) + 1]> byProgram
  | None => byProgram
  end.

(** [field?.toDate() || new Date()]: [?.] skips the call for an absent
    field only; on a value that is not a [Timestamp] the call throws. *)
Definition toDate_or_now (now : Z) (field : DateField) : option Z :=
  match field with
  | NoField => Some now
  | Timestamp t => Some t
  | NotTimestamp => None
  end.

(** The callback of [programsSnapshot.docs.map]; [None] when it throws. *)
Definition program_performance (enrollmentsByProgram completionsByProgram : gmap string Z)
    (now : Z) (d : Doc) : option ProgramPerformance.t :=
  let enrollments := default 0 (enrollmentsByProgram !! doc_id d) in
  let completions := default 0 (completionsByProgram !! doc_id d) in
  startDate ← toDate_or_now now (startDate d);
  endDate ← toDate_or_now now (endDate d);
  Some
  {| ProgramPerformance.id := doc_id d;
     ProgramPerformance.name := JS.or_default (doc_name d) "Unnamed Program";
     ProgramPerformance.status := JS.or_default (doc_status d) "draft";
     ProgramPerformance.startDate := startDate;
     ProgramPerformance.endDate := endDate;
     ProgramPerformance.enrollments := enrollments;
     ProgramPerformance.completions := completions;
     ProgramPerformance.completionRate :=
       if 0 <? enrollments
       then JS.Math_round
              (JS.multiply (JS.divide (JS.int completions) (JS.int enrollments))
                 (JS.int 100))
       else 0;
     ProgramPerformance.rating := 0;
     ProgramPerformance.lastUpdated := now |}.

(** [fetchData] of [getProgramPerformanceMetrics] at instant [now]; [None]
    is the rejection with "Failed to fetch program performance metrics",
    also when the callback of [map] throws. *)
Definition getProgramPerformanceMetrics_fetchData (db : Firestore) (now : Z)
  : option (list ProgramPerformance.t) :=
  programs ← getDocs db (query (collection "programs") [orderBy "createdAt" "desc"]);
  enrollments ← getDocs db (query (collectionGroup "enrollments") []);
  completions ← getDocs db (query (collectionGroup "completions") []);
  let enrollmentsByProgram := foldl count_by_program ∅ enrollments in
  let completionsByProgram := foldl count_by_program ∅ completions in
  mapM (program_performance enrollmentsByProgram completionsByProgram now)
    (programs : list Doc).

(** ** The subscription registry

    [listeners] are the snapshot listeners attached to the store, each with
    its trigger query and the callback it feeds; [subscriptions] is the
    module-level [Map<string, Unsubscribe>], an [Unsubscribe] being known by
    the listener it detaches; [detached] logs the calls of such functions. *)
Record Runtime := mkRuntime {
  listeners : gmap nat (Query * nat);
  nextListener : nat;
  subscriptions : gmap string nat;
  detached : list nat
}.

Definition runtime0 : Runtime := mkRuntime ∅ 0 ∅ [].

(** [onSnapshot(trigger, ...)]: attaches a new listener and returns it. *)
Definition onSnapshot (trigger : Query) (callback : nat) (rt : Runtime)
  : nat * Runtime :=
  let l := nextListener rt in
  (l, mkRuntime (<[l := (trigger, callback)]> (listeners rt)) (S l)
        (subscriptions rt) (detached rt)).

(** Calling the [Unsubscribe] that [onSnapshot] returned for [l]. *)
Definition unsubscribe (l : nat) (rt : Runtime) : Runtime :=
  mkRuntime (delete l (listeners rt)) (nextListener rt)
    (subscriptions rt) (detached rt ++ [l]).

(** The cleanup function handed to the caller, closed over [subscriptionId]. *)
Definition cleanup (subscriptionId : string) (rt : Runtime) : Runtime :=
  match subscriptions rt !! subscriptionId with
  | Some unsub =>
      let rt := unsubscribe unsub rt in
      mkRuntime (listeners rt) (nextListener rt)
        (delete subscriptionId (subscriptions rt)) (detached rt)
  | None => rt
  end.

(** The [if (callback)] branch shared by the three entry points, for the
    family prefix and the trigger collection of each; [now] is [Date.now()].
    The first delivery [fetchData().then(callback)] does not touch the
    registry. *)
Definition subscribe (family : string) (trigger : Query) (callback : nat)
    (now : Z) (rt : Runtime) : (Runtime → Runtime) * Runtime :=
  let '(unsub, rt) := onSnapshot trigger callback rt in
  let subscriptionId := family +:+ "-" +:+ pretty now in
  let rt := mkRuntime (listeners rt) (nextListener rt)
              (<[subscriptionId := unsub]> (subscriptions rt)) (detached rt) in
  (cleanup subscriptionId, rt).

Definition getAnalyticsData_subscribe :=
  subscribe "analytics" (query (collectionGroup "analytics") [limit 1]).
Definition getUserEngagementMetrics_subscribe :=
  subscribe "engagement" (query (collectionGroup "sessions") [limit 1]).
Definition getProgramPerformanceMetrics_subscribe :=
  subscribe "programs" (query (collectionGroup "programs") [limit 1]).

(** Callbacks a change of the store reaches: those of attached listeners. *)
Definition receives_pushes (rt : Runtime) (callback : nat) : Prop :=
  ∃ l trigger, listeners rt !! l = Some (trigger, callback).

(** The [beforeunload] handler: [subscriptions.forEach(unsubscribe =>
    unsubscribe())] followed by [subscriptions.clear()].  [entries] are the
    entries of the registry in the order the [Map] iterates them, which is
    the order of their insertion. *)
Definition beforeunload (entries : list (string * nat)) (rt : Runtime) : Runtime :=
  let rt := foldl (λ rt entry, unsubscribe entry.2 rt) rt entries in
  mkRuntime (listeners rt) (nextListener rt) ∅ (detached rt).

(** ** analyticsService.ts: the key metrics and the combined fetch *)

Module AnalyticsMetrics.
Record t := mk {
  eventAttendanceRate : Z;
  athletesScouted : Z;
  trainingCompletion : Z;
  activePrograms : Z
}.
End AnalyticsMetrics.

(** [fetchAnalyticsMetrics]: the four counts of [Promise.all], then the
    metrics; the [catch] returns zeros. *)
Definition fetchAnalyticsMetrics (db : Firestore) : AnalyticsMetrics.t :=
  let metrics :=
    totalEvents ← count db (query (collection "events") []);
    totalAthletes ← count db (query (collection "athletes") []);
    scoutedAthletes ←
      count db (query (collection "athletes") [where_ "status" OpEq (VStr "scouted")]);
    activePrograms ←
      count db (query (collection "programs") [where_ "status" OpEq (VStr "active")]);
    let eventAttendanceRate := if 0 <? totalEvents then 85 else 0 in
    let totalAthletesCount := totalAthletes in
    let scoutedCount := scoutedAthletes in
    let athletesScouted :=
      if 0 <? totalAthletesCount
      then JS.Math_round
             (JS.multiply (JS.divide (JS.int scoutedCount) (JS.int totalAthletesCount))
                (JS.int 100))
      else 0 in
    let trainingCompletion := 75 in
    Some {| AnalyticsMetrics.eventAttendanceRate := eventAttendanceRate;
            AnalyticsMetrics.athletesScouted := athletesScouted;
            AnalyticsMetrics.trainingCompletion := trainingCompletion;
            AnalyticsMetrics.activePrograms := activePrograms |} in
  match metrics with
  | Some metrics => metrics
  | None =>
      {| AnalyticsMetrics.eventAttendanceRate := 0;
         AnalyticsMetrics.athletesScouted := 0;
         AnalyticsMetrics.trainingCompletion := 0;
         AnalyticsMetrics.activePrograms := 0 |}
  end.

Module AllAnalytics.
Record t := mk {
  regionalData : list RegionalData.t;
  levelData : list LevelData.t;
  growthData : list GrowthData.t;
  metrics : AnalyticsMetrics.t
}.
End AllAnalytics.

Section AllAnalytics.
Variable getMonth : Z → Z.
(** [new Date(date.getFullYear(), date.getMonth() - i, 1)] as a timestamp. *)
Variable firstOfMonth : Z → Z → Z.

(** The three chart functions with their reads against the store. *)
Definition fetchRegionalData_from (db : Firestore) : list RegionalData.t :=
  fetchRegionalData (getDocs db (query (collection "athletes") []))
    (getDocs db (query (collection "events") [])).

Definition fetchLevelData_from (db : Firestore) : list LevelData.t :=
  fetchLevelData (getDocs db (query (collection "athletes") [])).

Definition fetchGrowthData_from (db : Firestore) (now : Z) : list GrowthData.t :=
  let sixMonthsAgo := firstOfMonth now 5 in
  fetchGrowthData getMonth now
    (getDocs db (query (collection "athletes")
                   [where_ "createdAt" OpGe (VTime sixMonthsAgo)]))
    (getDocs db (query (collection "events")
                   [where_ "createdAt" OpGe (VTime sixMonthsAgo)])).

(** [fetchAllAnalytics] at instant [now]: none of the four members of its
    [Promise.all] rejects, so neither does it. *)
Definition fetchAllAnalytics (db : Firestore) (now : Z) : option AllAnalytics.t :=
  Some {| AllAnalytics.regionalData := fetchRegionalData_from db;
          AllAnalytics.levelData := fetchLevelData_from db;
          AllAnalytics.growthData := fetchGrowthData_from db now;
          AllAnalytics.metrics := fetchAnalyticsMetrics db |}.
End AllAnalytics.

(** ** SportsAnalytics.tsx *)

Module SportsAnalytics.
(** The state hooks of the component. *)
Record State := mkState {
  regionData : list RegionalData.t;
  levelData : list LevelData.t;
  growthData : list GrowthData.t;
  metrics : option AnalyticsMetrics.t;
  loading : bool;
  error : option string
}.

Definition initial : State := mkState [] [] [] None true None.

(** [loadAnalytics], from the state it starts in to the state it leaves;
    [data] is the outcome of [await fetchAllAnalytics()]. *)
Definition loadAnalytics (data : option AllAnalytics.t) (s : State) : State :=
  let s := mkState (regionData s) (levelData s) (growthData s) (metrics s) true None in
  let s :=
    match data with
    | Some data =>
        mkState (AllAnalytics.regionalData data) (AllAnalytics.levelData data)
          (AllAnalytics.growthData data) (Some (AllAnalytics.metrics data))
          (loading s) (error s)
    | None =>
        mkState (regionData s) (levelData s) (growthData s) (metrics s) (loading s)
          (Some "Failed to load analytics data")
    end in
  mkState (regionData s) (levelData s) (growthData s) (metrics s) false (error s).

(** What the component renders: the spinner, the error alert, or the
    overview, in which each of the three panels shows its chart or the
    sentence that stands for it and the four cards show a number. *)
Inductive View :=
  | Spinner
  | Alert (message : string)
  | Overview (growthChart levelChart regionChart : bool)
      (eventAttendanceRate athletesScouted trainingCompletion activePrograms : Z).

(** [d.value > 0] *)
Definition positive (v : JS.value) : bool :=
  match v with
  | JS.Num n => 0 <? n
  | JS.NaN | JS.Undefined => false
  end.

(** [metrics?.field || 0] *)
Definition card (field : AnalyticsMetrics.t → Z) (metrics : option AnalyticsMetrics.t) : Z :=
  match metrics with
  | Some metrics => field metrics
  | None => 0
  end.

Definition overview (s : State) : View :=
  Overview (bool_decide (0 < length (growthData s))%nat)
    (existsb (λ d, positive (LevelData.value d)) (levelData s))
    (bool_decide (0 < length (regionData s))%nat)
    (card AnalyticsMetrics.eventAttendanceRate (metrics s))
    (card AnalyticsMetrics.athletesScouted (metrics s))
    (card AnalyticsMetrics.trainingCompletion (metrics s))
    (card AnalyticsMetrics.activePrograms (metrics s)).

Definition render (s : State) : View :=
  if loading s then Spinner
  else match error s with
       | Some message => if decide (message = "") then overview s else Alert message
       | None => overview s
       end.
End SportsAnalytics.

(** ** The dashboard service: recent activity *)

(** The fields [fetchRecentActivity] reads from a document. *)
Module ActivityDoc.
Record t := mk {
  id : string;
  name : option string;
  email : option string;
  title : option string;
  firstName : option string;
  lastName : option string;
  subject : option string;
  createdAt : option Z;
  startDate : option Z
}.
End ActivityDoc.

Inductive ActivityType :=
  | user_registered | program_created | event_created | task_completed
  | athlete_added | training_completed | contact_received.

(** A [RecentActivity]; [timestamp] is the instant that the ISO string of
    the field denotes, which [new Date(timestamp).getTime()] reads back. *)
Module RecentActivity.
Record t := mk {
  id : string;
  type : ActivityType;
  description : string;
  timestamp : Z;
  user : option string
}.
End RecentActivity.

Definition quote : string := String "034"%char EmptyString.

Section RecentActivity.
(** [new Date()] *)
Variable now : Z.

(** [field?.toDate?.()?.toISOString() || new Date().toISOString()] *)
Definition timestamp_of (field : option Z) : Z := default now field.

Definition user_activity (d : ActivityDoc.t) : RecentActivity.t :=
  let who := JS.or_else (ActivityDoc.name d) (ActivityDoc.email d) in
  {| RecentActivity.id := "user_" +:+ ActivityDoc.id d;
     RecentActivity.type := user_registered;
     RecentActivity.description := "New user " +:+ JS.template who +:+ " registered";
     RecentActivity.timestamp := timestamp_of (ActivityDoc.createdAt d);
     RecentActivity.user := who |}.

Definition program_activity (d : ActivityDoc.t) : RecentActivity.t :=
  {| RecentActivity.id := "program_" +:+ ActivityDoc.id d;
     RecentActivity.type := program_created;
     RecentActivity.description :=
       "New program " +:+ quote
       +:+ JS.template (JS.or_else (ActivityDoc.title d) (ActivityDoc.name d))
       +:+ quote +:+ " created";
     RecentActivity.timestamp := timestamp_of (ActivityDoc.createdAt d);
     RecentActivity.user := None |}.

Definition event_activity (d : ActivityDoc.t) : RecentActivity.t :=
  {| RecentActivity.id := "event_" +:+ ActivityDoc.id d;
     RecentActivity.type := event_created;
     RecentActivity.description :=
       "New event " +:+ quote
       +:+ JS.template (JS.or_else (ActivityDoc.title d) (ActivityDoc.name d))
       +:+ quote +:+ " scheduled";
     RecentActivity.timestamp := timestamp_of (ActivityDoc.startDate d);
     RecentActivity.user := None |}.

Definition athlete_activity (d : ActivityDoc.t) : RecentActivity.t :=
  {| RecentActivity.id := "athlete_" +:+ ActivityDoc.id d;
     RecentActivity.type := athlete_added;
     RecentActivity.description :=
       "New athlete " +:+ JS.template (ActivityDoc.firstName d) +:+ " "
       +:+ JS.template (ActivityDoc.lastName d) +:+ " added";
     RecentActivity.timestamp := timestamp_of (ActivityDoc.createdAt d);
     RecentActivity.user := None |}.

Definition training_activity (d : ActivityDoc.t) : RecentActivity.t :=
  {| RecentActivity.id := "training_" +:+ ActivityDoc.id d;
     RecentActivity.type := training_completed;
     RecentActivity.description :=
       "Training session completed: "
       +:+ JS.or_default (ActivityDoc.title d) "Untitled";
     RecentActivity.timestamp := timestamp_of (ActivityDoc.startDate d);
     RecentActivity.user := None |}.

Definition contact_activity (d : ActivityDoc.t) : RecentActivity.t :=
  {| RecentActivity.id := "contact_" +:+ ActivityDoc.id d;
     RecentActivity.type := contact_received;
     RecentActivity.description :=
       "New contact from " +:+ JS.or_default (ActivityDoc.name d) "Anonymous"
       +:+ ": " +:+ JS.or_default (ActivityDoc.subject d) "No subject";
     RecentActivity.timestamp := timestamp_of (ActivityDoc.createdAt d);
     RecentActivity.user := None |}.

(** [(a, b) => new Date(b.timestamp).getTime() - new Date(a.timestamp).getTime()] *)
Definition newest_first (a b : RecentActivity.t) : Z :=
  RecentActivity.timestamp b - RecentActivity.timestamp a.

(** [getDocs(query(collection(db, name), orderBy(field, "desc"), limit(3)))
      .catch(() => ({ docs: [] }))] *)
Definition recent_docs (getDocs : Query → option (list ActivityDoc.t))
    (name field : string) : list ActivityDoc.t :=
  default [] (getDocs (query (collection name) [orderBy field "desc"; limit 3])).

(** The [activities] array before it is sorted: the six loops that push. *)
Definition activities (getDocs : Query → option (list ActivityDoc.t))
  : list RecentActivity.t :=
  (user_activity <$> recent_docs getDocs "users" "createdAt")
  ++ (program_activity <$> recent_docs getDocs "programs" "createdAt")
  ++ (event_activity <$> recent_docs getDocs "events" "startDate")
  ++ (athlete_activity <$> recent_docs getDocs "athletes" "createdAt")
  ++ (training_activity <$> recent_docs getDocs "trainingSessions" "startDate")
  ++ (contact_activity <$> recent_docs getDocs "contactSubmissions" "createdAt").

(** [fetchRecentActivity(limitCount)] *)
Definition fetchRecentActivity (getDocs : Query → option (list ActivityDoc.t))
    (limitCount : Z) : list RecentActivity.t :=
  JS.slice0 limitCount (JS.Array_sort newest_first (activities getDocs)).
End RecentActivity.

(** ** The dashboard service: relative times *)

Section TimeAgo.
(** [time.toLocaleDateString()] *)
Variable toLocaleDateString : Z → string.

(** [getTimeAgo(timestamp)] at instant [now]; [time] is
    [new Date(timestamp).getTime()], [None] when the string is no date. *)
Definition getTimeAgo (now : Z) (time : option Z) : string :=
  match time with
  | None => "Invalid Date"
  | Some time =>
      let diffInSeconds :=
        JS.Math_floor (JS.divide (JS.int (now - time)) (JS.int 1000)) in
      if diffInSeconds <? 60 then "Just now"
      else if diffInSeconds <? 3600
      then pretty (JS.Math_floor (JS.divide (JS.int diffInSeconds) (JS.int 60)))
           +:+ " minutes ago"
      else if diffInSeconds <? 86400
      then pretty (JS.Math_floor (JS.divide (JS.int diffInSeconds) (JS.int 3600)))
           +:+ " hours ago"
      else if diffInSeconds <? 604800
      then pretty (JS.Math_floor (JS.divide (JS.int diffInSeconds) (JS.int 86400)))
           +:+ " days ago"
      else toLocaleDateString time
  end.
End TimeAgo.

(** ** Dashboard.tsx: the statistics cards *)

(** A card of [statsCards]; the icon element is left out. *)
Module StatCard.
Record t := mk { title : string; value : string; trend : string; trendUp : bool }.
End StatCard.

(** [`+${Math.min(cap, Math.floor(n * 0.1))}`] *)
Definition tenth_capped (cap n : Z) : string :=
  "+" +:+ pretty (JS.Math_min cap (JS.Math_floor (JS.multiply (JS.int n) JS.tenth))).

Section StatsCards.
(** [n.toLocaleString()] *)
Variable toLocaleString : Z → string.

(** [stats?.field?.toString() || '0'] *)
Definition shown (field : DashboardStats.t → Z) (stats : option DashboardStats.t)
  : string :=
  JS.or_default (pretty ∘ field <$> stats) "0".

(** [stats && stats.field > 0 ? yes : no] *)
Definition when_positive (field : DashboardStats.t → Z)
    (stats : option DashboardStats.t) (yes : Z → string) (no : string) : string :=
  match stats with
  | Some stats => if 0 <? field stats then yes (field stats) else no
  | None => no
  end.

Definition statsCards (stats : option DashboardStats.t) : list StatCard.t :=
  [ StatCard.mk "Total Athletes"
      (JS.or_default (toLocaleString ∘ DashboardStats.totalAthletes <$> stats) "0")
      "+12%" true;
    StatCard.mk "Scouted Athletes" (shown DashboardStats.scoutedAthletes stats)
      (when_positive DashboardStats.scoutedAthletes stats
         (λ n, tenth_capped 15 n +:+ "%") "0%")
      true;
    StatCard.mk "Upcoming Events" (shown DashboardStats.upcomingEvents stats)
      (when_positive DashboardStats.upcomingEvents stats
         (λ n, "+" +:+ pretty (JS.Math_min 5 n)) "0")
      true;
    StatCard.mk "Training Programs" (shown DashboardStats.activeTrainingPrograms stats)
      (when_positive DashboardStats.activeTrainingPrograms stats
         (λ n, "+" +:+ pretty (JS.Math_min 3 n)) "0")
      true;
    StatCard.mk "Recent Registrations" (shown DashboardStats.recentRegistrations stats)
      (when_positive DashboardStats.recentRegistrations stats
         (λ n, tenth_capped 15 n +:+ "%") "0%")
      true;
    StatCard.mk "Blog Posts" (shown DashboardStats.totalBlogPosts stats)
      (when_positive DashboardStats.totalBlogPosts stats (tenth_capped 5) "0")
      true;
    StatCard.mk "Contact Submissions" (shown DashboardStats.contactSubmissions stats)
      (when_positive DashboardStats.contactSubmissions stats (tenth_capped 3) "0")
      true ].
End StatsCards.

(** ** utils/seedDashboardData.ts *)

(** Field values of the sample documents: [FDate s] is
    [Timestamp.fromDate(new Date(s))], [FTime t] a timestamp. *)
Inductive SeedValue :=
  | FStr (s : string)
  | FNum (n : Z)
  | FBool (b : bool)
  | FDate (s : string)
  | FTime (t : Z)
  | FStrs (l : list string).

Abbreviation SeedDoc := (list (string * SeedValue)).

(** The collections of the store, by name; an absent name is an empty
    collection. *)
Abbreviation Collections := (gmap string (list SeedDoc)).

Definition docs_of (store : Collections) (name : string) : list SeedDoc :=
  default [] (store !! name).

(** A computation against the store: it rejects ([None]) or fulfils, and
    leaves the store it has reached. *)
Definition Seeding (A : Type) : Type := Collections → option A * Collections.

Definition seeding_ret {A} (a : A) : Seeding A := λ store, (Some a, store).

Definition seeding_bind {A B} (m : Seeding A) (f : A → Seeding B) : Seeding B :=
  λ store,
    match m store with
    | (Some a, store) => f a store
    | (None, store) => (None, store)
    end.

Notation "x ←ˢ m ; f" := (seeding_bind m (λ x, f))
  (at level 100, m at next level, f at level 200, right associativity,
   format "x  ←ˢ  m ;  '/' f").
Notation "m ;;ˢ f" := (seeding_bind m (λ _, f))
  (at level 100, f at level 200, right associativity, format "m  ;;ˢ  '/' f").

Section Seed.
(** [Timestamp.now()] *)
Variable now : Z.
(** The reads and the writes that the store rejects. *)
Variable rejects_read : string → bool.
Variable rejects_write : string → SeedDoc → bool.

(** [await getDocs(collection(db, name))] *)
Definition seed_getDocs (name : string) : Seeding (list SeedDoc) :=
  λ store, (if rejects_read name then None else Some (docs_of store name), store).

(** [await addDoc(collection(db, name), doc)] *)
Definition seed_addDoc (name : string) (doc : SeedDoc) : Seeding unit :=
  λ store,
    if rejects_write name doc then (None, store)
    else (Some (), <[name := docs_of store name ++ [doc]]> store).

Definition samplePrograms : list SeedDoc :=
  [ [ ("title", FStr "Web Development Bootcamp");
      ("description", FStr "Learn modern web development with React and Node.js");
      ("status", FStr "active");
      ("startDate", FDate "2024-01-15"); ("endDate", FDate "2024-06-15");
      ("capacity", FNum 30); ("enrolled", FNum 25);
      ("createdAt", FTime now); ("updatedAt", FTime now) ];
    [ ("title", FStr "Data Science Fundamentals");
      ("description", FStr "Introduction to data science and machine learning");
      ("status", FStr "active");
      ("startDate", FDate "2024-02-01"); ("endDate", FDate "2024-07-01");
      ("capacity", FNum 20); ("enrolled", FNum 18);
      ("createdAt", FTime now); ("updatedAt", FTime now) ];
    [ ("title", FStr "Mobile App Development");
      ("description", FStr "Build mobile apps with React Native");
      ("status", FStr "planning");
      ("startDate", FDate "2024-03-01"); ("endDate", FDate "2024-08-01");
      ("capacity", FNum 25); ("enrolled", FNum 0);
      ("createdAt", FTime now); ("updatedAt", FTime now) ] ].

Definition sampleEvents : list SeedDoc :=
  [ [ ("title", FStr "Football Tournament 2024");
      ("description", FStr "Annual grassroots football tournament for young athletes");
      ("startDate", FDate "2024-12-15"); ("endDate", FDate "2024-12-17");
      ("location", FStr "National Stadium, Monrovia");
      ("status", FStr "upcoming"); ("category", FStr "tournament");
      ("capacity", FNum 500); ("registrations", FNum 234); ("price", FNum 0);
      ("isPublic", FBool true);
      ("createdAt", FTime now); ("updatedAt", FTime now) ];
    [ ("title", FStr "Youth Training Camp");
      ("description", FStr "Intensive training camp for aspiring football players");
      ("startDate", FDate "2024-11-20"); ("endDate", FDate "2024-11-25");
      ("location", FStr "BSM Training Facility");
      ("status", FStr "upcoming"); ("category", FStr "training_camp");
      ("capacity", FNum 50); ("registrations", FNum 45); ("price", FNum 25);
      ("isPublic", FBool true);
      ("createdAt", FTime now); ("updatedAt", FTime now) ];
    [ ("title", FStr "Community Outreach Program");
      ("description", FStr "Sports development program for local communities");
      ("startDate", FDate "2024-11-10"); ("endDate", FDate "2024-11-10");
      ("location", FStr "Various Locations");
      ("status", FStr "upcoming"); ("category", FStr "community_outreach");
      ("capacity", FNum 200); ("registrations", FNum 150); ("price", FNum 0);
      ("isPublic", FBool true);
      ("createdAt", FTime now); ("updatedAt", FTime now) ] ].

Definition sampleTasks : list SeedDoc :=
  [ [ ("title", FStr "Update course curriculum");
      ("description", FStr "Review and update web development curriculum");
      ("status", FStr "completed"); ("priority", FStr "high");
      ("assignedTo", FStr "admin"); ("dueDate", FDate "2024-07-15");
      ("createdAt", FTime now); ("updatedAt", FTime now) ];
    [ ("title", FStr "Prepare marketing materials");
      ("description", FStr "Create brochures for upcoming programs");
      ("status", FStr "completed"); ("priority", FStr "medium");
      ("assignedTo", FStr "marketing"); ("dueDate", FDate "2024-07-20");
      ("createdAt", FTime now); ("updatedAt", FTime now) ];
    [ ("title", FStr "Schedule instructor interviews");
      ("description", FStr "Interview candidates for new instructor positions");
      ("status", FStr "in_progress"); ("priority", FStr "high");
      ("assignedTo", FStr "hr"); ("dueDate", FDate "2024-08-01");
      ("createdAt", FTime now); ("updatedAt", FTime now) ];
    [ ("title", FStr "Setup new classroom equipment");
      ("description", FStr "Install computers and projectors in new classroom");
      ("status", FStr "pending"); ("priority", FStr "medium");
      ("assignedTo", FStr "facilities"); ("dueDate", FDate "2024-08-15");
      ("createdAt", FTime now); ("updatedAt", FTime now) ];
    [ ("title", FStr "Review student applications");
      ("description", FStr "Process applications for fall semester");
      ("status", FStr "completed"); ("priority", FStr "high");
      ("assignedTo", FStr "admissions"); ("dueDate", FDate "2024-07-30");
      ("createdAt", FTime now); ("updatedAt", FTime now) ] ].

Definition sampleBlogPosts : list SeedDoc :=
  [ [ ("title", FStr "Upcoming Pre Season Game");
      ("slug", FStr "upcoming-pre-season-game");
      ("excerpt",
       FStr "Get ready for an exciting pre-season match featuring our top athletes");
      ("content", FStr "We are thrilled to announce our upcoming pre-season game...");
      ("author", FStr "Admin User"); ("authorId", FStr "admin");
      ("category", FStr "Game");
      ("tags", FStrs ["football"; "tournament"; "grassroots"]);
      ("status", FStr "published");
      ("views", FNum 0); ("likes", FNum 0); ("commentsCount", FNum 0);
      ("publishedAt", FTime now);
      ("createdAt", FTime now); ("updatedAt", FTime now) ] ].

(** [for (const doc of samples) await addDoc(collection(db, name), doc)] *)
Fixpoint seed_addAll (name : string) (samples : list SeedDoc) : Seeding unit :=
  match samples with
  | [] => seeding_ret ()
  | doc :: samples => seed_addDoc name doc ;;ˢ seed_addAll name samples
  end.

(** [if (snapshot.empty) { ... }] *)
Definition seed_if_empty (snapshot : list SeedDoc) (name : string)
    (samples : list SeedDoc) : Seeding unit :=
  match snapshot with
  | [] => seed_addAll name samples
  | _ :: _ => seeding_ret ()
  end.

(** [seedSampleData]: the five reads first, then the four guarded loops. *)
Definition seedSampleData : Seeding unit :=
  usersSnapshot ←ˢ seed_getDocs "users";
  programsSnapshot ←ˢ seed_getDocs "programs";
  eventsSnapshot ←ˢ seed_getDocs "events";
  tasksSnapshot ←ˢ seed_getDocs "tasks";
  blogPostsSnapshot ←ˢ seed_getDocs "blogPosts";
  seed_if_empty programsSnapshot "programs" samplePrograms ;;ˢ
  seed_if_empty eventsSnapshot "events" sampleEvents ;;ˢ
  seed_if_empty tasksSnapshot "tasks" sampleTasks ;;ˢ
  seed_if_empty blogPostsSnapshot "blogPosts" sampleBlogPosts.
End Seed.

(** * Vocabulary of the properties

    Counting functions, orders and sample inputs the statements below are
    written with. *)

Definition athlete (loc l : option string) (t : option Z) : Doc :=
  {| doc_id := ""; doc_parent := None; location := loc; level := l;
     createdAt := t; duration := None; doc_name := None;
     doc_status := None; startDate := NoField; endDate := NoField |}.

Definition five_athletes : list Doc :=
  (λ l, athlete None l None) <$>
    [Some "Pro"; Some "Pro"; Some "Semi-Pro"; Some ""; Some "Grassroots"].

(** Number of documents whose level, after defaulting, is [k]. *)
Definition with_level (k : string) (docs : list Doc) : Z :=
  Z.of_nat (length (filter (λ d, level_of d = k) docs)).

Definition recognised (d : Doc) : Prop :=
  level_of d ∈ ["Grassroots"; "Semi-Pro"; "Professional"].

(** The double [(n / d) * 100] as the binary64 operations of the standard
    library's specification of IEEE 754 arithmetic compute it. *)
Definition binary64_ratio_times_100 (n d : Z) : SpecFloat.spec_float :=
  let binary64 k := SpecFloat.binary_normalize 53 1024 k 0 false in
  SpecFloat.SFmul 53 1024
    (SpecFloat.SFdiv 53 1024 (binary64 n) (binary64 d)) (binary64 100).

(** [x] and the finite binary64 number [y] are the same number. *)
Definition same_number (x : JS.double) (y : SpecFloat.spec_float) : bool :=
  match y with
  | SpecFloat.S754_zero _ => x.1 =? 0
  | SpecFloat.S754_finite s m e =>
      x.1 * 2 ^ Z.max 0 (x.2 - e)
      =? (if s then Z.neg m else Z.pos m) * 2 ^ Z.max 0 (e - x.2)
  | _ => false
  end.

(** [Math.round((n / d) * 100)] *)
Definition ratio_percent (n d : Z) : Z :=
  JS.Math_round (JS.multiply (JS.divide (JS.int n) (JS.int d)) (JS.int 100)).

(** The expression [d > 0 ? Math.round((n / d) * 100) : 0] that computes
    [tasksCompleted], [completionRate] and the engagement rates. *)
Definition percentage (numerator denominator : Z) : Z :=
  if 0 <? denominator then ratio_percent numerator denominator else 0.

Definition completed_tasks_query : Query :=
  query (collection "tasks") [where_ "status" OpEq (VStr "completed")].

Definition all_tasks_query : Query := query (collection "tasks") [].

(** A store with [total] tasks of which [completed] are completed; every
    other count is [total] as well, every read is empty. *)
Definition db_tasks (completed total : Z) : Firestore :=
  {| getCountFromServer := λ q,
       if decide (q = completed_tasks_query) then Some (Z.to_nat completed)
       else Some (Z.to_nat total);
     getDocs := λ _, Some [] |}.

(** A store where every count is [n] and every read returns [docs]. *)
Definition db_constant (n : nat) (docs : list Doc) : Firestore :=
  {| getCountFromServer := λ _, Some n; getDocs := λ _, Some docs |}.

(** First success wins over an ordered list of candidates; 0 when all fail. *)
Fixpoint first_success (candidates : list (option Z)) : Z :=
  match candidates with
  | [] => 0
  | Some n :: _ => n
  | None :: rest => first_success rest
  end.

Definition contact_collections : list string :=
  ["contactSubmissions"; "contacts"; "messages"].

(** A store without the primary contact collection: its query rejects, any
    other count finds 3 documents. *)
Definition db_contacts_fallback : Firestore :=
  {| getCountFromServer := λ q,
       if decide (q = query (collection "contactSubmissions") []) then None
       else Some 3%nat;
     getDocs := λ _, Some [] |}.

Definition all_users_query : Query := query (collection "users") [].

(** A store that answers every count with [weekly] except the count of all
    users, which is [total]. *)
Definition db_users (total weekly : nat) : Firestore :=
  {| getCountFromServer := λ q,
       if decide (q = all_users_query) then Some total else Some weekly;
     getDocs := λ _, Some [] |}.

Definition no_stats : DashboardStats.t :=
  DashboardStats.mk 0 0 0 0 0 0 0 0 0 0 0 0.

Definition a_program : Doc :=
  {| doc_id := "p1"; doc_parent := None; location := None; level := None;
     createdAt := Some 5; duration := None; doc_name := Some "Academy";
     doc_status := Some "active"; startDate := Timestamp 7; endDate := NoField |}.

(** The [k]-th day of the window of 30 days that ends at [now]. *)
Definition window_day (now : Z) (k : nat) : Z :=
  now - 29 * MS_PER_DAY + Z.of_nat k * MS_PER_DAY.

(** The [k]-th date that the loop of [getDaysArray] reaches from [start]. *)
Definition day_from {tz : TimeZone} (start : Z) (k : nat) : Z :=
  Nat.iter k (λ dt, setDate_plus dt 1) start.

(** From [lo] to [hi] the zone stays [offset] away from UTC. *)
Definition keeps_offset {tz : TimeZone} (offset lo hi : Z) : Prop :=
  ∀ t, lo ≤ t ≤ hi → LocalTime t = t + offset ∧ UTC (t + offset) = t.

(** No change of the offset from thirty days before [now] to one day after
    it. *)
Definition steady_window {tz : TimeZone} (now : Z) : Prop :=
  ∃ offset, keeps_offset offset (now - 30 * MS_PER_DAY) (now + MS_PER_DAY).

Definition analytics_trigger : Query := query (collectionGroup "analytics") [limit 1].

(** Locations that become property names of [locationCounts]: the names the
    object inherits never do. *)
Definition own_locations (docs : list Doc) : list string :=
  filter (λ k, JS.inherited k = false) (location_of <$> docs).

(** The distinct names of a list, in the order of their first occurrence. *)
Fixpoint first_seen (l : list string) : list string :=
  match l with
  | [] => []
  | x :: l' => x :: filter (λ y, y ≠ x) (first_seen l')
  end.

(** Number of documents whose location, after defaulting, is [k]. *)
Definition located (k : string) (docs : list Doc) : nat :=
  length (filter (λ d, location_of d = k) docs).

(** An entry after [docs] went through a loop whose counter step is [bump]. *)
Definition bumped (bump : Counts.t → Counts.t) (docs : list Doc)
    (kv : string * Counts.t) : string * Counts.t :=
  (kv.1, Nat.iter (located kv.1 docs) bump kv.2).

Definition index_names (names : list string) : list (N * string) :=
  omap (λ k, n ← JS.array_index k; Some (n, k)) names.

(** The order in which [Object.entries] lists properties created in the
    order [names]: array indices by ascending value, then the other names
    as created. *)
Definition enumeration_order (names : list string) : list string :=
  (snd <$> JS.Array_sort (λ a b, Z.of_N a.1 - Z.of_N b.1) (index_names names))
  ++ filter (λ k, JS.array_index k = None) names.

(** Numeric value of a property name that is an array index. *)
Definition index_value (k : string) : Z := Z.of_N (default 0%N (JS.array_index k)).

(** The regions of the chart: locations of athletes, then of events, that
    become properties, each once, in the order of first appearance. *)
Definition regions (athletes events : list Doc) : list string :=
  first_seen (own_locations (athletes ++ events)).

Definition region_counts (athletes events : list Doc) (k : string) : Counts.t :=
  Counts.mk (Z.of_nat (located k athletes)) (Z.of_nat (located k events)).

Definition region_entry (athletes events : list Doc) (k : string) : RegionalData.t :=
  RegionalData.mk k (Z.of_nat (located k athletes)) (Z.of_nat (located k events)).

(** All regions ranked: the entries in enumeration order, sorted stably by
    descending number of athletes. *)
Definition ranking (athletes events : list Doc) : list RegionalData.t :=
  JS.Array_sort by_athletes_desc
    (region_entry athletes events <$> enumeration_order (regions athletes events)).

Definition located_at (loc : string) : Doc := athlete (Some loc) None None.

(** The six month names of the window, oldest first. *)
Definition window_months (getMonth : Z → Z) (now : Z) : list string :=
  (λ i, monthKey ((getMonth now - i) `mod` 12)) <$> [5; 4; 3; 2; 1; 0].

(** Number of documents created in a month named [k]. *)
Definition in_month (getMonth : Z → Z) (k : string) (docs : list Doc) : nat :=
  length (filter (λ d, monthKey ∘ getMonth <$> createdAt d = Some k) docs).

Definition Zsum (l : list Z) : Z := foldr Z.add 0 l.

Definition month_counts (getMonth : Z → Z) (athletes events : list Doc) (k : string) : Counts.t :=
  Counts.mk (Z.of_nat (in_month getMonth k athletes))
    (Z.of_nat (in_month getMonth k events)).

(** Number of documents that hang under the program [programId]. *)
Definition documents_under (programId : string) (docs : list Doc) : Z :=
  Z.of_nat (length (filter (λ d, doc_parent d = Some programId) docs)).

(** The queries of [fetchDashboardStats]. *)
Definition upcoming_events_query (now : Z) : Query :=
  query (collection "events") [where_ "startDate" OpGe (VTime now)].
Definition all_events_query : Query := query (collection "events") [].
Definition recent_registrations_query {tz : TimeZone} (now : Z) : Query :=
  query (collection "users") [where_ "createdAt" OpGe (VTime (subDays now 7))].
Definition training_programs_query : Query :=
  query (collection "programs") [where_ "type" OpEq (VStr "training")].
Definition registered_after_query (now : Z) : Query :=
  query (collection "users")
    [where_ "createdAt" OpGt (VTime (now - 7 * 24 * 60 * 60 * 1000))].

(** The fields of a [DashboardStats] that come from the first batch of
    counts, each 0 when its query rejects. *)
Definition first_batch_of (db : Firestore) (stats : DashboardStats.t) : Prop :=
  DashboardStats.totalUsers stats = default 0 (count db all_users_query)
  ∧ DashboardStats.activePrograms stats
    = default 0 (count db (query (collection "programs")
                             [where_ "status" OpEq (VStr "active")]))
  ∧ DashboardStats.totalCertificates stats
    = default 0 (count db (query (collection "certificates") []))
  ∧ DashboardStats.totalAdmissions stats
    = default 0 (count db (query (collection "admissionApplications") []))
  ∧ DashboardStats.totalBlogPosts stats
    = default 0 (count db (query (collection "blogPosts") []))
  ∧ DashboardStats.totalAthletes stats
    = default 0 (count db (query (collection "athletes") []))
  ∧ DashboardStats.scoutedAthletes stats
    = default 0 (count db (query (collection "athletes")
                             [where_ "status" OpEq (VStr "scouted")])).

(** The four fields computed after the first batch are reported as 0. *)
Definition second_batch_blank (stats : DashboardStats.t) : Prop :=
  DashboardStats.upcomingEvents stats = 0
  ∧ DashboardStats.tasksCompleted stats = 0
  ∧ DashboardStats.activeTrainingPrograms stats = 0
  ∧ DashboardStats.recentRegistrations stats = 0.

(** Listener numbers from [nextListener] on are not in use. *)
Definition fresh_listeners (rt : Runtime) : Prop :=
  ∀ l, (nextListener rt ≤ l)%nat → listeners rt !! l = None.

(** The sum [sessions.reduce((sum, session) => sum + (session.duration || 0), 0)]. *)
Definition totalDuration_of (sessions : list Doc) : Z :=
  foldl (λ sum session, sum + duration_of session) 0 sessions.

Definition sessions_query {tz : TimeZone} (now : Z) : Query :=
  query (collection "sessions")
    [where_ "endTime" OpGe (VTime (subDays now 30)); orderBy "endTime" "desc"].

Definition session_lasting (seconds : option Z) : Doc :=
  {| doc_id := ""; doc_parent := None; location := None; level := None;
     createdAt := None; duration := seconds; doc_name := None;
     doc_status := None; startDate := NoField; endDate := NoField |}.

(** A store that answers the three reads of the program metrics. *)
Definition db_programs (programs enrollments completions : list Doc) : Firestore :=
  {| getCountFromServer := λ _, Some 0%nat;
     getDocs := λ q,
       match source q with
       | collection _ => Some programs
       | collectionGroup name =>
           if decide (name = "enrollments") then Some enrollments else Some completions
       end |}.

Definition under_program (programId : string) : Doc :=
  {| doc_id := ""; doc_parent := Some programId; location := None; level := None;
     createdAt := None; duration := None; doc_name := None;
     doc_status := None; startDate := NoField; endDate := NoField |}.

(** The dates of the program are absent or stored as [Timestamp]s. *)
Definition dates_convert (d : Doc) : Prop :=
  startDate d ≠ NotTimestamp ∧ endDate d ≠ NotTimestamp.

(** A program as [createProgram] stores it: its dates are strings. *)
Definition a_created_program : Doc :=
  {| doc_id := "p2"; doc_parent := None; location := None; level := None;
     createdAt := Some 5; duration := None; doc_name := Some "Camp";
     doc_status := Some "active"; startDate := NotTimestamp;
     endDate := NotTimestamp |}.

(** A store whose count of completed tasks rejects; every other count
    finds 4 documents. *)
Definition db_without_completed : Firestore :=
  {| getCountFromServer := λ q,
       if decide (q = completed_tasks_query) then None else Some 4%nat;
     getDocs := λ _, Some [] |}.

(** The count queries one call of [getAnalyticsData] issues. *)
Definition analytics_day_queries {tz : TimeZone} (date : Z) : list Query :=
  [ users_created_until (endOfDay date);
    users_created_between (startOfDay date) (endOfDay date);
    tasks_completed_between (startOfDay date) (endOfDay date);
    tasks_due_between (startOfDay date) (endOfDay date);
    tasks_due_before (startOfDay date) ].

Definition analytics_queries {tz : TimeZone} (now : Z) : list Query :=
  [ query (collection "users") [];
    query (collection "users")
      [where_ "lastActiveAt" OpGe (VTime (subDays now 30));
       where_ "status" OpEq (VStr "active")];
    query (collection "programs") [];
    query (collection "programs") [where_ "status" OpEq (VStr "active")];
    query (collection "events") [];
    query (collection "events") [where_ "startDate" OpGe (VTime now)];
    query (collection "tasks") [];
    query (collection "tasks") [where_ "status" OpEq (VStr "completed")] ]
  ++ getDaysArray (subDays now 29) now ≫= analytics_day_queries.

(** A store in which exactly the count [q] rejects. *)
Definition db_rejecting (q : Query) : Firestore :=
  {| getCountFromServer := λ q', if decide (q' = q) then None else Some 1%nat;
     getDocs := λ _, Some [] |}.

(** The double operations of the services as the binary64 operations of the
    standard library's specification compute them. *)
Definition binary64_of (k : Z) : SpecFloat.spec_float :=
  SpecFloat.binary_normalize 53 1024 k 0 false.
Definition binary64_tenth : SpecFloat.spec_float :=
  SpecFloat.S754_finite false 3602879701896397 (-55).
Definition binary64_quotient (x d : Z) : SpecFloat.spec_float :=
  SpecFloat.SFdiv 53 1024 (binary64_of x) (binary64_of d).

(** The samples that [seedSampleData] holds for a collection. *)
Definition samples_for (now : Z) (name : string) : list SeedDoc :=
  if decide (name = "programs") then samplePrograms now
  else if decide (name = "events") then sampleEvents now
  else if decide (name = "tasks") then sampleTasks now
  else if decide (name = "blogPosts") then sampleBlogPosts now
  else [].

Definition never : string → bool := λ _, false.
Definition never_write : string → SeedDoc → bool := λ _ _, false.

(** The guarded loops for the collections [names], one after the other;
    [snapshots] is the store the snapshots were read from. *)
Fixpoint seed_each (now : Z) (rejects_write : string → SeedDoc → bool)
    (snapshots : Collections) (names : list string) : Seeding unit :=
  match names with
  | [] => seeding_ret ()
  | name :: names =>
      seed_if_empty rejects_write (docs_of snapshots name) name (samples_for now name) ;;ˢ
      seed_each now rejects_write snapshots names
  end.

Definition seeded_collections : list string :=
  ["programs"; "events"; "tasks"; "blogPosts"].

(** * Properties *)

(** ** Level distribution *)

Lemma count_level_lookup (o : JS.counters) d k n :
  o !! k = Some (JS.Num n) →
  count_level o d !! k
  = Some (JS.Num (n + if decide (level_of d = k) then 1 else 0)).
Proof.
  intros Hk. unfold count_level, JS.is_defined, JS.increment.
  destruct (decide (level_of d = k)) as [->|Hne].
  - rewrite Hk. rewrite bool_decide_eq_true_2 by eauto. simpl.
    by rewrite lookup_insert_eq.
  - rewrite Z.add_0_r.
    destruct (bool_decide _ || _); [|done].
    destruct (o !! level_of d) eqn:E.
    + by rewrite lookup_insert_ne.
    + case_decide; [done|]. by rewrite lookup_insert_ne.
Qed.

Lemma foldl_count_level_lookup docs : ∀ (o : JS.counters) k n,
  o !! k = Some (JS.Num n) →
  foldl count_level o docs !! k = Some (JS.Num (n + with_level k docs)).
Proof.
  unfold with_level.
  induction docs as [|d docs IH]; intros o k n Hk; simpl.
  - by rewrite Z.add_0_r.
  - erewrite IH by (by apply count_level_lookup).
    rewrite filter_cons. do 2 f_equal.
    case_decide; simpl; lia.
Qed.

Lemma with_level_sum docs :
  with_level "Grassroots" docs + with_level "Semi-Pro" docs
    + with_level "Professional" docs
  = Z.of_nat (length (filter recognised docs)).
Proof.
  unfold with_level, recognised.
  induction docs as [|d docs IH]; [done|].
  rewrite !filter_cons.
  repeat case_decide; simpl; try lia;
    repeat match goal with
           | H : _ ∈ _ |- _ => apply elem_of_cons in H as [H|H]
           | H : _ ∈ [] |- _ => by apply elem_of_nil in H
           | H : ¬ _ ∈ _ |- _ => exfalso; apply H; set_solver
           end; congruence.
Qed.

(** C1, as stated, fails on the scenario of the specification: the two
    athletes whose level is "Pro" are counted in no bucket, so the
    Professional bucket holds 0 and the three values add up to 3, not 5. *)
Lemma fetchLevelData_scenario_not_as_claimed :
  LevelData.value <$> fetchLevelData (Some five_athletes)
    ≠ [JS.Num 2; JS.Num 1; JS.Num 2]
  ∧ with_level "Grassroots" five_athletes + with_level "Semi-Pro" five_athletes
      + with_level "Professional" five_athletes ≠ Z.of_nat (length five_athletes).
Proof. split; vm_compute; discriminate. Qed.

(** C1, amended: [fetchLevelData] returns exactly the three entries
    Grassroots, Semi-Pro and Professional; each value is the number of
    athletes whose level (Grassroots when missing or empty) is that name;
    the values add up to the number of athletes with one of the three
    levels, hence to at most the number of athletes; an athlete with any
    other level is counted nowhere.  On the scenario the result is
    Grassroots 2, Semi-Pro 1, Professional 0. *)
Theorem fetchLevelData_buckets :
  (∀ athletes : list Doc,
     fetchLevelData (Some athletes)
     = [ LevelData.mk "Grassroots" (JS.Num (with_level "Grassroots" athletes)) "#8884d8";
         LevelData.mk "Semi-Pro" (JS.Num (with_level "Semi-Pro" athletes)) "#82ca9d";
         LevelData.mk "Professional"
           (JS.Num (with_level "Professional" athletes)) "#ffc658" ]
     ∧ with_level "Grassroots" athletes + with_level "Semi-Pro" athletes
         + with_level "Professional" athletes
       = Z.of_nat (length (filter recognised athletes))
     ∧ (length (filter recognised athletes) ≤ length athletes)%nat)
  ∧ (∀ d, level d = None ∨ level d = Some "" → level_of d = "Grassroots")
  ∧ LevelData.value <$> fetchLevelData (Some five_athletes)
    = [JS.Num 2; JS.Num 1; JS.Num 0].
Proof.
  split; [|split].
  - intros athletes. split; [|split].
    + unfold fetchLevelData, JS.get.
      by rewrite !(foldl_count_level_lookup athletes levelCounts0 _ 0).
    + apply with_level_sum.
    + apply length_filter.
  - intros d [H|H]; unfold level_of; by rewrite H.
  - by vm_compute.
Qed.

(** ** Percentages *)

(** The arithmetic on doubles agrees with the IEEE 754 specification on
    sample counts, among them quotients that fall on an exact half. *)
Example doubles_agree_with_binary64 :
  forallb (λ '(n, d),
             same_number (JS.multiply (JS.divide (JS.int n) (JS.int d)) (JS.int 100))
               (binary64_ratio_times_100 n d))
    [ (0, 7); (1, 3); (2, 3); (23, 40); (29, 200); (57, 200); (5, 5); (7, 2);
      (1, 9007199254740991); (9007199254740991, 3); (123456789, 987654321);
      (4167464433423897, 4457181212218072) ]
  = true.
Proof. by vm_compute. Qed.

Example percentage_samples :
  (percentage 1 3, percentage 2 3, percentage 23 40, percentage 29 200,
   percentage 1 8, percentage 3 8, percentage 5 5, percentage 0 9, percentage 4 0)
  = (33, 67, 57, 14, 13, 38, 100, 0, 0).
Proof. by vm_compute. Qed.

Lemma div_half_even_spec num den :
  0 < den → 0 ≤ num →
  let m := JS.div_half_even num den in
  0 ≤ m ∧ - den ≤ 2 * (m * den - num) ≤ den.
Proof.
  intros Hden Hnum. unfold JS.div_half_even. simpl.
  pose proof (Z.div_mod num den ltac:(lia)) as Hdm.
  pose proof (Z.mod_pos_bound num den Hden) as Hr.
  pose proof (Z.div_pos num den Hnum Hden) as Hq.
  repeat match goal with
         | |- context [?a <? ?b] => destruct (Z.ltb_spec a b)
         | |- context [Z.even ?a] => destruct (Z.even a)
         end; nia.
Qed.

Lemma div_half_even_le num den K :
  0 < den → 0 ≤ num → num ≤ K * den → JS.div_half_even num den ≤ K.
Proof.
  intros Hden Hnum HK. unfold JS.div_half_even.
  pose proof (Z.div_mod num den ltac:(lia)) as Hdm.
  pose proof (Z.mod_pos_bound num den Hden) as Hr.
  assert (num / den ≤ K) by (apply Z.div_le_upper_bound; lia).
  assert (num / den = K → num `mod` den = 0) by nia.
  repeat match goal with
         | |- context [?a <? ?b] => destruct (Z.ltb_spec a b)
         | |- context [Z.even ?a] => destruct (Z.even a)
         end; lia.
Qed.

Lemma div_half_even_ge num den K :
  0 < den → 0 ≤ num → K * den ≤ num → K ≤ JS.div_half_even num den.
Proof.
  intros Hden Hnum HK. unfold JS.div_half_even.
  assert (K ≤ num / den) by (apply Z.div_le_lower_bound; lia).
  repeat match goal with
         | |- context [?a <? ?b] => destruct (Z.ltb_spec a b)
         | |- context [Z.even ?a] => destruct (Z.even a)
         end; lia.
Qed.

Lemma pow2_pos t : 0 < 2 ^ Z.max 0 t.
Proof. apply Z.pow_pos_nonneg; lia. Qed.

(** [2 ^ JS.binade p q <= p / q < 2 ^ (JS.binade p q + 1)], cross-multiplied. *)
Lemma binade_spec p q :
  0 < p → 0 < q →
  let l := JS.binade p q in
  q * 2 ^ Z.max 0 l ≤ p * 2 ^ Z.max 0 (- l) < 2 * q * 2 ^ Z.max 0 l.
Proof.
  intros Hp Hq. unfold JS.binade.
  destruct (Z.log2_spec p Hp) as [Hp1 Hp2].
  destruct (Z.log2_spec q Hq) as [Hq1 Hq2].
  pose proof (Z.log2_nonneg p). pose proof (Z.log2_nonneg q).
  set (a := Z.log2 p) in *. set (b := Z.log2 q) in *.
  rewrite <- Z.add_1_r in Hp2, Hq2.
  rewrite Z.pow_add_r in Hp2, Hq2 by lia. change (2 ^ 1) with 2 in *.
  destruct (Z.leb_spec (q * 2 ^ Z.max 0 (a - b)) (p * 2 ^ Z.max 0 (- (a - b))))
    as [Ht|Ht]; simpl.
  - split; [done|].
    destruct (Z.le_ge_cases 0 (a - b)).
    + rewrite (Z.max_r 0 (a - b)), (Z.max_l 0 (- (a - b))) by lia.
      replace a with (b + (a - b)) in Hp2 by lia.
      rewrite Z.pow_add_r in Hp2 by lia.
      pose proof (Z.pow_pos_nonneg 2 (a - b) ltac:(lia) ltac:(lia)). nia.
    + rewrite (Z.max_l 0 (a - b)), (Z.max_r 0 (- (a - b))) by lia.
      replace b with (a + - (a - b)) in Hq1 by lia.
      rewrite Z.pow_add_r in Hq1 by lia.
      pose proof (Z.pow_pos_nonneg 2 (- (a - b)) ltac:(lia) ltac:(lia)). nia.
  - destruct (Z.le_gt_cases 1 (a - b)).
    + rewrite (Z.max_r 0 (a - b)), (Z.max_l 0 (- (a - b))) in Ht by lia.
      rewrite (Z.max_r 0 (a - b - 1)), (Z.max_l 0 (- (a - b - 1))) by lia.
      replace (a - b) with (a - b - 1 + 1) in Ht by lia.
      rewrite Z.pow_add_r in Ht by lia. change (2 ^ 1) with 2 in *.
      replace a with (b + 1 + (a - b - 1)) in Hp1 by lia.
      rewrite !Z.pow_add_r in Hp1 by lia. change (2 ^ 1) with 2 in *.
      pose proof (Z.pow_pos_nonneg 2 (a - b - 1) ltac:(lia) ltac:(lia)).
      rewrite Z.pow_0_r, Z.mul_1_r in *.
      generalize dependent (2 ^ (a - b - 1)). generalize dependent (2 ^ b).
      intros; nia.
    + rewrite (Z.max_l 0 (a - b)), (Z.max_r 0 (- (a - b))) in Ht by lia.
      rewrite (Z.max_l 0 (a - b - 1)), (Z.max_r 0 (- (a - b - 1))) by lia.
      replace (- (a - b - 1)) with (- (a - b) + 1) by lia.
      rewrite Z.pow_add_r by lia. change (2 ^ 1) with 2 in *.
      replace b with (a + - (a - b)) in Hq2 by lia.
      rewrite Z.pow_add_r in Hq2 by lia.
      pose proof (Z.pow_pos_nonneg 2 (- (a - b)) ltac:(lia) ltac:(lia)).
      rewrite ?Z.pow_0_r, ?Z.mul_1_r in *.
      generalize dependent (2 ^ (- (a - b))). generalize dependent (2 ^ a).
      intros; nia.
Qed.

Lemma nearest_double_small p q K :
  0 < p → 0 < q → p ≤ K * q → K < 2 ^ 52 →
  ∃ m k, JS.nearest_double p q = (m, - k)
         ∧ 0 < k
         ∧ 2 ^ 52 ≤ m ≤ K * 2 ^ k
         ∧ - q ≤ 2 * (m * q - p * 2 ^ k) ≤ q.
Proof.
  intros Hp Hq HK HK52. unfold JS.nearest_double.
  pose proof (binade_spec p q Hp Hq) as Hl. simpl in Hl.
  set (l := JS.binade p q) in *.
  assert (l < 52) as Hl52.
  { destruct (Z.lt_ge_cases l 52) as [|Hge]; [done|]. exfalso.
    rewrite (Z.max_r 0 l), (Z.max_l 0 (- l)), Z.pow_0_r in Hl by lia.
    pose proof (Z.pow_le_mono_r 2 52 l ltac:(lia) Hge). nia. }
  exists (JS.div_half_even (p * 2 ^ Z.max 0 (- (l - 52))) (q * 2 ^ Z.max 0 (l - 52))),
    (52 - l).
  rewrite (Z.max_r 0 (- (l - 52))), (Z.max_l 0 (l - 52)), Z.pow_0_r, Z.mul_1_r by lia.
  replace (- (l - 52)) with (52 - l) by lia.
  assert (0 < 2 ^ (52 - l)) as Hpow by (apply Z.pow_pos_nonneg; lia).
  assert (2 ^ 52 * q ≤ p * 2 ^ (52 - l)) as Hnum.
  { destruct (Z.le_gt_cases 0 l).
    - rewrite (Z.max_r 0 l), (Z.max_l 0 (- l)), Z.pow_0_r in Hl by lia.
      replace 52 with (l + (52 - l)) at 1 by lia.
      rewrite Z.pow_add_r by lia. nia.
    - rewrite (Z.max_l 0 l), (Z.max_r 0 (- l)), Z.pow_0_r in Hl by lia.
      replace (52 - l) with (- l + 52) by lia.
      rewrite Z.pow_add_r by lia. nia. }
  split; [f_equal; lia|]. split; [lia|]. split; [split|].
  - apply div_half_even_ge; nia.
  - apply div_half_even_le; nia.
  - apply div_half_even_spec; nia.
Qed.

Lemma Math_round_spec m k :
  0 < k →
  let r := JS.Math_round (m, - k) in
  2 * 2 ^ k * r ≤ 2 * m + 2 ^ k < 2 * 2 ^ k * (r + 1).
Proof.
  intros Hk. unfold JS.Math_round.
  destruct (Z.leb_spec 0 (- k)); [lia|].
  rewrite Z.opp_involutive. simpl.
  assert (0 < 2 ^ k) by (apply Z.pow_pos_nonneg; lia).
  pose proof (Z.div_mod (2 * m + 2 ^ k) (2 * 2 ^ k) ltac:(lia)).
  pose proof (Z.mod_pos_bound (2 * m + 2 ^ k) (2 * 2 ^ k) ltac:(lia)).
  nia.
Qed.

(** The double [(n / d) * 100] for counts [0 < n <= d]. *)
Lemma ratio_times_100 n d :
  0 < n ≤ d →
  ∃ m1 k1 m2 k2,
    JS.multiply (JS.divide (JS.int n) (JS.int d)) (JS.int 100) = (m2, - k2)
    ∧ 0 < k1 ∧ 0 < k2
    ∧ 2 ^ 52 ≤ m1 ≤ 2 ^ k1
    ∧ - d ≤ 2 * (m1 * d - n * 2 ^ k1) ≤ d
    ∧ 2 ^ 52 ≤ m2 ≤ 100 * 2 ^ k2
    ∧ - 2 ^ k1 ≤ 2 * (m2 * 2 ^ k1 - m1 * 100 * 2 ^ k2) ≤ 2 ^ k1.
Proof.
  intros Hnd.
  destruct (nearest_double_small n d 1 ltac:(lia) ltac:(lia) ltac:(lia) ltac:(lia))
    as (m1 & k1 & E1 & Hk1 & Hm1 & Hr1).
  assert (0 < 2 ^ k1) as HD by (apply Z.pow_pos_nonneg; lia).
  destruct (nearest_double_small (m1 * 100) (2 ^ k1) 100
              ltac:(lia) HD ltac:(lia) ltac:(lia))
    as (m2 & k2 & E2 & Hk2 & Hm2 & Hr2).
  exists m1, k1, m2, k2.
  split; [|by repeat split; try lia].
  unfold JS.divide, JS.int, JS.round_ratio. simpl fst. simpl snd.
  rewrite Z.sub_diag, Z.max_id, Z.pow_0_r, !Z.mul_1_r.
  destruct (Z.eqb_spec d 0); [lia|]. destruct (Z.ltb_spec d 0); [lia|].
  destruct (Z.eqb_spec n 0); [lia|]. destruct (Z.ltb_spec n 0); [lia|].
  rewrite E1. unfold JS.multiply, JS.round_ratio. simpl fst. simpl snd.
  rewrite Z.add_0_r, (Z.max_l 0 (- k1)), Z.pow_0_r, Z.mul_1_r by lia.
  rewrite Z.opp_involutive, (Z.max_r 0 k1) by lia.
  destruct (Z.eqb_spec (2 ^ k1) 0); [lia|]. destruct (Z.ltb_spec (2 ^ k1) 0); [lia|].
  destruct (Z.eqb_spec (m1 * 100) 0); [lia|].
  destruct (Z.ltb_spec (m1 * 100) 0); [lia|]. done.
Qed.

Lemma ratio_percent_zero d : ratio_percent 0 d = 0.
Proof.
  unfold ratio_percent, JS.divide, JS.multiply, JS.int, JS.round_ratio. simpl fst. simpl snd.
  rewrite Z.mul_0_l.
  destruct (d * _ =? 0); [done|]. by destruct (d * _ <? 0).
Qed.

Lemma ratio_percent_range n d : 0 ≤ n ≤ d → 0 < d → 0 ≤ ratio_percent n d ≤ 100.
Proof.
  intros Hnd Hd. destruct (Z.eq_dec n 0) as [->|Hn]; [by rewrite ratio_percent_zero|].
  destruct (ratio_times_100 n d ltac:(lia))
    as (m1 & k1 & m2 & k2 & E & Hk1 & Hk2 & Hm1 & Hr1 & Hm2 & Hr2).
  unfold ratio_percent. rewrite E.
  pose proof (Math_round_spec m2 k2 Hk2) as Hr. cbv zeta in Hr.
  assert (0 < 2 ^ k2) as HG by (apply Z.pow_pos_nonneg; lia).
  set (r := JS.Math_round (m2, - k2)) in *. set (G := 2 ^ k2) in *.
  assert (0 < 2 ^ 52) by done.
  split.
  - assert (0 < G * (r + 1)) as Hpos by lia.
    apply Z.mul_pos_cancel_l in Hpos; lia.
  - assert (G * (2 * r) ≤ G * 201) as Hle by lia.
    apply Z.mul_le_mono_pos_l in Hle; lia.
Qed.

(** Two roundings whose errors together stay below half a unit of [1 / d]
    do not move the rounded value away from the nearest integers of the
    exact quotient [100 * n / d]. *)
Lemma nearest_after_two_roundings n d m1 m2 D G r :
  0 < d → 0 < D → 0 < G →
  - d ≤ 2 * (m1 * d - n * D) ≤ d →
  - D ≤ 2 * (m2 * D - m1 * 100 * G) ≤ D →
  2 * G * r ≤ 2 * m2 + G < 2 * G * (r + 1) →
  d * (D + 100 * G) < D * G →
  - d ≤ 2 * (r * d - 100 * n) ≤ d.
Proof.
  intros Hd HD HG [Ha1 Ha2] [Hb1 Hb2] [Hr1 Hr2] Hsmall.
  set (A := 2 * (m1 * d - n * D)) in *.
  set (B := 2 * (m2 * D - m1 * 100 * G)) in *.
  assert (2 * (m2 * d * D) - 200 * (n * D * G) = d * B + 100 * G * A) as Hid
    by (unfold A, B; ring).
  assert (d * - D ≤ d * B ≤ d * D) as HB
    by (split; apply Z.mul_le_mono_nonneg_l; lia).
  assert (100 * G * - d ≤ 100 * G * A ≤ 100 * G * d) as HA
    by (split; apply Z.mul_le_mono_nonneg_l; lia).
  assert (0 < d * D) as HdD by (by apply Z.mul_pos_pos).
  assert (0 < D * G) as HDG by (by apply Z.mul_pos_pos).
  apply (Z.mul_le_mono_nonneg_r _ _ (d * D)) in Hr1; [|lia].
  apply (Z.mul_lt_mono_pos_r (d * D)) in Hr2; [|lia].
  set (S := 2 * (r * d - 100 * n)).
  assert (2 * G * r * (d * D) = D * G * S + 200 * (n * D * G)) as HS1
    by (unfold S; ring).
  assert (2 * G * (r + 1) * (d * D) = D * G * S + 200 * (n * D * G) + 2 * (D * G) * d)
    as HS2 by (unfold S; ring).
  assert ((2 * m2 + G) * (d * D) = 2 * (m2 * d * D) + D * G * d) as HM by ring.
  rewrite HS1, HM in Hr1. rewrite HS2, HM in Hr2.
  assert (d * (D + 100 * G) = d * D + 100 * G * d) as Hw by ring.
  assert (D * G * S < D * G * (d + 1)) as Hup by lia.
  assert (D * G * (- d - 1) < D * G * S) as Hlo by lia.
  apply Z.mul_lt_mono_pos_l in Hup, Hlo; lia.
Qed.

Lemma ratio_percent_nearest n d :
  0 ≤ n ≤ d → 0 < d ≤ 2 ^ 44 → - d ≤ 2 * (ratio_percent n d * d - 100 * n) ≤ d.
Proof.
  intros Hnd Hd. destruct (Z.eq_dec n 0) as [->|Hn]; [rewrite ratio_percent_zero; lia|].
  destruct (ratio_times_100 n d ltac:(lia))
    as (m1 & k1 & m2 & k2 & E & Hk1 & Hk2 & Hm1 & Hr1 & Hm2 & Hr2).
  unfold ratio_percent. rewrite E.
  pose proof (Math_round_spec m2 k2 Hk2) as Hr. cbv zeta in Hr.
  assert (0 < 2 ^ k1) as HD by (apply Z.pow_pos_nonneg; lia).
  assert (0 < 2 ^ k2) as HG by (apply Z.pow_pos_nonneg; lia).
  apply (nearest_after_two_roundings n d m1 m2 (2 ^ k1) (2 ^ k2)); try done; [lia|].
  (* the two rounding errors together stay below half a unit of 1/d *)
  set (D := 2 ^ k1) in *. set (G := 2 ^ k2) in *.
  change (2 ^ 44) with 17592186044416 in *.
  change (2 ^ 52) with 4503599627370496 in *.
  assert (256 * d * D ≤ 100 * G * D) as H1
    by (apply Z.mul_le_mono_nonneg_r; lia).
  assert (256 * d * (100 * G) ≤ D * (100 * G)) as H2
    by (apply Z.mul_le_mono_nonneg_r; lia).
  assert (0 < D * G) as HDG by (by apply Z.mul_pos_pos).
  lia.
Qed.

Lemma nearest_double_nonneg p q : 0 < p → 0 < q → 0 ≤ (JS.nearest_double p q).1.
Proof.
  intros Hp Hq. unfold JS.nearest_double. simpl.
  pose proof (pow2_pos (- (JS.binade p q - 52))).
  pose proof (pow2_pos (JS.binade p q - 52)).
  apply div_half_even_spec; [by apply Z.mul_pos_pos|].
  apply Z.mul_nonneg_nonneg; lia.
Qed.

Lemma round_ratio_nonneg p q : 0 ≤ p → 0 ≤ q → 0 ≤ (JS.round_ratio p q).1.
Proof.
  intros Hp Hq. unfold JS.round_ratio.
  destruct (Z.eqb_spec q 0); [done|]. destruct (Z.ltb_spec q 0); [lia|].
  destruct (Z.eqb_spec p 0); [done|]. destruct (Z.ltb_spec p 0); [lia|].
  apply nearest_double_nonneg; lia.
Qed.

Lemma Math_round_nonneg x : 0 ≤ x.1 → 0 ≤ JS.Math_round x.
Proof.
  destruct x as [m e]. simpl. intros Hm.
  destruct (Z.leb_spec 0 e).
  - apply Z.mul_nonneg_nonneg; [done|]. by apply Z.pow_nonneg.
  - assert (0 < 2 ^ (- e)) by (apply Z.pow_pos_nonneg; lia).
    apply Z.div_pos; lia.
Qed.

Lemma ratio_percent_nonneg n d : 0 ≤ n → 0 ≤ d → 0 ≤ ratio_percent n d.
Proof.
  intros Hn Hd. unfold ratio_percent, JS.multiply, JS.divide.
  apply Math_round_nonneg, round_ratio_nonneg.
  - apply Z.mul_nonneg_nonneg; [|by apply Z.pow_nonneg].
    apply Z.mul_nonneg_nonneg; [|done].
    apply round_ratio_nonneg; simpl;
      (apply Z.mul_nonneg_nonneg; [done|by apply Z.pow_nonneg]).
  - by apply Z.pow_nonneg.
Qed.

Lemma percentage_range n d : 0 ≤ n ≤ d → 0 ≤ percentage n d ≤ 100.
Proof.
  intros Hnd. unfold percentage. destruct (Z.ltb_spec 0 d); [|lia].
  by apply ratio_percent_range.
Qed.

Lemma percentage_nonneg n d : 0 ≤ n → 0 ≤ percentage n d.
Proof.
  intros Hn. unfold percentage. destruct (Z.ltb_spec 0 d); [|lia].
  apply ratio_percent_nonneg; lia.
Qed.

Lemma count_nonneg db q n : count db q = Some n → 0 ≤ n.
Proof.
  unfold count. destruct (getCountFromServer db q); simpl; [|done].
  intros [= <-]. lia.
Qed.

Lemma catch_zero_total p : ∃ n, catch_ p zero_count = Some n.
Proof. destruct p; simpl; eauto. Qed.

Lemma dashboard_stats_body_contacts {tz : TimeZone} db now a1 a2 a3 a4 a5 a6 a7 a8 contacts stats :
  dashboard_stats_body db now a1 a2 a3 a4 a5 a6 a7 a8 contacts = Some stats →
  DashboardStats.contactSubmissions stats = contacts.
Proof.
  unfold dashboard_stats_body. intros H.
  repeat match type of H with
         | context [mbind _ ?p] => destruct p; simpl in H; [|discriminate]
         end.
  by injection H as <-.
Qed.

(** The statistics object [fetchDashboardStats] builds from the counts of
    its first batch: the outcome of the [try] block, or the partial object
    of its [catch]. *)
Lemma fetchDashboardStats_inv {tz : TimeZone} db now stats :
  fetchDashboardStats db now = Some stats →
  ∃ usersCount programsCount tasksCount certificatesCount admissionsCount
    blogPostsCount athletesCount scoutedAthletesCount contacts,
    catch_ (count db all_tasks_query) zero_count = Some tasksCount
    ∧ contactSubmissionsCount db = Some contacts
    ∧ DashboardStats.contactSubmissions stats = contacts
    ∧ (dashboard_stats_body db now usersCount programsCount tasksCount
         certificatesCount admissionsCount blogPostsCount athletesCount
         scoutedAthletesCount contacts = Some stats
       ∨ DashboardStats.tasksCompleted stats = 0).
Proof.
  unfold fetchDashboardStats. intros H.
  repeat match type of H with
         | context [mbind _ ?p] =>
             let n := fresh "n" in let E := fresh "E" in
             destruct p as [n|] eqn:E; simpl in H; [|discriminate]
         end.
  match type of H with
  | context [dashboard_stats_body ?a1 ?a2 ?a3 ?a4 ?a5 ?a6 ?a7 ?a8 ?a9 ?a10 ?a11] =>
      exists a3, a4, a5, a6, a7, a8, a9, a10, a11;
      destruct (dashboard_stats_body a1 a2 a3 a4 a5 a6 a7 a8 a9 a10 a11) eqn:Eb
  end; injection H as <-; simpl; repeat split; auto.
  by apply dashboard_stats_body_contacts in Eb.
Qed.

Lemma fetchDashboardStats_total {tz : TimeZone} db now :
  ∃ stats, fetchDashboardStats db now = Some stats.
Proof.
  unfold fetchDashboardStats, contactSubmissionsCount.
  repeat match goal with
         | |- context [mbind _ (catch_ ?p zero_count)] =>
             let n := fresh "n" in let E := fresh "E" in
             destruct (catch_zero_total p) as [n E]; rewrite E; simpl
         end.
  destruct (dashboard_stats_body _ _ _ _ _ _ _ _ _ _ _); eauto.
Qed.

Lemma analytics_fields {tz : TimeZone} format db now r :
  getAnalyticsData_fetchData format db now = Some r →
  AnalyticsData.completionRate r
    = percentage (AnalyticsData.completedTasks r) (AnalyticsData.totalTasks r)
  ∧ count db completed_tasks_query = Some (AnalyticsData.completedTasks r)
  ∧ count db all_tasks_query = Some (AnalyticsData.totalTasks r)
  ∧ AnalyticsData.lastUpdated r = now
  ∧ mapM (userGrowth_of_day format db) (getDaysArray (subDays now 29) now)
    = Some (AnalyticsData.userGrowth r)
  ∧ mapM (taskCompletion_of_day format db) (getDaysArray (subDays now 29) now)
    = Some (AnalyticsData.taskCompletion r).
Proof.
  unfold getAnalyticsData_fetchData. intros H.
  fold completed_tasks_query all_tasks_query in H.
  repeat match type of H with
         | context [mbind _ ?p] =>
             let n := fresh "n" in let E := fresh "E" in
             destruct p as [n|] eqn:E; simpl in H; [|discriminate]
         end.
  by injection H as <-.
Qed.

(** ** Contact submissions *)

Lemma contactSubmissionsCount_first_success db :
  contactSubmissionsCount db
  = Some (first_success ((λ c, count db (query (collection c) [])) <$> contact_collections)).
Proof.
  unfold contactSubmissionsCount. simpl.
  by repeat (destruct (count db (query (collection _) [])); simpl; [done|]).
Qed.

Lemma dashboard_contactSubmissions {tz : TimeZone} db now :
  ∃ stats,
    fetchDashboardStats db now = Some stats
    ∧ DashboardStats.contactSubmissions stats
      = first_success ((λ c, count db (query (collection c) [])) <$> contact_collections).
Proof.
  destruct (fetchDashboardStats_total db now) as [stats Hs].
  exists stats. split; [done|].
  apply fetchDashboardStats_inv in Hs
    as (a1 & a2 & a3 & a4 & a5 & a6 & a7 & a8 & contacts & _ & Hc & -> & _).
  rewrite contactSubmissionsCount_first_success in Hc. by injection Hc as <-.
Qed.

(** C7: [fetchDashboardStats] always fulfils, and its [contactSubmissions]
    is the count of the first collection among contactSubmissions, contacts
    and messages (in this order) whose query succeeds, and 0 when all three
    fail; if the first query fails and the second finds 3 documents, the
    reported count is 3. *)
Theorem contactSubmissions_fallback {tz : TimeZone} :
  (3 ≤ length contact_collections)%nat
  ∧ (∀ db now, ∃ stats,
       fetchDashboardStats db now = Some stats
       ∧ DashboardStats.contactSubmissions stats
         = first_success
             ((λ c, count db (query (collection c) [])) <$> contact_collections))
  ∧ (∀ db now,
       count db (query (collection "contactSubmissions") []) = None →
       count db (query (collection "contacts") []) = Some 3 →
       ∃ stats, fetchDashboardStats db now = Some stats
                ∧ DashboardStats.contactSubmissions stats = 3)
  ∧ (∀ db now,
       (∀ c, c ∈ contact_collections → count db (query (collection c) []) = None) →
       ∃ stats, fetchDashboardStats db now = Some stats
                ∧ DashboardStats.contactSubmissions stats = 0).
Proof.
  split; [simpl; lia|]. split; [apply dashboard_contactSubmissions|]. split.
  - intros db now H1 H2.
    destruct (dashboard_contactSubmissions db now) as (stats & Hs & Hc).
    exists stats. split; [done|]. rewrite Hc. simpl. by rewrite H1, H2.
  - intros db now Hall.
    destruct (dashboard_contactSubmissions db now) as (stats & Hs & Hc).
    exists stats. split; [done|]. rewrite Hc. simpl.
    rewrite !Hall; [done|unfold contact_collections; set_solver..].
Qed.

Lemma contactSubmissions_fallback_witness :
  ∃ stats, fetchDashboardStats (tz := utc) db_contacts_fallback 0 = Some stats
           ∧ DashboardStats.contactSubmissions stats = 3.
Proof.
  destruct (contactSubmissions_fallback (tz := utc)) as (_ & _ & Hscenario & _).
  apply (Hscenario db_contacts_fallback 0); reflexivity.
Defined.

(** ** Engagement rates *)

Lemma engagement_fields {tz : TimeZone} db now m :
  getUserEngagementMetrics_fetchData db now = Some m →
  ∃ totalUsers,
    count db all_users_query = Some totalUsers
    ∧ 0 ≤ UserEngagementMetrics.activeLastWeek m
    ∧ 0 ≤ UserEngagementMetrics.activeLastMonth m
    ∧ UserEngagementMetrics.weeklyEngagement m
      = (if 0 <? totalUsers
         then Z.min 100 (percentage (UserEngagementMetrics.activeLastWeek m) totalUsers)
         else 0)
    ∧ UserEngagementMetrics.monthlyEngagement m
      = (if 0 <? totalUsers
         then Z.min 100 (percentage (UserEngagementMetrics.activeLastMonth m) totalUsers)
         else 0)
    ∧ UserEngagementMetrics.lastUpdated m = now.
Proof.
  unfold getUserEngagementMetrics_fetchData. intros H.
  fold all_users_query in H.
  repeat match type of H with
         | context [mbind _ ?p] =>
             let n := fresh "n" in let E := fresh "E" in
             destruct p as [n|] eqn:E; simpl in H; [|discriminate]
         end.
  injection H as <-. simpl.
  eexists. split; [done|].
  split; [by eapply count_nonneg|]. split; [by eapply count_nonneg|].
  unfold percentage, JS.Math_min. by destruct (0 <? _).
Qed.

(** C10: the weekly and monthly engagement rates returned by
    [getUserEngagementMetrics] are integers between 0 and 100, the minimum
    of 100 and the percentage of active users, however many users were
    active; they are 0 when there is no user. *)
Theorem engagement_rates_bounded {tz : TimeZone} :
  (∀ db now m,
     getUserEngagementMetrics_fetchData db now = Some m →
     0 ≤ UserEngagementMetrics.weeklyEngagement m ≤ 100
     ∧ 0 ≤ UserEngagementMetrics.monthlyEngagement m ≤ 100)
  ∧ (∀ db now m,
       getUserEngagementMetrics_fetchData db now = Some m →
       count db all_users_query = Some 0 →
       UserEngagementMetrics.weeklyEngagement m = 0
       ∧ UserEngagementMetrics.monthlyEngagement m = 0)
  ∧ (∀ db now m totalUsers,
       getUserEngagementMetrics_fetchData db now = Some m →
       count db all_users_query = Some totalUsers →
       0 < totalUsers →
       UserEngagementMetrics.weeklyEngagement m
       = Z.min 100 (percentage (UserEngagementMetrics.activeLastWeek m) totalUsers)
       ∧ UserEngagementMetrics.monthlyEngagement m
         = Z.min 100 (percentage (UserEngagementMetrics.activeLastMonth m) totalUsers)).
Proof.
  split; [|split].
  - intros db now m H.
    apply engagement_fields in H as (t & _ & Hw & Hm & -> & -> & _).
    pose proof (percentage_nonneg _ t Hw). pose proof (percentage_nonneg _ t Hm).
    destruct (0 <? t); lia.
  - intros db now m H Ht.
    apply engagement_fields in H as (t & Ht' & _ & _ & -> & -> & _).
    rewrite Ht in Ht'. by injection Ht' as <-.
  - intros db now m t H Ht Hpos.
    apply engagement_fields in H as (t' & Ht' & _ & _ & -> & -> & _).
    rewrite Ht in Ht'. injection Ht' as <-.
    by rewrite (proj2 (Z.ltb_lt 0 t) Hpos).
Qed.

Lemma engagement_rates_bounded_witness :
  ∃ m, getUserEngagementMetrics_fetchData (tz := utc) (db_users 2 5) 0 = Some m
       ∧ 0 ≤ UserEngagementMetrics.weeklyEngagement m ≤ 100
       ∧ UserEngagementMetrics.weeklyEngagement m = 100.
Proof.
  destruct (engagement_rates_bounded (tz := utc)) as (Hrange & _ & Hclamp).
  destruct (getUserEngagementMetrics_fetchData (tz := utc) (db_users 2 5) 0) as [m|] eqn:E;
    [|vm_compute in E; discriminate].
  exists m. split; [reflexivity|]. split.
  - by apply (Hrange (db_users 2 5) 0).
  - destruct (Hclamp (db_users 2 5) 0 m 2 E) as [-> _]; [reflexivity|lia|].
    assert (UserEngagementMetrics.activeLastWeek m = 5) as ->
      by (vm_compute in E; by injection E as <-).
    by vm_compute.
Defined.

(** ** Computation timestamps *)

Lemma fetchDashboardStats_empty_store {tz : TimeZone} now :
  fetchDashboardStats (db_constant 0 []) now = Some no_stats.
Proof. reflexivity. Qed.

Lemma no_clock_in_DashboardStats {tz : TimeZone} :
  ¬ ∃ computedAt : DashboardStats.t → Z,
      ∀ db now stats, fetchDashboardStats db now = Some stats → computedAt stats = now.
Proof.
  intros [computedAt H].
  pose proof (H _ 0 _ (fetchDashboardStats_empty_store 0)) as H0.
  pose proof (H _ 1 _ (fetchDashboardStats_empty_store 1)) as H1.
  congruence.
Qed.

(** C2, as stated, fails for [fetchDashboardStats]: on the empty store it
    returns the same object at instants 0 and 1, so nothing in a
    [DashboardStats] tells when it was computed. *)
Lemma DashboardStats_carries_no_timestamp :
  fetchDashboardStats (tz := utc) (db_constant 0 []) 0
  = fetchDashboardStats (tz := utc) (db_constant 0 []) 1
  ∧ ¬ ∃ computedAt : DashboardStats.t → Z,
        ∀ db now stats,
          fetchDashboardStats (tz := utc) db now = Some stats → computedAt stats = now.
Proof. split; [reflexivity | apply (no_clock_in_DashboardStats (tz := utc))]. Qed.

Lemma program_performance_inv enrollmentsByProgram completionsByProgram now d p :
  program_performance enrollmentsByProgram completionsByProgram now d = Some p →
  ∃ startDate' endDate',
    toDate_or_now now (startDate d) = Some startDate'
    ∧ toDate_or_now now (endDate d) = Some endDate'
    ∧ p = {| ProgramPerformance.id := doc_id d;
             ProgramPerformance.name := JS.or_default (doc_name d) "Unnamed Program";
             ProgramPerformance.status := JS.or_default (doc_status d) "draft";
             ProgramPerformance.startDate := startDate';
             ProgramPerformance.endDate := endDate';
             ProgramPerformance.enrollments :=
               default 0 (enrollmentsByProgram !! doc_id d);
             ProgramPerformance.completions :=
               default 0 (completionsByProgram !! doc_id d);
             ProgramPerformance.completionRate :=
               percentage (default 0 (completionsByProgram !! doc_id d))
                 (default 0 (enrollmentsByProgram !! doc_id d));
             ProgramPerformance.rating := 0;
             ProgramPerformance.lastUpdated := now |}.
Proof.
  unfold program_performance. intros H.
  destruct (toDate_or_now now (startDate d)) as [s|]; simpl in H; [|discriminate].
  destruct (toDate_or_now now (endDate d)) as [e|]; simpl in H; [|discriminate].
  exists s, e. by injection H as <-.
Qed.

Lemma program_performance_lastUpdated db now ps :
  getProgramPerformanceMetrics_fetchData db now = Some ps →
  Forall (λ p, ProgramPerformance.lastUpdated p = now) ps.
Proof.
  unfold getProgramPerformanceMetrics_fetchData. intros H.
  repeat match type of H with
         | context [mbind _ (getDocs ?db ?q)] =>
             destruct (getDocs db q); simpl in H; [|discriminate]
         end.
  apply mapM_Some_1 in H. apply Forall_forall. intros p Hp.
  apply list_elem_of_lookup in Hp as [i Hi].
  destruct (Forall2_lookup_r _ _ _ _ _ H Hi) as (d & _ & Hd).
  by apply program_performance_inv in Hd as (? & ? & _ & _ & ->).
Qed.

(** C2, amended: the [AnalyticsData] of [getAnalyticsData], the
    [UserEngagementMetrics] and every [ProgramPerformance] record carry
    [lastUpdated], set to the instant of the computation whatever the
    documents of the store hold; a [DashboardStats] carries no timestamp. *)
Theorem snapshots_lastUpdated {tz : TimeZone} :
  (∀ format db now r,
     getAnalyticsData_fetchData format db now = Some r →
     AnalyticsData.lastUpdated r = now)
  ∧ (∀ db now m,
       getUserEngagementMetrics_fetchData db now = Some m →
       UserEngagementMetrics.lastUpdated m = now)
  ∧ (∀ db now ps,
       getProgramPerformanceMetrics_fetchData db now = Some ps →
       Forall (λ p, ProgramPerformance.lastUpdated p = now) ps)
  ∧ ¬ (∃ computedAt : DashboardStats.t → Z,
         ∀ db now stats,
           fetchDashboardStats db now = Some stats → computedAt stats = now).
Proof.
  split; [|split; [|split]].
  - intros format db now r H. by apply analytics_fields in H as (_&_&_&?&_).
  - intros db now m H. by apply engagement_fields in H as (?&_&_&_&_&_&?).
  - apply program_performance_lastUpdated.
  - apply no_clock_in_DashboardStats.
Qed.

Lemma snapshots_lastUpdated_witness :
  (∃ r, getAnalyticsData_fetchData (tz := utc) (λ _, "") (db_constant 1 []) 1000
        = Some r
        ∧ AnalyticsData.lastUpdated r = 1000)
  ∧ (∃ m, getUserEngagementMetrics_fetchData (tz := utc) (db_constant 1 []) 1000
          = Some m
          ∧ UserEngagementMetrics.lastUpdated m = 1000)
  ∧ (∃ ps, getProgramPerformanceMetrics_fetchData (db_constant 1 [a_program]) 1000
           = Some ps
           ∧ Forall (λ p, ProgramPerformance.lastUpdated p = 1000) ps).
Proof.
  destruct (snapshots_lastUpdated (tz := utc)) as (Ha & He & Hp & _).
  split; [|split].
  - pose proof (Ha (λ _, "") (db_constant 1 []) 1000) as H.
    destruct (getAnalyticsData_fetchData (tz := utc) _ _ _) as [r|] eqn:E;
      [|vm_compute in E; discriminate].
    exists r. split; [reflexivity|]. by apply H.
  - eexists. split; [reflexivity|]. by apply (He (db_constant 1 []) 1000).
  - eexists. split; [reflexivity|].
    by apply (Hp (db_constant 1 [a_program]) 1000).
Defined.

(** ** Daily series *)

Lemma setDate_plus_later {tz : TimeZone} dt : dt < setDate_plus dt 1.
Proof. unfold setDate_plus. rewrite Z.mul_1_l. apply next_day_later. Qed.

Lemma day_from_S {tz : TimeZone} start k :
  day_from start (S k) = day_from (setDate_plus start 1) k.
Proof. unfold day_from. by rewrite Nat.iter_succ_r. Qed.

Lemma day_from_later {tz : TimeZone} start k : day_from start k < day_from start (S k).
Proof. apply setDate_plus_later. Qed.

Lemma day_from_mono {tz : TimeZone} start j k :
  (j ≤ k)%nat → day_from start j ≤ day_from start k.
Proof.
  induction 1 as [|k _ IH]; [lia|]. pose proof (day_from_later start k). lia.
Qed.

(** The loop pushes the dates it reaches until one lies after [end_]. *)
Lemma getDaysArray_loop_days {tz : TimeZone} arr dt end_ :
  ∃ n, getDaysArray_loop arr dt end_ = arr ++ (day_from dt <$> seq 0 n)
       ∧ (∀ k, (k < n)%nat → day_from dt k ≤ end_)
       ∧ end_ < day_from dt n.
Proof.
  funelim (getDaysArray_loop arr dt end_).
  - clear Heq Heqcall. destruct H as (n & -> & Hle & Hgt).
    exists (S n). split; [|split].
    + rewrite <- app_assoc. f_equal. simpl. f_equal.
      rewrite <- fmap_S_seq, <- list_fmap_compose. apply list_fmap_ext.
      intros _ k _. symmetry. apply day_from_S.
    + intros [|k] Hk; [done|]. rewrite day_from_S. apply Hle. lia.
    + by rewrite day_from_S.
  - exists 0%nat. simpl. rewrite app_nil_r. split; [done|]. split; [lia|].
    unfold day_from. simpl. lia.
Qed.

Lemma getDaysArray_days_from {tz : TimeZone} start end_ :
  ∃ n, getDaysArray start end_ = day_from start <$> seq 0 n
       ∧ (∀ k, (k < n)%nat → day_from start k ≤ end_)
       ∧ end_ < day_from start n.
Proof. apply (getDaysArray_loop_days []). Qed.

(** *** Where the offset does not change *)

Section steady.
Context {tz : TimeZone} (offset lo hi : Z).
Hypothesis Hsteady : keeps_offset offset lo hi.

Lemma steady_setDate_plus t n :
  lo ≤ t ≤ hi → lo ≤ t + n * MS_PER_DAY ≤ hi →
  setDate_plus t n = t + n * MS_PER_DAY.
Proof.
  intros Ht Ht'. unfold setDate_plus. destruct (Hsteady t Ht) as [-> _].
  replace (t + offset + n * MS_PER_DAY) with (t + n * MS_PER_DAY + offset) by lia.
  by apply Hsteady.
Qed.

Lemma steady_subDays t n :
  lo ≤ t ≤ hi → lo ≤ t - n * MS_PER_DAY ≤ hi → subDays t n = t - n * MS_PER_DAY.
Proof.
  intros Ht Ht'. unfold subDays, addDays. case_decide; [lia|].
  rewrite steady_setDate_plus; lia.
Qed.

Lemma steady_day_from start k :
  lo ≤ start → start + Z.of_nat k * MS_PER_DAY ≤ hi →
  day_from start k = start + Z.of_nat k * MS_PER_DAY.
Proof.
  assert (0 < MS_PER_DAY) as Hday by done.
  intros Hlo. induction k as [|k IH]; intros Hhi; [simpl; lia|].
  change (day_from start (S k)) with (setDate_plus (day_from start k) 1).
  rewrite IH by lia. rewrite steady_setDate_plus; lia.
Qed.

Lemma steady_setHours t time :
  0 ≤ time < MS_PER_DAY →
  lo ≤ t ≤ hi →
  lo ≤ t - (t + offset) `mod` MS_PER_DAY + time ≤ hi →
  setHours t time = t - (t + offset) `mod` MS_PER_DAY + time.
Proof.
  assert (0 < MS_PER_DAY) as Hday by done.
  intros Htime Ht Ht'. unfold setHours. destruct (Hsteady t Ht) as [-> _].
  pose proof (Z.div_mod (t + offset) MS_PER_DAY ltac:(lia)) as Hdm.
  replace ((t + offset) `div` MS_PER_DAY * MS_PER_DAY + time)
    with (t - (t + offset) `mod` MS_PER_DAY + time + offset) by lia.
  by apply Hsteady.
Qed.

Lemma steady_startOfDay t :
  lo + MS_PER_DAY ≤ t ≤ hi → startOfDay t = t - (t + offset) `mod` MS_PER_DAY.
Proof.
  assert (0 < MS_PER_DAY) as Hday by done.
  intros Ht. unfold startOfDay.
  pose proof (Z.mod_pos_bound (t + offset) MS_PER_DAY Hday).
  rewrite steady_setHours; lia.
Qed.

Lemma steady_endOfDay t :
  lo ≤ t ≤ hi - MS_PER_DAY →
  endOfDay t = t - (t + offset) `mod` MS_PER_DAY + (MS_PER_DAY - 1).
Proof.
  assert (0 < MS_PER_DAY) as Hday by done.
  intros Ht. unfold endOfDay.
  pose proof (Z.mod_pos_bound (t + offset) MS_PER_DAY Hday).
  rewrite steady_setHours; lia.
Qed.

Lemma steady_getDaysArray start end_ :
  lo ≤ start ≤ end_ → end_ + MS_PER_DAY ≤ hi →
  getDaysArray start end_
  = (λ k, start + Z.of_nat k * MS_PER_DAY)
      <$> seq 0 (Z.to_nat ((end_ - start) `div` MS_PER_DAY + 1)).
Proof.
  assert (0 < MS_PER_DAY) as Hday by done.
  intros Hstart Hend.
  destruct (getDaysArray_days_from start end_) as (n & -> & Hle & Hgt).
  assert (∀ k, (k ≤ n)%nat → day_from start k = start + Z.of_nat k * MS_PER_DAY)
    as Hclosed.
  { induction k as [|k IH]; intros Hk; [simpl; lia|].
    apply steady_day_from; [lia|].
    pose proof (Hle k ltac:(lia)) as Hk'. rewrite IH in Hk' by lia. lia. }
  assert (n ≠ 0%nat) as Hn.
  { intros ->. unfold day_from in Hgt. simpl in Hgt. lia. }
  assert (Z.of_nat n = (end_ - start) `div` MS_PER_DAY + 1) as Hlen.
  { pose proof (Hle (n - 1)%nat ltac:(lia)) as H1.
    rewrite Hclosed in H1, Hgt by lia.
    assert ((end_ - start) `div` MS_PER_DAY = Z.of_nat n - 1) as ->; [|lia].
    symmetry.
    apply (Z.div_unique_pos _ _ _ (end_ - start - (Z.of_nat n - 1) * MS_PER_DAY));
      unfold MS_PER_DAY in *; lia. }
  rewrite <- Hlen, Nat2Z.id.
  apply list_fmap_ext. intros i k Hi. apply lookup_seq in Hi as [-> Hi].
  apply Hclosed. simpl. lia.
Qed.

End steady.

Lemma steady_window_days {tz : TimeZone} now :
  steady_window now →
  subDays now 29 = now - 29 * MS_PER_DAY
  ∧ getDaysArray (subDays now 29) now = window_day now <$> seq 0 30.
Proof.
  assert (0 < MS_PER_DAY) as Hday by done.
  intros [offset Hsteady].
  assert (subDays now 29 = now - 29 * MS_PER_DAY) as Hsub.
  { apply (steady_subDays _ _ _ Hsteady); lia. }
  split; [done|]. rewrite Hsub.
  rewrite (steady_getDaysArray _ _ _ Hsteady) by lia.
  replace (now - (now - 29 * MS_PER_DAY)) with (0 + 29 * MS_PER_DAY) by lia.
  rewrite Z.div_add by lia. done.
Qed.

Lemma fixed_offset_keeps offset lo hi : keeps_offset (tz := fixed_offset offset) offset lo hi.
Proof. intros t _. simpl. lia. Qed.

Lemma fixed_offset_steady offset now : steady_window (tz := fixed_offset offset) now.
Proof. exists offset. apply fixed_offset_keeps. Qed.

(** Eastern time keeps four hours behind UTC all through its summer. *)
Lemma eastern_summer lo hi :
  1741503600000 ≤ lo → hi < 1762063200000 →
  keeps_offset (tz := eastern_2025) (-4 * MS_PER_HOUR) lo hi.
Proof.
  intros Hlo Hhi t Ht. simpl. unfold eastern_instants, eastern_offset, MS_PER_HOUR.
  rewrite !filter_cons, filter_nil. repeat case_decide; simpl; lia.
Qed.

Lemma mapM_window {tz : TimeZone} {B} (f : Z → option B) now series :
  steady_window now →
  mapM f (getDaysArray (subDays now 29) now) = Some series →
  length series = 30%nat
  ∧ ∀ k, (k < 30)%nat →
      ∃ e, series !! k = Some e ∧ f (window_day now k) = Some e.
Proof.
  intros Hsteady. destruct (steady_window_days now Hsteady) as [_ ->].
  intros H. split.
  - apply length_mapM in H. by rewrite length_fmap, length_seq in H.
  - intros k Hk. apply mapM_Some_1 in H.
    assert ((window_day now <$> seq 0 30) !! k = Some (window_day now k)) as Hl.
    { rewrite list_lookup_fmap, lookup_seq_lt by done. done. }
    destruct (Forall2_lookup_l _ _ _ _ _ H Hl) as (e & He & Hf). eauto.
Qed.

Lemma window_day_calendar {tz : TimeZone} now k :
  steady_window now → (k < 30)%nat →
  LocalTime (window_day now k) `div` MS_PER_DAY
  = LocalTime now `div` MS_PER_DAY - 29 + Z.of_nat k.
Proof.
  assert (0 < MS_PER_DAY) as Hday by done.
  intros [offset Hsteady] Hk. unfold window_day.
  destruct (Hsteady now ltac:(lia)) as [-> _].
  destruct (Hsteady (now - 29 * MS_PER_DAY + Z.of_nat k * MS_PER_DAY)) as [-> _];
    [unfold MS_PER_DAY; lia|].
  replace (now - 29 * MS_PER_DAY + Z.of_nat k * MS_PER_DAY + offset)
    with (now + offset + (Z.of_nat k - 29) * MS_PER_DAY) by lia.
  rewrite Z.div_add by lia. lia.
Qed.

Lemma userGrowth_of_day_inv {tz : TimeZone} format db date e :
  userGrowth_of_day format db date = Some e →
  UserGrowthData.date e = format date
  ∧ count db (users_created_until (endOfDay date)) = Some (UserGrowthData.totalUsers e)
  ∧ count db (users_created_between (startOfDay date) (endOfDay date))
    = Some (UserGrowthData.newUsers e).
Proof.
  unfold userGrowth_of_day. intros H.
  repeat match type of H with
         | context [mbind _ ?p] => destruct p; simpl in H; [|discriminate]
         end.
  by injection H as <-.
Qed.

Lemma taskCompletion_of_day_inv {tz : TimeZone} format db date e :
  taskCompletion_of_day format db date = Some e →
  TaskCompletionData.date e = format date
  ∧ count db (tasks_completed_between (startOfDay date) (endOfDay date))
    = Some (TaskCompletionData.completed e)
  ∧ count db (tasks_due_between (startOfDay date) (endOfDay date))
    = Some (TaskCompletionData.pending e)
  ∧ count db (tasks_due_before (startOfDay date))
    = Some (TaskCompletionData.overdue e).
Proof.
  unfold taskCompletion_of_day. intros H.
  repeat match type of H with
         | context [mbind _ ?p] => destruct p; simpl in H; [|discriminate]
         end.
  by injection H as <-.
Qed.

Lemma count_is_Some db q :
  (∀ q, is_Some (getCountFromServer db q)) → ∃ n, count db q = Some n.
Proof. intros H. unfold count. destruct (H q) as [n ->]. by eexists. Qed.

Lemma getAnalyticsData_fetchData_total {tz : TimeZone} format db now :
  (∀ q, is_Some (getCountFromServer db q)) →
  is_Some (getAnalyticsData_fetchData format db now).
Proof.
  intros Hdb. unfold getAnalyticsData_fetchData.
  repeat match goal with
         | |- context [mbind _ (count db ?q)] =>
             let n := fresh "n" in let E := fresh "E" in
             destruct (count_is_Some db q Hdb) as [n E]; rewrite E; simpl
         end.
  assert (is_Some (mapM (userGrowth_of_day format db) (getDaysArray (subDays now 29) now)))
    as [ug ->].
  { apply mapM_is_Some, Forall_forall. intros date _. simpl.
    unfold userGrowth_of_day.
    repeat match goal with
           | |- context [mbind _ (count db ?q)] =>
               let n := fresh "n" in let E := fresh "E" in
               destruct (count_is_Some db q Hdb) as [n E]; rewrite E; simpl
           end. done. }
  assert (is_Some (mapM (taskCompletion_of_day format db)
                     (getDaysArray (subDays now 29) now))) as [tc ->].
  { apply mapM_is_Some, Forall_forall. intros date _. simpl.
    unfold taskCompletion_of_day.
    repeat match goal with
           | |- context [mbind _ (count db ?q)] =>
               let n := fresh "n" in let E := fresh "E" in
               destruct (count_is_Some db q Hdb) as [n E]; rewrite E; simpl
           end. done. }
  done.
Qed.


(** Where the offset does not change over the window, the two series hold
    30 entries, the [k]-th computed for and labelled with the [k]-th day of
    the window, which is calendar day [today - 29 + k]; a day whose count is
    0 has its entry, with value 0. *)
Lemma daily_series_steady {tz : TimeZone} format db now r :
  steady_window now →
  getAnalyticsData_fetchData format db now = Some r →
  length (AnalyticsData.userGrowth r) = 30%nat
  ∧ length (AnalyticsData.taskCompletion r) = 30%nat
  ∧ ∀ k, (k < 30)%nat →
      LocalTime (window_day now k) `div` MS_PER_DAY
      = LocalTime now `div` MS_PER_DAY - 29 + Z.of_nat k
      ∧ (∃ e, AnalyticsData.userGrowth r !! k = Some e
              ∧ userGrowth_of_day format db (window_day now k) = Some e
              ∧ UserGrowthData.date e = format (window_day now k))
      ∧ (∃ e, AnalyticsData.taskCompletion r !! k = Some e
              ∧ taskCompletion_of_day format db (window_day now k) = Some e
              ∧ TaskCompletionData.date e = format (window_day now k)).
Proof.
  intros Hsteady H.
  apply analytics_fields in H as (_ & _ & _ & _ & Hug & Htc).
  apply mapM_window in Hug as [Hlen1 Hug]; [|done].
  apply mapM_window in Htc as [Hlen2 Htc]; [|done].
  split; [done|]. split; [done|]. intros k Hk.
  split; [by apply window_day_calendar|]. split.
  - destruct (Hug k Hk) as (e & He & Hf). exists e. split; [done|]. split; [done|].
    by apply userGrowth_of_day_inv in Hf as [? _].
  - destruct (Htc k Hk) as (e & He & Hf). exists e. split; [done|]. split; [done|].
    by apply taskCompletion_of_day_inv in Hf as [? _].
Qed.

(** C4 fails where the window reaches back into an hour that the change to
    daylight saving time skipped.  At 02:30 on 7 April 2025, Eastern time,
    [subDays(now, 29)] is 9 March at 03:30, because 02:30 did not exist on
    that day; the loop of [getDaysArray] keeps 03:30 from then on, and
    6 April 03:30 is the last date that is not after [now].  Both series
    hold 29 entries, from 9 March to 6 April, and the range of the last one
    ends where today begins: today has no entry. *)
Theorem daily_series_miss_today_after_skipped_hour (format : Z → string) :
  ∃ r,
    getAnalyticsData_fetchData (tz := eastern_2025) format (db_constant 0 [])
      1744007400000 = Some r
    ∧ length (AnalyticsData.userGrowth r) = 29%nat
    ∧ length (AnalyticsData.taskCompletion r) = 29%nat
    ∧ UserGrowthData.date <$> AnalyticsData.userGrowth r
      = (λ k, format (1741505400000 + Z.of_nat k * MS_PER_DAY)) <$> seq 0 29
    ∧ TaskCompletionData.date <$> AnalyticsData.taskCompletion r
      = (λ k, format (1741505400000 + Z.of_nat k * MS_PER_DAY)) <$> seq 0 29
    ∧ LocalTime (TimeZone := eastern_2025) (subDays (tz := eastern_2025) 1744007400000 29)
      = LocalTime (TimeZone := eastern_2025) 1744007400000
        - 29 * MS_PER_DAY + MS_PER_HOUR
    ∧ last (getDaysArray (tz := eastern_2025)
              (subDays (tz := eastern_2025) 1744007400000 29) 1744007400000)
      = Some (1741505400000 + 28 * MS_PER_DAY)
    ∧ endOfDay (tz := eastern_2025) (1741505400000 + 28 * MS_PER_DAY) + 1
      = startOfDay (tz := eastern_2025) 1744007400000
    ∧ startOfDay (tz := eastern_2025) 1744007400000 ≤ 1744007400000.
Proof.
  destruct (getAnalyticsData_fetchData _ _ _) as [r|] eqn:E;
    vm_compute in E; [injection E as <-|discriminate].
  eexists. split; [reflexivity|]. vm_compute. by repeat split.
Qed.

(** ** Subscriptions and their cleanup functions *)

Lemma cleanup_absent id rt : subscriptions rt !! id = None → cleanup id rt = rt.
Proof. intros H. unfold cleanup. by rewrite H. Qed.

Lemma cleanup_removes id rt : subscriptions (cleanup id rt) !! id = None.
Proof.
  unfold cleanup. destruct (subscriptions rt !! id) eqn:E; simpl; [|done].
  apply lookup_delete_eq.
Qed.

Lemma cleanup_twice id rt : cleanup id (cleanup id rt) = cleanup id rt.
Proof. apply cleanup_absent, cleanup_removes. Qed.

Lemma cleanup_detached id rt :
  (length (detached (cleanup id rt)) ≤ length (detached rt) + 1)%nat.
Proof.
  unfold cleanup. destruct (subscriptions rt !! id); simpl; [|lia].
  rewrite length_app. simpl. lia.
Qed.

(** What [subscribe] does to the runtime, and the function it returns. *)
Lemma subscribe_unfold family trigger callback now rt :
  subscribe family trigger callback now rt
  = (cleanup (family +:+ "-" +:+ pretty now),
     mkRuntime (<[nextListener rt := (trigger, callback)]> (listeners rt))
       (S (nextListener rt))
       (<[family +:+ "-" +:+ pretty now := nextListener rt]> (subscriptions rt))
       (detached rt)).
Proof. reflexivity. Qed.

(** Right after a subscription its cleanup function calls the detach
    function of the listener the subscription attached, once, and removes
    the subscription's entry from the registry; and in every state calling
    the cleanup function a second time changes nothing, so both calls
    together invoke at most one detach. *)
Lemma cleanup_right_after_subscribe :
  (∀ family trigger callback now rt,
     let unsub := nextListener rt in
     let subscriptionId := family +:+ "-" +:+ pretty now in
     let '(handle, rt1) := subscribe family trigger callback now rt in
     listeners rt1 !! unsub = Some (trigger, callback)
     ∧ subscriptions rt1 !! subscriptionId = Some unsub
     ∧ listeners (handle rt1) !! unsub = None
     ∧ detached (handle rt1) = detached rt ++ [unsub]
     ∧ subscriptions (handle rt1) !! subscriptionId = None
     ∧ subscriptions (handle rt1) = delete subscriptionId (subscriptions rt))
  ∧ (∀ family trigger callback now rt rt',
       let handle := (subscribe family trigger callback now rt).1 in
       handle (handle rt') = handle rt'
       ∧ (length (detached (handle (handle rt'))) ≤ length (detached rt') + 1)%nat).
Proof.
  split.
  - intros family trigger callback now rt. rewrite subscribe_unfold.
    unfold cleanup. simpl. rewrite !lookup_insert_eq. simpl.
    by rewrite !lookup_delete_eq, delete_insert_eq.
  - intros family trigger callback now rt rt'. rewrite subscribe_unfold. simpl.
    rewrite cleanup_twice. split; [done|apply cleanup_detached].
Qed.

(** Two subscriptions whose identifiers differ do not interfere: the cleanup
    function of the first leaves the listener and the registry entry of the
    second in place. *)
Lemma cleanup_other family1 family2 trigger1 trigger2 cb1 cb2 now1 now2 rt :
  family1 +:+ "-" +:+ pretty now1 ≠ family2 +:+ "-" +:+ pretty now2 →
  let '(handle1, rt1) := subscribe family1 trigger1 cb1 now1 rt in
  let '(handle2, rt2) := subscribe family2 trigger2 cb2 now2 rt1 in
  listeners (handle1 rt2) !! S (nextListener rt) = Some (trigger2, cb2)
  ∧ subscriptions (handle1 rt2) !! (family2 +:+ "-" +:+ pretty now2)
    = Some (S (nextListener rt))
  ∧ listeners (handle1 rt2) !! nextListener rt = None.
Proof.
  intros Hne. rewrite !subscribe_unfold. simpl. unfold cleanup. simpl.
  rewrite lookup_insert_ne, lookup_insert_eq by done. simpl.
  rewrite lookup_delete_ne, lookup_insert_eq by lia.
  rewrite lookup_delete_ne, lookup_insert_eq by done.
  by rewrite lookup_delete_eq.
Qed.

(** C8 fails when two subscriptions of one family are registered within the
    same millisecond: both get the identifier built from [Date.now()], the
    second registration overwrites the entry of the first, and the cleanup
    function of the first subscription then detaches the listener of the
    second one.  The first listener stays attached, the second subscriber
    gets no further push although its own cleanup function was never called,
    and that function has nothing left to do. *)
Theorem same_millisecond_cleanup_detaches_other (now : Z) (cb1 cb2 : nat) :
  let '(handle1, rt1) := getAnalyticsData_subscribe cb1 now runtime0 in
  let '(handle2, rt2) := getAnalyticsData_subscribe cb2 now rt1 in
  listeners rt2 = <[1%nat := (analytics_trigger, cb2)]> {[0%nat := (analytics_trigger, cb1)]}
  ∧ subscriptions rt2 = {["analytics-" +:+ pretty now := 1%nat]}
  ∧ listeners (handle1 rt2) = {[0%nat := (analytics_trigger, cb1)]}
  ∧ detached (handle1 rt2) = [1%nat]
  ∧ subscriptions (handle1 rt2) = ∅
  ∧ handle2 (handle1 rt2) = handle1 rt2.
Proof.
  unfold getAnalyticsData_subscribe. rewrite !subscribe_unfold. simpl.
  fold analytics_trigger.
  change ("analytics" +:+ "-" +:+ pretty now) with ("analytics-" +:+ pretty now).
  rewrite cleanup_twice, insert_insert_eq.
  unfold cleanup. simpl. rewrite lookup_insert_eq. simpl.
  rewrite delete_insert_eq, delete_insert_eq, delete_empty.
  rewrite delete_insert_ne, delete_empty by lia. done.
Qed.

(** C9 fails for two subscriptions registered within the same millisecond,
    by the defect of C8: both cleanup functions are closed over the one
    identifier, whose entry holds the detach function of the second
    listener.  Whichever of them is invoked first detaches the second
    listener; the first invocation of the cleanup function of the first
    subscription therefore detaches a listener that is not its own, or,
    when the other one ran before, invokes no detach at all.  However
    often and in whatever order the two are invoked, the listener of the
    first subscription is never detached and its callback keeps receiving
    pushes. *)
Theorem same_millisecond_own_listener_never_detached (now : Z) (cb1 cb2 : nat)
    (calls : list bool) :
  let '(handle1, rt1) := getAnalyticsData_subscribe cb1 now runtime0 in
  let '(handle2, rt2) := getAnalyticsData_subscribe cb2 now rt1 in
  let rt :=
    foldl (λ rt (first : bool), if first then handle1 rt else handle2 rt) rt2 calls in
  listeners rt !! 0%nat = Some (analytics_trigger, cb1)
  ∧ (0%nat ∉ detached rt)
  ∧ receives_pushes rt cb1
  ∧ detached (handle1 rt2) = [1%nat]
  ∧ handle1 (handle2 rt2) = handle2 rt2
  ∧ (calls ≠ [] → listeners rt = {[0%nat := (analytics_trigger, cb1)]}
                  ∧ detached rt = [1%nat] ∧ subscriptions rt = ∅).
Proof.
  unfold getAnalyticsData_subscribe. rewrite !subscribe_unfold. simpl.
  fold analytics_trigger.
  change ("analytics" +:+ "-" +:+ pretty now) with ("analytics-" +:+ pretty now).
  set (id := "analytics-" +:+ pretty now).
  set (rt2 := mkRuntime _ _ _ _).
  assert (cleanup id rt2
          = mkRuntime {[0%nat := (analytics_trigger, cb1)]} 2 ∅ [1%nat]) as Hfirst.
  { unfold cleanup, rt2. simpl. rewrite lookup_insert_eq. simpl.
    rewrite insert_insert_eq, !delete_insert_eq.
    rewrite delete_insert_ne by lia. by rewrite !delete_empty. }
  assert (∀ calls, calls ≠ [] →
            foldl (λ rt (first : bool), if first then cleanup id rt else cleanup id rt)
              rt2 calls
            = cleanup id rt2) as Hcalls.
  { intros l. induction l as [|c l IH] using rev_ind; [done|]. intros _.
    rewrite foldl_app. simpl. destruct l as [|c' l].
    - simpl. by destruct c.
    - rewrite IH by done. rewrite cleanup_twice. by destruct c. }
  assert (listeners rt2 !! 0%nat = Some (analytics_trigger, cb1)) as Hl0.
  { unfold rt2. simpl. by rewrite lookup_insert_ne, lookup_insert_eq by lia. }
  destruct calls as [|c calls].
  - cbn [foldl]. rewrite cleanup_twice, Hfirst.
    split; [exact Hl0|]. split; [apply not_elem_of_nil|].
    split; [by exists 0%nat, analytics_trigger|done].
  - rewrite Hcalls by done. rewrite cleanup_twice, Hfirst. simpl.
    split; [apply lookup_singleton_eq|].
    split; [by intros H%list_elem_of_singleton|].
    split; [|done].
    exists 0%nat, analytics_trigger. apply lookup_singleton_eq.
Qed.

(** ** Objects as dictionaries *)

Section object_facts.
Context {V : Type}.
Implicit Types (o : JS.object V) (k : string).

Lemma lookup_own_None k o : k ∉ o.*1 → JS.lookup_own k o = None.
Proof.
  induction o as [|[k' v] o IH]; simpl; [done|].
  intros Hk. apply not_elem_of_cons in Hk as [Hne Hk].
  case_decide; [congruence|auto].
Qed.

Lemma lookup_own_is_Some k o : k ∈ o.*1 → is_Some (JS.lookup_own k o).
Proof.
  induction o as [|[k' v] o IH]; simpl; [by intros ?%elem_of_nil|].
  intros Hk. case_decide; [by eexists|].
  apply elem_of_cons in Hk as [->|Hk]; [done|auto].
Qed.

Lemma set_fresh k v o : k ∉ o.*1 → JS.set k v o = o ++ [(k, v)].
Proof.
  induction o as [|[k' v'] o IH]; simpl; [done|].
  intros Hk. apply not_elem_of_cons in Hk as [Hne Hk].
  case_decide; [congruence|]. by rewrite IH.
Qed.

Lemma update_absent f k o : k ∉ o.*1 → JS.update f k o = o.
Proof.
  induction o as [|[k' v'] o IH]; simpl; [done|].
  intros Hk. apply not_elem_of_cons in Hk as [Hne Hk].
  case_decide; [congruence|]. by rewrite IH.
Qed.

(** With distinct property names, updating [k] is a map over the entries. *)
Lemma update_fmap f k o :
  NoDup o.*1 →
  JS.update f k o
  = (λ kv, if decide (kv.1 = k) then (kv.1, f kv.2) else kv) <$> o.
Proof.
  induction o as [|[k' v'] o IH]; simpl; [done|].
  intros [Hk' Hnd]%NoDup_cons. case_decide as Hk; simpl.
  - subst k'. f_equal. rewrite <- (list_fmap_id o) at 1.
    apply list_fmap_ext. intros i [k'' v''] Hi. simpl.
    case_decide; [|done]. subst k''. exfalso. apply Hk'.
    apply list_elem_of_fmap. exists (k, v''). split; [done|].
    by eapply list_elem_of_lookup_2.
  - by rewrite IH.
Qed.

Lemma update_keys f k o : (JS.update f k o).*1 = o.*1.
Proof.
  induction o as [|[k' v'] o IH]; simpl; [done|].
  case_decide; csimpl; by rewrite ?IH.
Qed.
End object_facts.

(** ** Regional distribution *)

Lemma filter_all {A} (P : A → Prop) `{∀ x, Decision (P x)} (l : list A) :
  Forall P l → filter P l = l.
Proof.
  induction 1 as [|x l Hx Hl IH]; [done|].
  by rewrite filter_cons_True, IH.
Qed.

Lemma first_seen_elem x l : x ∈ first_seen l ↔ x ∈ l.
Proof.
  induction l as [|y l IH]; simpl; [done|].
  rewrite !elem_of_cons, list_elem_of_filter, IH.
  destruct (decide (x = y)); tauto.
Qed.

Lemma first_seen_NoDup l : NoDup (first_seen l).
Proof.
  induction l as [|y l IH]; simpl; [constructor|].
  apply NoDup_cons. split.
  - rewrite list_elem_of_filter. tauto.
  - by apply NoDup_filter.
Qed.

Lemma filter_first_seen (P : string → Prop) `{∀ x, Decision (P x)} l :
  filter P (first_seen l) = first_seen (filter P l).
Proof.
  induction l as [|y l IH]; simpl; [done|].
  rewrite !filter_cons. case_decide as HP; simpl.
  - f_equal. rewrite <- IH. rewrite !list_filter_filter.
    apply list_filter_iff. tauto.
  - rewrite <- IH. rewrite list_filter_filter.
    apply list_filter_iff. intros x. split; [tauto|].
    intros HPx. split; [done|]. congruence.
Qed.

Lemma first_seen_app l1 l2 :
  first_seen (l1 ++ l2) = first_seen l1 ++ filter (λ x, x ∉ l1) (first_seen l2).
Proof.
  induction l1 as [|y l1 IH]; simpl.
  - symmetry. apply filter_all, Forall_forall. intros x _. apply not_elem_of_nil.
  - f_equal. rewrite IH, filter_app. f_equal.
    rewrite list_filter_filter. apply list_filter_iff.
    intros x. rewrite not_elem_of_cons. tauto.
Qed.

Lemma update_snoc {V} (f : V → V) k v (o : JS.object V) :
  k ∉ o.*1 → JS.update f k (o ++ [(k, v)]) = o ++ [(k, f v)].
Proof.
  induction o as [|[k' v'] o IH]; simpl.
  - intros _. by rewrite decide_True.
  - intros Hk. apply not_elem_of_cons in Hk as [Hne Hk].
    case_decide; [congruence|]. by rewrite IH.
Qed.

Lemma located_cons_ne k d docs :
  location_of d ≠ k → located k (d :: docs) = located k docs.
Proof. intros Hne. unfold located. by rewrite filter_cons_False. Qed.

Lemma located_cons_eq d docs :
  located (location_of d) (d :: docs) = S (located (location_of d) docs).
Proof. unfold located. by rewrite filter_cons_True. Qed.

Lemma bumped_cons_ne bump d docs kv :
  location_of d ≠ kv.1 → bumped bump (d :: docs) kv = bumped bump docs kv.
Proof. intros Hne. unfold bumped. by rewrite located_cons_ne. Qed.

Lemma bumped_cons_eq bump d docs c :
  bumped bump (d :: docs) (location_of d, c)
  = bumped bump docs (location_of d, bump c).
Proof. unfold bumped. simpl. by rewrite located_cons_eq, Nat.iter_succ_r. Qed.

Lemma bumped_fmap_cons_ne bump d docs (o : JS.object Counts.t) :
  location_of d ∉ o.*1 → bumped bump (d :: docs) <$> o = bumped bump docs <$> o.
Proof.
  intros Hk. apply list_fmap_ext. intros i kv Hi. apply bumped_cons_ne.
  intros Heq. apply Hk. apply list_elem_of_fmap. exists kv.
  split; [done|]. by eapply list_elem_of_lookup_2.
Qed.

Lemma bumped_new_cons_ne bump d docs (l : list string) :
  location_of d ∉ l →
  (λ k, bumped bump (d :: docs) (k, Counts.mk 0 0)) <$> l
  = (λ k, bumped bump docs (k, Counts.mk 0 0)) <$> l.
Proof.
  intros Hk. apply list_fmap_ext. intros i k Hi. apply bumped_cons_ne. simpl.
  intros Heq. apply Hk. rewrite Heq. by eapply list_elem_of_lookup_2.
Qed.

Lemma own_locations_cons d docs :
  own_locations (d :: docs)
  = if JS.inherited (location_of d) then own_locations docs
    else location_of d :: own_locations docs.
Proof.
  unfold own_locations. rewrite fmap_cons, filter_cons.
  destruct (JS.inherited (location_of d)); by case_decide.
Qed.

Lemma own_locations_not_inherited k docs :
  k ∈ own_locations docs → JS.inherited k = false.
Proof. unfold own_locations. rewrite list_elem_of_filter. tauto. Qed.

(** The object a loop leaves behind: every entry bumped once per document at
    its location, followed by an entry for each new location in the order
    of first appearance. *)
Lemma foldl_count_location bump docs : ∀ o : JS.object Counts.t,
  NoDup o.*1 →
  Forall (λ k, JS.inherited k = false) o.*1 →
  foldl (count_location bump) o docs
  = (bumped bump docs <$> o)
    ++ ((λ k, bumped bump docs (k, Counts.mk 0 0))
          <$> filter (λ k, k ∉ o.*1) (first_seen (own_locations docs))).
Proof.
  induction docs as [|d docs IH]; intros o Hnd Hown.
  - simpl. rewrite app_nil_r. rewrite <- (list_fmap_id o) at 1.
    apply list_fmap_ext. by intros i [k c] _.
  - simpl. unfold count_location at 2. unfold ensure, JS.has_member.
    rewrite own_locations_cons.
    destruct (decide (location_of d ∈ o.*1)) as [Hin|Hout].
    + (* the location is a property already *)
      rewrite bool_decide_eq_true_2 by (by apply lookup_own_is_Some). simpl.
      assert (JS.inherited (location_of d) = false) as ->.
      { by eapply Forall_forall in Hown. }
      rewrite IH by (by rewrite update_keys). rewrite update_keys.
      simpl. rewrite filter_cons_False by (by intros H; apply H).
      rewrite list_filter_filter_l by (intros x Hx ->; by apply Hx).
      rewrite (bumped_new_cons_ne bump d docs)
        by (rewrite list_elem_of_filter; tauto).
      f_equal. rewrite update_fmap by done.
      rewrite <- list_fmap_compose. apply list_fmap_ext.
      intros i [k c] _. simpl. case_decide as Hk; simpl in *.
      * subst k. by rewrite bumped_cons_eq.
      * by rewrite bumped_cons_ne.
    + rewrite bool_decide_eq_false_2
        by (rewrite lookup_own_None by done; by intros [? ?]).
      simpl. destruct (JS.inherited (location_of d)) eqn:Hinh.
      * (* an inherited name: the object keeps its properties *)
        rewrite update_absent by done. rewrite IH by done.
        rewrite bumped_fmap_cons_ne by done.
        rewrite (bumped_new_cons_ne bump d docs); [done|].
        rewrite list_elem_of_filter, first_seen_elem.
        intros [_ Hd%own_locations_not_inherited]. congruence.
      * (* a new property, created and bumped *)
        rewrite set_fresh, update_snoc by done.
        rewrite IH.
        2: { rewrite fmap_app. apply NoDup_app. split; [done|]. split.
             - intros x Hx ->%list_elem_of_singleton. done.
             - apply NoDup_singleton. }
        2: { rewrite fmap_app. apply Forall_app. split; [done|].
             by apply Forall_singleton. }
        rewrite fmap_app, <- app_assoc. simpl.
        rewrite bumped_fmap_cons_ne by done. f_equal.
        rewrite filter_cons_True by done. simpl.
        rewrite bumped_cons_eq. f_equal.
        rewrite list_filter_filter.
        rewrite (bumped_new_cons_ne bump d docs)
          by (rewrite list_elem_of_filter; tauto).
        f_equal. apply list_filter_iff. intros x.
        rewrite fmap_app, not_elem_of_app. simpl.
        rewrite not_elem_of_cons. split; [intros [H1 [H2 _]]; tauto|].
        intros [H1 H2]. split; [done|]. split; [done|apply not_elem_of_nil].
Qed.

(** ** The stable sort *)

Section sort_facts.
Context {A : Type} (cmp : A → A → Z) (key : A → Z).
(** The comparator orders by descending [key]. *)
Hypothesis cmp_key : ∀ a b, cmp a b = key b - key a.

Lemma sort_insert_perm x l : JS.sort_insert cmp x l ≡ₚ x :: l.
Proof.
  induction l as [|y l IH]; simpl; [done|].
  destruct (cmp x y <=? 0); [done|].
  rewrite IH. apply Permutation_swap.
Qed.

Lemma Array_sort_perm l : JS.Array_sort cmp l ≡ₚ l.
Proof.
  induction l as [|x l IH]; simpl; [done|].
  fold (JS.Array_sort cmp l). by rewrite sort_insert_perm, IH.
Qed.

Lemma sort_insert_sorted x l :
  StronglySorted (λ a b, key b ≤ key a) l →
  StronglySorted (λ a b, key b ≤ key a) (JS.sort_insert cmp x l).
Proof.
  induction 1 as [|y l Hl IH Hy]; simpl.
  - repeat constructor.
  - rewrite cmp_key. destruct (key y - key x <=? 0) eqn:E.
    + apply Z.leb_le in E. constructor; [by constructor|].
      constructor; [lia|]. eapply Forall_impl; [done|]. simpl. lia.
    + apply Z.leb_gt in E. constructor; [done|].
      rewrite sort_insert_perm. constructor; [lia|done].
Qed.

Lemma Array_sort_sorted l :
  StronglySorted (λ a b, key b ≤ key a) (JS.Array_sort cmp l).
Proof.
  induction l as [|x l IH]; simpl; [constructor|].
  by apply sort_insert_sorted.
Qed.

(** Stability: entries with equal keys keep their relative order. *)
Lemma sort_insert_stable n x l :
  filter (λ a, key a = n) (JS.sort_insert cmp x l)
  = filter (λ a, key a = n) (x :: l).
Proof.
  induction l as [|y l IH]; simpl; [done|].
  rewrite cmp_key. destruct (key y - key x <=? 0) eqn:E; [done|].
  apply Z.leb_gt in E. rewrite filter_cons, IH, !filter_cons.
  repeat case_decide; try done; lia.
Qed.

Lemma Array_sort_stable n l :
  filter (λ a, key a = n) (JS.Array_sort cmp l) = filter (λ a, key a = n) l.
Proof.
  induction l as [|x l IH]; simpl; [done|].
  fold (JS.Array_sort cmp l). by rewrite sort_insert_stable, !filter_cons, IH.
Qed.
End sort_facts.

Lemma Array_sort_fmap {A B} (m : A → B) (cmpA : A → A → Z) (cmpB : B → B → Z) l :
  (∀ a b, cmpB (m a) (m b) = cmpA a b) →
  JS.Array_sort cmpB (m <$> l) = m <$> JS.Array_sort cmpA l.
Proof.
  intros Hm. induction l as [|x l IH]; [done|].
  csimpl. fold (JS.Array_sort cmpB (m <$> l)) (JS.Array_sort cmpA l).
  rewrite IH. generalize (JS.Array_sort cmpA l). intros s.
  induction s as [|y s IHs]; [done|].
  csimpl. rewrite Hm. destruct (cmpA x y <=? 0); csimpl; by rewrite ?IHs.
Qed.

(** ** Enumeration order of property names *)

Lemma Object_entries_fmap {V} (g : string → V) names :
  JS.Object_entries ((λ k, (k, g k)) <$> names)
  = (λ k, (k, g k)) <$> enumeration_order names.
Proof.
  unfold JS.Object_entries, enumeration_order. rewrite fmap_app. f_equal.
  - assert (JS.indexed ((λ k, (k, g k)) <$> names)
            = (λ nk, (nk.1, (nk.2, g nk.2))) <$> index_names names) as ->.
    { unfold JS.indexed, index_names.
      induction names as [|k names IH]; [done|].
      csimpl. rewrite IH. by destruct (JS.array_index k). }
    rewrite (Array_sort_fmap _ (λ a b, Z.of_N a.1 - Z.of_N b.1)) by done.
    rewrite <- !list_fmap_compose. by apply list_fmap_ext.
  - induction names as [|k names IH]; [done|].
    csimpl. rewrite !filter_cons. simpl. case_decide; csimpl; by rewrite IH.
Qed.

Lemma index_names_spec n k names :
  (n, k) ∈ index_names names ↔ k ∈ names ∧ JS.array_index k = Some n.
Proof.
  unfold index_names. rewrite list_elem_of_omap. split.
  - intros (k' & Hk' & H). destruct (JS.array_index k') eqn:E; simpl in H; [|done].
    by injection H as <- <-.
  - intros [Hk E]. exists k. split; [done|]. by rewrite E.
Qed.

Lemma enumeration_order_named names :
  Forall (λ k, JS.array_index k = None) names → enumeration_order names = names.
Proof.
  intros Hn. unfold enumeration_order. rewrite filter_all by done.
  assert (index_names names = []) as ->; [|done].
  unfold index_names. induction Hn as [|k names Hk _ IH]; [done|].
  csimpl. by rewrite Hk.
Qed.

Lemma snd_index_names names :
  snd <$> index_names names = filter (λ k, is_Some (JS.array_index k)) names.
Proof.
  unfold index_names. induction names as [|k names IH]; [done|].
  rewrite filter_cons. csimpl. destruct (JS.array_index k) as [n|]; csimpl.
  - by rewrite IH.
  - by rewrite IH.
Qed.

Lemma enumeration_order_perm names : enumeration_order names ≡ₚ names.
Proof.
  unfold enumeration_order.
  rewrite Array_sort_perm.
  rewrite snd_index_names. rewrite <- (filter_app_complement
    (λ k, is_Some (JS.array_index k)) names) at 3.
  f_equiv. erewrite list_filter_iff; [done|].
  intros k. simpl. by rewrite eq_None_not_Some.
Qed.

Lemma enumeration_order_indices names :
  let indices :=
    snd <$> JS.Array_sort (λ a b, Z.of_N a.1 - Z.of_N b.1) (index_names names) in
  enumeration_order names = indices ++ filter (λ k, JS.array_index k = None) names
  ∧ indices ≡ₚ filter (λ k, is_Some (JS.array_index k)) names
  ∧ StronglySorted (λ a b, index_value a ≤ index_value b) indices.
Proof.
  simpl. split; [done|]. split.
  - rewrite Array_sort_perm.
    by rewrite snd_index_names.
  - pose proof (Array_sort_sorted (λ a b : N * string, Z.of_N a.1 - Z.of_N b.1)
                  (λ a, - Z.of_N a.1) ltac:(intros; cbv beta; lia) (index_names names)) as Hs.
    assert (Forall (λ nk, JS.array_index nk.2 = Some nk.1)
              (JS.Array_sort (λ a b, Z.of_N a.1 - Z.of_N b.1) (index_names names)))
      as Hall.
    { rewrite Array_sort_perm.
      apply Forall_forall. intros [n k] H. by apply index_names_spec in H as [_ ?]. }
    induction Hs as [|nk s Hs IH Hnk]; csimpl; [constructor|].
    apply Forall_cons in Hall as [Hh Hall].
    constructor; [by apply IH|].
    apply Forall_fmap, Forall_forall. intros nk' Hin. simpl.
    pose proof (proj1 (Forall_forall _ _) Hnk _ Hin) as Hle.
    pose proof (proj1 (Forall_forall _ _) Hall _ Hin) as Hidx.
    unfold index_value. rewrite Hh, Hidx. simpl in *. lia.
Qed.

(** ** The grouping object in closed form *)

Lemma iter_incr_athletes n c :
  Nat.iter n Counts.incr_athletes c
  = Counts.mk (Counts.athletes c + Z.of_nat n) (Counts.events c).
Proof.
  induction n as [|n IH]; simpl.
  - destruct c. simpl. f_equal. lia.
  - rewrite IH. unfold Counts.incr_athletes. simpl. f_equal. lia.
Qed.

Lemma iter_incr_events n c :
  Nat.iter n Counts.incr_events c
  = Counts.mk (Counts.athletes c) (Counts.events c + Z.of_nat n).
Proof.
  induction n as [|n IH]; simpl.
  - destruct c. simpl. f_equal. lia.
  - rewrite IH. unfold Counts.incr_events. simpl. f_equal. lia.
Qed.

Lemma located_absent k docs : k ∉ location_of <$> docs → located k docs = 0%nat.
Proof.
  intros Hk. unfold located.
  induction docs as [|d docs IH]; [done|].
  rewrite fmap_cons, not_elem_of_cons in Hk. destruct Hk as [Hne Hk].
  rewrite filter_cons_False by done. auto.
Qed.

Lemma locationCounts_of_regions athletes events :
  locationCounts_of athletes events
  = (λ k, (k, region_counts athletes events k)) <$> regions athletes events.
Proof.
  unfold locationCounts_of, count_athlete_location, count_event_location.
  rewrite (foldl_count_location _ athletes []) by constructor.
  rewrite fmap_nil, app_nil_l.
  rewrite (filter_all (λ k, k ∉ [].*1))
    by (apply Forall_forall; intros x _; apply not_elem_of_nil).
  assert (((λ k, bumped Counts.incr_athletes athletes (k, Counts.mk 0 0))
             <$> first_seen (own_locations athletes)).*1
          = first_seen (own_locations athletes)) as Hkeys.
  { rewrite <- list_fmap_compose. rewrite <- (list_fmap_id (first_seen _)) at 2.
    by apply list_fmap_ext. }
  rewrite foldl_count_location; rewrite Hkeys.
  2: apply first_seen_NoDup.
  2: { apply Forall_forall. intros k Hk.
       apply (proj1 (first_seen_elem _ _)) in Hk.
       by eapply own_locations_not_inherited. }
  unfold regions, own_locations. rewrite fmap_app, filter_app.
  fold (own_locations athletes) (own_locations events).
  rewrite first_seen_app, fmap_app. f_equal.
  - rewrite <- list_fmap_compose. apply list_fmap_ext. intros i k _. simpl.
    unfold bumped, region_counts. simpl.
    by rewrite iter_incr_athletes, iter_incr_events.
  - rewrite (list_filter_iff (λ k, k ∉ first_seen (own_locations athletes))
               (λ k, k ∉ own_locations athletes))
      by (intros k; by rewrite first_seen_elem).
    apply list_fmap_ext. intros i k Hi. apply list_elem_of_lookup_2 in Hi.
    apply list_elem_of_filter in Hi as [Hout Hin].
    apply (proj1 (first_seen_elem _ _)), own_locations_not_inherited in Hin.
    unfold bumped, region_counts. simpl. rewrite iter_incr_events. simpl.
    rewrite (located_absent k athletes); [done|].
    intros Hk. apply Hout. unfold own_locations. by apply list_elem_of_filter.
Qed.

Lemma fetchRegionalData_ranking athletes events :
  fetchRegionalData (Some athletes) (Some events) = take 10 (ranking athletes events).
Proof.
  unfold fetchRegionalData, ranking.
  rewrite locationCounts_of_regions, Object_entries_fmap.
  by rewrite <- list_fmap_compose.
Qed.

(** C5, as stated, fails on ties: "b" and "1" hold one athlete each and
    "b" is seen first, yet "1" comes first, because a region name that is
    an array index is enumerated before all other names of the grouping
    object. *)
Lemma fetchRegionalData_not_first_seen :
  fetchRegionalData (Some [located_at "b"; located_at "1"]) (Some [])
    = [RegionalData.mk "1" 1 0; RegionalData.mk "b" 1 0]
  ∧ first_seen (location_of <$> [located_at "b"; located_at "1"]) = ["b"; "1"].
Proof. split; by vm_compute. Qed.

Lemma regions_elem athletes events k :
  k ∈ regions athletes events
  ↔ JS.inherited k = false ∧ k ∈ location_of <$> athletes ++ events.
Proof.
  unfold regions, own_locations. by rewrite first_seen_elem, list_elem_of_filter.
Qed.

Lemma take_lookup_Some {A} (l : list A) n i x :
  l !! i = Some x → (i < n)%nat → take n l !! i = Some x.
Proof. intros Hl Hi. by rewrite lookup_take_lt. Qed.

Lemma regions_own athletes events :
  Forall (λ d, JS.inherited (location_of d) = false) (athletes ++ events) →
  regions athletes events = first_seen (location_of <$> athletes ++ events).
Proof.
  intros Hown. unfold regions, own_locations. f_equal.
  apply filter_all. by apply Forall_fmap.
Qed.

(** C5, amended, for documents whose locations are not names of members
    inherited from [Object.prototype]: [fetchRegionalData] groups athletes
    and events by location ("Unknown" when absent or empty), one region per
    location, and each region carries its number of athletes and of events.
    The result is the first 10 regions of the ranking by non-increasing
    number of athletes, in which regions with as many athletes keep the
    enumeration order of the grouping object: names that are array indices
    first, by ascending value, then the other names in the order of first
    appearance, athletes before events (which is the whole order when no
    name is an array index).  A region with events and no athlete is ranked
    like any other and is returned when its rank is below 10. *)
Theorem fetchRegionalData_ranked :
  ∀ athletes events : list Doc,
    Forall (λ d, JS.inherited (location_of d) = false) (athletes ++ events) →
    let result := fetchRegionalData (Some athletes) (Some events) in
    let names := first_seen (location_of <$> athletes ++ events) in
    let ranked :=
      JS.Array_sort by_athletes_desc
        (region_entry athletes events <$> enumeration_order names) in
    (∀ d, location d = None ∨ location d = Some "" → location_of d = "Unknown")
    ∧ NoDup names
    ∧ (∀ k, k ∈ names ↔ k ∈ location_of <$> athletes ++ events)
    ∧ ranked ≡ₚ region_entry athletes events <$> names
    ∧ StronglySorted
        (λ a b, RegionalData.athletes b ≤ RegionalData.athletes a) ranked
    ∧ (∀ n, filter (λ r, RegionalData.athletes r = n) ranked
            = filter (λ r, RegionalData.athletes r = n)
                (region_entry athletes events <$> enumeration_order names))
    ∧ (∃ indices,
         enumeration_order names
           = indices ++ filter (λ k, JS.array_index k = None) names
         ∧ indices ≡ₚ filter (λ k, is_Some (JS.array_index k)) names
         ∧ StronglySorted (λ a b, index_value a ≤ index_value b) indices)
    ∧ (Forall (λ k, JS.array_index k = None) names → enumeration_order names = names)
    ∧ result = take 10 ranked
    ∧ (length result ≤ 10)%nat
    ∧ StronglySorted
        (λ a b, RegionalData.athletes b ≤ RegionalData.athletes a) result
    ∧ (∀ i r, ranked !! i = Some r → (i < 10)%nat → result !! i = Some r).
Proof.
  intros athletes events Hown result names ranked.
  assert (ranked = ranking athletes events) as Hranking.
  { unfold ranked, ranking, names. by rewrite regions_own. }
  assert (StronglySorted
            (λ a b, RegionalData.athletes b ≤ RegionalData.athletes a) ranked)
    as Hsorted by (by apply (Array_sort_sorted by_athletes_desc)).
  assert (result = take 10 ranked) as Hres
    by (rewrite Hranking; apply fetchRegionalData_ranking).
  split_and!.
  - intros d [H|H]; unfold location_of; by rewrite H.
  - apply first_seen_NoDup.
  - intros k. apply first_seen_elem.
  - unfold ranked. by rewrite Array_sort_perm, enumeration_order_perm.
  - done.
  - intros n. by apply (Array_sort_stable by_athletes_desc).
  - eexists. apply enumeration_order_indices.
  - apply enumeration_order_named.
  - done.
  - rewrite Hres, length_take. lia.
  - rewrite Hres. rewrite <- (take_drop 10 ranked) in Hsorted.
    by apply StronglySorted_app_1_l in Hsorted.
  - intros i r Hi Hlt. rewrite Hres. by apply take_lookup_Some.
Qed.

Lemma fetchRegionalData_ranked_witness :
  enumeration_order
    (first_seen (location_of <$> [located_at "Nimba"; located_at "Bong";
                                    located_at "Nimba"] ++ [located_at "Lofa"]))
    = ["Nimba"; "Bong"; "Lofa"]
  ∧ fetchRegionalData (Some [located_at "Nimba"; located_at "Bong"; located_at "Nimba"])
      (Some [located_at "Lofa"]) !! 2%nat
    = Some (RegionalData.mk "Lofa" 0 1).
Proof.
  destruct (fetchRegionalData_ranked
              [located_at "Nimba"; located_at "Bong"; located_at "Nimba"]
              [located_at "Lofa"])
    as (_ & _ & _ & _ & _ & _ & _ & Hnamed & _ & _ & _ & Hrank).
  { repeat constructor. }
  split.
  - rewrite Hnamed; [by vm_compute|]. compute_done.
  - apply Hrank; [by vm_compute | lia].
Defined.

(** ** Growth series *)

Section growth_facts.
Variable getMonth : Z → Z.

Lemma has_member_false {V} (o : JS.object V) k :
  JS.has_member o k = false → k ∉ o.*1.
Proof.
  unfold JS.has_member. intros H Hin.
  apply lookup_own_is_Some in Hin.
  by rewrite bool_decide_eq_true_2 in H.
Qed.

Lemma count_month_update f o d :
  count_month getMonth f o d
  = match createdAt d with
    | Some t => JS.update f (monthKey (getMonth t)) o
    | None => o
    end.
Proof.
  unfold count_month. destruct (createdAt d) as [t|]; [|done].
  destruct (JS.has_member o _) eqn:E; [done|].
  symmetry. by apply update_absent, has_member_false.
Qed.

Lemma foldl_count_month f docs : ∀ o : JS.object Counts.t,
  NoDup o.*1 →
  foldl (count_month getMonth f) o docs
  = (λ kv, (kv.1, Nat.iter (in_month getMonth kv.1 docs) f kv.2)) <$> o.
Proof.
  induction docs as [|d docs IH]; intros o Hnd; simpl.
  - rewrite <- (list_fmap_id o) at 1. apply list_fmap_ext. by intros i [k c] _.
  - rewrite IH by (rewrite count_month_update; destruct (createdAt d);
                   by rewrite ?update_keys).
    rewrite count_month_update. unfold in_month.
    destruct (createdAt d) as [t|] eqn:Ht.
    + rewrite update_fmap by done. rewrite <- list_fmap_compose.
      apply list_fmap_ext. intros i [k c] _. simpl.
      rewrite filter_cons, Ht. simpl.
      case_decide as Hk; simpl.
      * subst k. rewrite decide_True by done. simpl length.
        by rewrite Nat.iter_succ_r.
      * rewrite decide_False by congruence. done.
    + apply list_fmap_ext. intros i [k c] _. simpl.
      rewrite filter_cons, Ht. simpl. by rewrite ?decide_False.
Qed.

Lemma window_months_cases (m : Z) :
  0 ≤ m < 12 →
  let names := (λ i, monthKey ((m - i) `mod` 12)) <$> [5; 4; 3; 2; 1; 0] in
  foldl (λ monthlyData i, JS.set (monthKey ((m - i) `mod` 12)) (Counts.mk 0 0)
                            monthlyData) [] [5; 4; 3; 2; 1; 0]
  = (λ k, (k, Counts.mk 0 0)) <$> names
  ∧ NoDup names
  ∧ Forall (λ k, JS.array_index k = None) names.
Proof.
  intros Hm.
  assert (m = 0 ∨ m = 1 ∨ m = 2 ∨ m = 3 ∨ m = 4 ∨ m = 5 ∨ m = 6 ∨ m = 7
          ∨ m = 8 ∨ m = 9 ∨ m = 10 ∨ m = 11) as Hcases by lia.
  intros names.
  destruct_or!; subst m names; split_and!;
    first [ compute_done | by vm_compute ].
Qed.
End growth_facts.

Lemma monthlyData0_window getMonth now :
  monthlyData0 getMonth now
  = (λ k, (k, Counts.mk 0 0)) <$> window_months getMonth now
  ∧ NoDup (window_months getMonth now)
  ∧ Forall (λ k, JS.array_index k = None) (window_months getMonth now).
Proof.
  pose proof (window_months_cases (getMonth now `mod` 12)
                (Z.mod_pos_bound _ 12 ltac:(lia))) as H.
  unfold monthlyData0, window_months. simpl in *.
  by rewrite !Zminus_mod_idemp_l in H.
Qed.

Lemma monthlyData_of_window getMonth now athletes events :
  JS.Object_entries (monthlyData_of getMonth now athletes events)
  = (λ k, (k, month_counts getMonth athletes events k)) <$> window_months getMonth now.
Proof.
  destruct (monthlyData0_window getMonth now) as (H0 & Hnd & Hnamed).
  unfold monthlyData_of. rewrite H0.
  assert (∀ h : string → string * Counts.t,
            (∀ k, (h k).1 = k) →
            (h <$> window_months getMonth now).*1 = window_months getMonth now)
    as Hkeys.
  { intros h Hh. rewrite <- list_fmap_compose.
    rewrite <- (list_fmap_id (window_months _ _)) at 2.
    apply list_fmap_ext. intros i k _. apply Hh. }
  rewrite (foldl_count_month _ Counts.incr_athletes athletes)
    by (by rewrite Hkeys).
  rewrite <- list_fmap_compose.
  rewrite (foldl_count_month _ Counts.incr_events events)
    by (by rewrite Hkeys).
  rewrite <- list_fmap_compose.
  rewrite (list_fmap_ext _ (λ k, (k, month_counts getMonth athletes events k))).
  - rewrite Object_entries_fmap. by rewrite enumeration_order_named.
  - intros i k _. simpl. unfold month_counts.
    by rewrite iter_incr_athletes, iter_incr_events.
Qed.

Lemma cumulative_lookup entries : ∀ a e i g,
  cumulative a e entries !! i = Some g →
  (fst <$> entries) !! i = Some (GrowthData.month g)
  ∧ GrowthData.athletes g
    = a + Zsum (take (S i) (Counts.athletes ∘ snd <$> entries))
  ∧ GrowthData.events g
    = e + Zsum (take (S i) (Counts.events ∘ snd <$> entries)).
Proof.
  induction entries as [|[k c] entries IH]; intros a e i g; [done|].
  destruct i as [|i]; simpl.
  - intros [= <-]. simpl. split; [done|]. unfold Zsum. simpl.
    rewrite ?take_0. simpl. lia.
  - intros H. apply IH in H as (Hm & Ha & He).
    split; [done|]. rewrite Ha, He. unfold Zsum.
    split; symmetry; apply Z.add_assoc.
Qed.

Lemma cumulative_sorted entries : ∀ a e,
  Forall (λ kv, 0 ≤ Counts.athletes kv.2 ∧ 0 ≤ Counts.events kv.2) entries →
  let series := cumulative a e entries in
  Forall (λ g, a ≤ GrowthData.athletes g ∧ e ≤ GrowthData.events g) series
  ∧ StronglySorted Z.le (GrowthData.athletes <$> series)
  ∧ StronglySorted Z.le (GrowthData.events <$> series).
Proof.
  induction entries as [|[k c] entries IH]; intros a e Hpos; simpl.
  - split; [constructor|]. split; constructor.
  - apply Forall_cons in Hpos as [[Ha He] Hpos]. simpl in *.
    destruct (IH (a + Counts.athletes c) (e + Counts.events c) Hpos)
      as (Hlow & Hsa & Hse).
    split; [|split].
    + constructor; [simpl; lia|].
      eapply Forall_impl; [done|]. simpl. lia.
    + csimpl. constructor; [done|]. apply Forall_fmap.
      eapply Forall_impl; [done|]. simpl. lia.
    + csimpl. constructor; [done|]. apply Forall_fmap.
      eapply Forall_impl; [done|]. simpl. lia.
Qed.

Lemma cumulative_months entries : ∀ a e,
  GrowthData.month <$> cumulative a e entries = fst <$> entries.
Proof.
  induction entries as [|[k c] entries IH]; intros a e; csimpl; [done|].
  by rewrite IH.
Qed.

(** C6: the series of [fetchGrowthData] has one entry for each of the six
    months of the window, oldest first; the athletes (events) value of the
    [i]-th entry is the sum of the numbers of athletes (events) created in
    the months up to the [i]-th, so both sequences of values are
    non-decreasing, whatever the two reads return. *)
Theorem fetchGrowthData_cumulative :
  ∀ (getMonth : Z → Z) (now : Z),
    (∀ athletes events : list Doc,
       let series := fetchGrowthData getMonth now (Some athletes) (Some events) in
       let months := window_months getMonth now in
       GrowthData.month <$> series = months
       ∧ length series = 6%nat
       ∧ NoDup months
       ∧ ∀ i g, series !! i = Some g →
           GrowthData.athletes g
           = Zsum (take (S i) ((λ k, Z.of_nat (in_month getMonth k athletes)) <$> months))
           ∧ GrowthData.events g
             = Zsum (take (S i) ((λ k, Z.of_nat (in_month getMonth k events)) <$> months)))
    ∧ (∀ athletesSnapshot eventsSnapshot,
         let series := fetchGrowthData getMonth now athletesSnapshot eventsSnapshot in
         StronglySorted Z.le (GrowthData.athletes <$> series)
         ∧ StronglySorted Z.le (GrowthData.events <$> series)).
Proof.
  intros getMonth now. split.
  - intros athletes events. simpl. unfold fetchGrowthData.
    rewrite monthlyData_of_window. split_and!.
    + rewrite cumulative_months, <- list_fmap_compose.
      rewrite <- (list_fmap_id (window_months _ _)) at 2. by apply list_fmap_ext.
    + rewrite <- (length_fmap GrowthData.month), cumulative_months.
      by rewrite !length_fmap.
    + apply monthlyData0_window.
    + intros i g H. apply cumulative_lookup in H as (_ & -> & ->).
      rewrite <- !list_fmap_compose. done.
  - intros [athletes|] [events|]; simpl; try (split; constructor).
    unfold fetchGrowthData. rewrite monthlyData_of_window.
    apply cumulative_sorted, Forall_fmap, Forall_forall.
    intros k _. simpl. lia.
Qed.

Lemma fetchGrowthData_cumulative_witness :
  ∃ g, fetchGrowthData (λ t, t `div` 100) 1130
         (Some ((λ t, athlete None None t) <$> [Some 1020; Some 705; None; Some 1100]))
         (Some []) !! 5%nat = Some g
       ∧ GrowthData.athletes g = 3.
Proof.
  destruct (fetchGrowthData_cumulative (λ t, t `div` 100) 1130) as [Hsums _].
  destruct (Hsums ((λ t, athlete None None t) <$> [Some 1020; Some 705; None; Some 1100])
              []) as (_ & _ & _ & Hsum).
  destruct (fetchGrowthData _ _ _ _ !! 5%nat) as [g|] eqn:E;
    [|vm_compute in E; discriminate].
  exists g. split; [reflexivity|].
  destruct (Hsum 5%nat g E) as [Ha _]. rewrite Ha. by vm_compute.
Defined.

Lemma fetchLevelData_buckets_witness :
  level_of (athlete None None None) = "Grassroots"
  ∧ fetchLevelData (Some [athlete None (Some "Semi-Pro") None; athlete None None None])
    = [ LevelData.mk "Grassroots" (JS.Num 1) "#8884d8";
        LevelData.mk "Semi-Pro" (JS.Num 1) "#82ca9d";
        LevelData.mk "Professional" (JS.Num 0) "#ffc658" ].
Proof.
  destruct fetchLevelData_buckets as (Hbuckets & Hdefault & _).
  split.
  - apply Hdefault. by left.
  - apply (Hbuckets [athlete None (Some "Semi-Pro") None; athlete None None None]).
Defined.

(** * Further properties of the services *)

(** ** Doubles between two integers *)

(** Rounding is monotone: a quotient between two integers below 2^53 rounds
    to a double between them, with a non-positive exponent. *)
Lemma nearest_double_between p q lo hi :
  0 < p → 0 < q → lo * q ≤ p ≤ hi * q → p < 2 ^ 53 * q →
  ∃ m k, JS.nearest_double p q = (m, - k) ∧ 0 ≤ k ∧ lo * 2 ^ k ≤ m ≤ hi * 2 ^ k.
Proof.
  intros Hp Hq [Hlo Hhi] Hbig. unfold JS.nearest_double.
  pose proof (binade_spec p q Hp Hq) as Hl. simpl in Hl.
  set (l := JS.binade p q) in *.
  assert (l ≤ 52) as Hl52.
  { destruct (Z.le_gt_cases l 52) as [|Hgt]; [done|]. exfalso.
    rewrite (Z.max_r 0 l), (Z.max_l 0 (- l)), Z.pow_0_r in Hl by lia.
    pose proof (Z.pow_le_mono_r 2 53 l ltac:(lia) ltac:(lia)).
    assert (q * 2 ^ 53 ≤ q * 2 ^ l) by (apply Z.mul_le_mono_nonneg_l; lia). lia. }
  exists (JS.div_half_even (p * 2 ^ Z.max 0 (- (l - 52))) (q * 2 ^ Z.max 0 (l - 52))),
    (52 - l).
  rewrite (Z.max_r 0 (- (l - 52))), (Z.max_l 0 (l - 52)), Z.pow_0_r, Z.mul_1_r by lia.
  replace (- (l - 52)) with (52 - l) by lia.
  assert (0 < 2 ^ (52 - l)) as Hpow by (apply Z.pow_pos_nonneg; lia).
  split; [f_equal; lia|]. split; [lia|]. split.
  - apply div_half_even_ge; [done|nia|].
    rewrite <- Z.mul_assoc, (Z.mul_comm (2 ^ _) q), Z.mul_assoc.
    apply Z.mul_le_mono_nonneg_r; lia.
  - apply div_half_even_le; [done|nia|].
    rewrite <- Z.mul_assoc, (Z.mul_comm (2 ^ _) q), Z.mul_assoc.
    apply Z.mul_le_mono_nonneg_r; lia.
Qed.

Lemma round_ratio_between p q lo hi :
  0 < q → 0 ≤ p → lo * q ≤ p ≤ hi * q → p < 2 ^ 53 * q →
  ∃ m k, JS.round_ratio p q = (m, - k) ∧ 0 ≤ k ∧ lo * 2 ^ k ≤ m ≤ hi * 2 ^ k.
Proof.
  intros Hq Hp Hb Hbig. unfold JS.round_ratio.
  destruct (Z.eqb_spec q 0); [lia|]. destruct (Z.ltb_spec q 0); [lia|].
  destruct (Z.eqb_spec p 0) as [->|].
  - exists 0, 0. split; [done|]. split; [done|]. nia.
  - destruct (Z.ltb_spec p 0); [lia|].
    apply nearest_double_between; lia.
Qed.

Lemma Math_round_between m k lo hi :
  0 ≤ k → lo * 2 ^ k ≤ m ≤ hi * 2 ^ k → lo ≤ JS.Math_round (m, - k) ≤ hi.
Proof.
  intros Hk Hm. unfold JS.Math_round.
  assert (0 < 2 ^ k) as Hpow by (apply Z.pow_pos_nonneg; lia).
  destruct (Z.leb_spec 0 (- k)).
  - assert (k = 0) as -> by lia. simpl in *. lia.
  - rewrite Z.opp_involutive. split.
    + apply Z.div_le_lower_bound; [lia|]. nia.
    + assert ((2 * m + 2 ^ k) `div` (2 * 2 ^ k) < hi + 1); [|lia].
      apply Z.div_lt_upper_bound; [lia|]. nia.
Qed.

Lemma Math_floor_between m k lo hi :
  0 ≤ k → lo * 2 ^ k ≤ m ≤ hi * 2 ^ k → lo ≤ JS.Math_floor (m, - k) ≤ hi.
Proof.
  intros Hk Hm. unfold JS.Math_floor.
  assert (0 < 2 ^ k) as Hpow by (apply Z.pow_pos_nonneg; lia).
  destruct (Z.leb_spec 0 (- k)).
  - assert (k = 0) as -> by lia. simpl in *. lia.
  - rewrite Z.opp_involutive. split.
    + apply Z.div_le_lower_bound; [lia|]. nia.
    + assert (m `div` 2 ^ k < hi + 1); [|lia].
      apply Z.div_lt_upper_bound; [lia|]. nia.
Qed.

(** [(n / d) * 100] lies between [100 * lo] and [100 * hi] when [n / d] lies
    between the integers [lo] and [hi]. *)
Lemma ratio_percent_between n d lo hi :
  0 < d → 0 ≤ n → lo * d ≤ n ≤ hi * d → 0 ≤ hi < 2 ^ 46 →
  100 * lo ≤ ratio_percent n d ≤ 100 * hi.
Proof.
  intros Hd Hn Hb Hhi. unfold ratio_percent, JS.divide, JS.int. simpl fst. simpl snd.
  rewrite Z.sub_diag, Z.max_id, Z.pow_0_r, !Z.mul_1_r.
  assert (n < 2 ^ 53 * d) as Hbig.
  { assert (hi * d ≤ 2 ^ 46 * d) by (apply Z.mul_le_mono_nonneg_r; lia).
    assert (2 ^ 46 * d < 2 ^ 53 * d) by (apply Z.mul_lt_mono_pos_r; lia). lia. }
  destruct (round_ratio_between n d (Z.max 0 lo) hi Hd Hn ltac:(nia) Hbig)
    as (m1 & k1 & -> & Hk1 & Hm1).
  assert (0 < 2 ^ k1) as Hpow by (apply Z.pow_pos_nonneg; lia).
  unfold JS.multiply. simpl fst. simpl snd.
  rewrite Z.add_0_r, (Z.max_l 0 (- k1)), Z.pow_0_r, Z.mul_1_r by lia.
  rewrite Z.opp_involutive, (Z.max_r 0 k1) by lia.
  assert (0 ≤ m1) by nia.
  destruct (round_ratio_between (m1 * 100) (2 ^ k1) (100 * Z.max 0 lo) (100 * hi))
    as (m2 & k2 & -> & Hk2 & Hm2); [done|lia|nia| |].
  - assert (m1 * 100 ≤ hi * 2 ^ k1 * 100) by lia.
    assert (hi * 2 ^ k1 * 100 < 2 ^ 53 * 2 ^ k1); [|lia].
    rewrite <- Z.mul_assoc, (Z.mul_comm (2 ^ k1)), Z.mul_assoc.
    apply Z.mul_lt_mono_pos_r; lia.
  - pose proof (Math_round_between m2 k2 _ _ Hk2 Hm2). lia.
Qed.

Lemma percentage_ge K c e :
  0 < e → 0 ≤ K → K * e ≤ c < 2 ^ 46 → 100 * K ≤ percentage c e.
Proof.
  intros He HK Hc. unfold percentage. destruct (Z.ltb_spec 0 e); [|lia].
  apply (ratio_percent_between c e K c); nia.
Qed.

(** ** Integer quotients computed in doubles *)

(** The double nearest to [p / q] for an integer [p] below 2^53: its error
    is at most half a unit of the last place, and that unit is finer than
    [2 / q]. *)
Lemma nearest_double_fine p q :
  0 < p < 2 ^ 53 → 0 < q →
  ∃ m k, JS.nearest_double p q = (m, - k)
         ∧ 0 ≤ k
         ∧ - q ≤ 2 * (m * q - p * 2 ^ k) ≤ q
         ∧ q < 2 * 2 ^ k.
Proof.
  intros Hp Hq. unfold JS.nearest_double.
  pose proof (binade_spec p q ltac:(lia) Hq) as Hl. simpl in Hl.
  set (l := JS.binade p q) in *.
  assert (0 < 2 ^ Z.max 0 l) as Hpl by apply pow2_pos.
  assert (0 < 2 ^ Z.max 0 (- l)) as Hpnl by apply pow2_pos.
  assert (l ≤ 52) as Hl52.
  { destruct (Z.le_gt_cases l 52) as [|Hgt]; [done|]. exfalso.
    rewrite (Z.max_r 0 l), (Z.max_l 0 (- l)), Z.pow_0_r in Hl by lia.
    pose proof (Z.pow_le_mono_r 2 53 l ltac:(lia) ltac:(lia)).
    assert (1 * 2 ^ l ≤ q * 2 ^ l) by (apply Z.mul_le_mono_nonneg_r; lia). lia. }
  exists (JS.div_half_even (p * 2 ^ Z.max 0 (- (l - 52))) (q * 2 ^ Z.max 0 (l - 52))),
    (52 - l).
  rewrite (Z.max_r 0 (- (l - 52))), (Z.max_l 0 (l - 52)), Z.pow_0_r, Z.mul_1_r by lia.
  replace (- (l - 52)) with (52 - l) by lia.
  assert (0 < 2 ^ (52 - l)) as Hpow by (apply Z.pow_pos_nonneg; lia).
  split; [f_equal; lia|]. split; [lia|]. split.
  - apply div_half_even_spec; [done|]. apply Z.mul_nonneg_nonneg; lia.
  - destruct (Z.le_gt_cases 0 l).
    + rewrite (Z.max_r 0 l), (Z.max_l 0 (- l)), Z.pow_0_r, Z.mul_1_r in Hl by lia.
      assert (2 ^ 53 = 2 * 2 ^ (52 - l) * 2 ^ l) as E.
      { rewrite <- Z.mul_assoc, <- Z.pow_add_r by lia.
        replace (52 - l + l) with 52 by lia. done. }
      assert (q * 2 ^ l < 2 * 2 ^ (52 - l) * 2 ^ l) as Hlt by lia.
      apply Z.mul_lt_mono_pos_r in Hlt; [done|].
      apply Z.pow_pos_nonneg; lia.
    + rewrite (Z.max_l 0 l), (Z.max_r 0 (- l)), Z.pow_0_r, Z.mul_1_r in Hl by lia.
      assert (2 * 2 ^ (52 - l) = 2 ^ 53 * 2 ^ (- l)) as ->.
      { replace (52 - l) with (52 + - l) by lia. rewrite Z.pow_add_r by lia.
        change (2 ^ 53) with (2 * 2 ^ 52). ring. }
      assert (p * 2 ^ (- l) < 2 ^ 53 * 2 ^ (- l)); [|lia].
      apply Z.mul_lt_mono_pos_r; [|lia]. apply Z.pow_pos_nonneg; lia.
Qed.

Lemma mul_pos_cancel_le d t : 0 < d → d * t ≤ 0 → t ≤ 0.
Proof.
  intros Hd Ht. destruct (Z.le_gt_cases t 0); [done|].
  pose proof (Z.mul_pos_pos d t Hd ltac:(lia)). lia.
Qed.

Lemma mul_pos_cancel_lt d t : 0 < d → 0 < d * t → 0 < t.
Proof.
  intros Hd Ht. destruct (Z.lt_ge_cases 0 t); [done|].
  pose proof (Z.mul_nonneg_nonpos d t ltac:(lia) ltac:(lia)). lia.
Qed.

(** [Math.floor(x / d)] is the integer quotient rounded towards minus
    infinity, for an integer [x] below 2^53 in absolute value. *)
Lemma Math_floor_divide x d :
  - 2 ^ 53 < x < 2 ^ 53 → 0 < d →
  JS.Math_floor (JS.divide (JS.int x) (JS.int d)) = x `div` d.
Proof.
  intros Hx Hd. unfold JS.divide, JS.int. simpl fst. simpl snd.
  rewrite Z.sub_diag, Z.max_id, Z.pow_0_r, !Z.mul_1_r.
  unfold JS.round_ratio.
  destruct (Z.eqb_spec d 0); [lia|]. destruct (Z.ltb_spec d 0); [lia|].
  destruct (Z.eqb_spec x 0) as [->|Hx0]; [by rewrite Z.div_0_l by lia|].
  pose proof (Z.div_mod x d ltac:(lia)) as Hdm.
  pose proof (Z.mod_pos_bound x d Hd) as Hr.
  set (a := x `div` d) in *. set (r := x `mod` d) in *.
  destruct (Z.ltb_spec x 0) as [Hneg|Hpos].
  - destruct (nearest_double_fine (- x) d ltac:(lia) Hd)
      as (m & k & -> & Hk & Herr & Hfine).
    assert (0 < 2 ^ k) as HG by (apply Z.pow_pos_nonneg; lia).
    set (G := 2 ^ k) in *.
    assert (0 ≤ r * G) as HrG by (apply Z.mul_nonneg_nonneg; lia).
    assert (- x * G = - (a * G * d) - r * G) as E by (rewrite Hdm; ring).
    assert (m + a * G ≤ 0) as Hup.
    { assert (2 * (m + a * G) - 1 ≤ 0); [|lia].
      apply (mul_pos_cancel_le d); [done|]. lia. }
    assert (0 < m + (a + 1) * G) as Hlo.
    { destruct (Z.eq_dec r 0) as [Hr0|Hr0].
      - assert (0 ≤ m + a * G); [|lia].
        assert (0 < 2 * (m + a * G) + 2); [|lia].
        apply (mul_pos_cancel_lt d); [done|]. rewrite Hr0 in E. lia.
      - apply (mul_pos_cancel_lt d); [done|].
        assert (1 * G ≤ (d - r) * G) by (apply Z.mul_le_mono_nonneg_r; lia). lia. }
    unfold JS.Math_floor. destruct (Z.leb_spec 0 (- k)) as [Hk0|Hk0].
    + assert (k = 0) as Ek by lia. subst k. subst G. simpl in *. lia.
    + rewrite Z.opp_involutive. fold G.
      symmetry. apply (Z.div_unique_pos (- m) G a (- m - a * G)); lia.
  - destruct (nearest_double_fine x d ltac:(lia) Hd)
      as (m & k & -> & Hk & Herr & Hfine).
    assert (0 < 2 ^ k) as HG by (apply Z.pow_pos_nonneg; lia).
    set (G := 2 ^ k) in *.
    assert (0 ≤ r * G) as HrG by (apply Z.mul_nonneg_nonneg; lia).
    assert (x * G = a * G * d + r * G) as E by (rewrite Hdm; ring).
    assert (0 ≤ m - a * G) as Hlo.
    { assert (0 < 2 * (m - a * G) + 2); [|lia].
      apply (mul_pos_cancel_lt d); [done|]. lia. }
    assert (0 < (a + 1) * G - m) as Hup.
    { apply (mul_pos_cancel_lt d); [done|].
      assert (1 * G ≤ (d - r) * G) by (apply Z.mul_le_mono_nonneg_r; lia). lia. }
    unfold JS.Math_floor. destruct (Z.leb_spec 0 (- k)) as [Hk0|Hk0].
    + assert (k = 0) as Ek by lia. subst k. subst G. simpl in *. lia.
    + rewrite Z.opp_involutive. fold G.
      symmetry. apply (Z.div_unique_pos m G a (m - a * G)); lia.
Qed.

(** ** Relative times *)

Lemma getTimeAgo_seconds toLocaleDateString now time :
  - 2 ^ 53 < now - time < 2 ^ 53 →
  let s := (now - time) `div` 1000 in
  getTimeAgo toLocaleDateString now (Some time)
  = if s <? 60 then "Just now"
    else if s <? 3600 then pretty (s `div` 60) +:+ " minutes ago"
    else if s <? 86400 then pretty (s `div` 3600) +:+ " hours ago"
    else if s <? 604800 then pretty (s `div` 86400) +:+ " days ago"
    else toLocaleDateString time.
Proof.
  intros Hd. cbv zeta. unfold getTimeAgo. rewrite Math_floor_divide by lia.
  set (s := (now - time) `div` 1000).
  destruct (Z.ltb_spec s 60); [done|].
  destruct (Z.ltb_spec s 3600); [by rewrite Math_floor_divide by lia|].
  destruct (Z.ltb_spec s 86400); [by rewrite Math_floor_divide by lia|].
  destruct (Z.ltb_spec s 604800); [by rewrite Math_floor_divide by lia|].
  done.
Qed.

(** X8: [getTimeAgo] for a timestamp less than 2^53 ms away from now —
    below one minute (a timestamp in the future included) it answers
    [Just now]; below one hour the whole minutes elapsed, between 1 and 59;
    below one day the whole hours, between 1 and 23; below seven days the
    whole days, between 1 and 6; from seven days on the localised date. The
    unit is always written in the plural. A timestamp that does not parse
    gives [Invalid Date]. *)
Theorem getTimeAgo_buckets (toLocaleDateString : Z → string) (now time : Z) :
  - 2 ^ 53 < now - time < 2 ^ 53 →
  let label := getTimeAgo toLocaleDateString now (Some time) in
  let elapsed := now - time in
  (elapsed < 60000 → label = "Just now")
  ∧ (60000 ≤ elapsed < 3600000 →
     ∃ n, 1 ≤ n ≤ 59 ∧ n * 60000 ≤ elapsed < (n + 1) * 60000
          ∧ label = pretty n +:+ " minutes ago")
  ∧ (3600000 ≤ elapsed < 86400000 →
     ∃ n, 1 ≤ n ≤ 23 ∧ n * 3600000 ≤ elapsed < (n + 1) * 3600000
          ∧ label = pretty n +:+ " hours ago")
  ∧ (86400000 ≤ elapsed < 604800000 →
     ∃ n, 1 ≤ n ≤ 6 ∧ n * 86400000 ≤ elapsed < (n + 1) * 86400000
          ∧ label = pretty n +:+ " days ago")
  ∧ (604800000 ≤ elapsed → label = toLocaleDateString time)
  ∧ getTimeAgo toLocaleDateString now None = "Invalid Date".
Proof.
  intros Hd. cbv zeta. rewrite getTimeAgo_seconds by done. cbv zeta.
  pose proof (Z.div_mod (now - time) 1000 ltac:(lia)) as Hs.
  pose proof (Z.mod_pos_bound (now - time) 1000 ltac:(lia)) as Hr.
  set (s := (now - time) `div` 1000) in *.
  assert (∀ u, 0 < u → 0 ≤ s →
            s `div` u * (u * 1000) ≤ now - time < (s `div` u + 1) * (u * 1000))
    as Hunit.
  { intros u Hu Hs0. pose proof (Z.div_mod s u ltac:(lia)).
    pose proof (Z.mod_pos_bound s u Hu). nia. }
  split_and!.
  - intros H. destruct (Z.ltb_spec s 60); [done|lia].
  - intros H. destruct (Z.ltb_spec s 60); [lia|].
    destruct (Z.ltb_spec s 3600); [|lia].
    exists (s `div` 60). split; [|split; [|done]].
    + split; [apply Z.div_le_lower_bound; lia|].
      assert (s `div` 60 < 60); [apply Z.div_lt_upper_bound|]; lia.
    + apply (Hunit 60); lia.
  - intros H. destruct (Z.ltb_spec s 60); [lia|].
    destruct (Z.ltb_spec s 3600); [lia|]. destruct (Z.ltb_spec s 86400); [|lia].
    exists (s `div` 3600). split; [|split; [|done]].
    + split; [apply Z.div_le_lower_bound; lia|].
      assert (s `div` 3600 < 24); [apply Z.div_lt_upper_bound|]; lia.
    + apply (Hunit 3600); lia.
  - intros H. destruct (Z.ltb_spec s 60); [lia|].
    destruct (Z.ltb_spec s 3600); [lia|]. destruct (Z.ltb_spec s 86400); [lia|].
    destruct (Z.ltb_spec s 604800); [|lia].
    exists (s `div` 86400). split; [|split; [|done]].
    + split; [apply Z.div_le_lower_bound; lia|].
      assert (s `div` 86400 < 7); [apply Z.div_lt_upper_bound|]; lia.
    + apply (Hunit 86400); lia.
  - intros H. destruct (Z.ltb_spec s 60); [lia|].
    destruct (Z.ltb_spec s 3600); [lia|]. destruct (Z.ltb_spec s 86400); [lia|].
    destruct (Z.ltb_spec s 604800); [lia|]. done.
  - done.
Qed.

Lemma getTimeAgo_buckets_witness :
  getTimeAgo (λ _, "1/1/2024") 1700000000000 (Some 1700000000500) = "Just now"
  ∧ ∃ n, getTimeAgo (λ _, "1/1/2024") 1700000000000 (Some 1699999880000)
         = pretty n +:+ " minutes ago" ∧ 1 ≤ n ≤ 59.
Proof.
  split.
  - apply (getTimeAgo_buckets (λ _, "1/1/2024") 1700000000000 1700000000500);
      [by vm_compute|lia].
  - destruct (getTimeAgo_buckets (λ _, "1/1/2024") 1700000000000 1699999880000)
      as (_ & H & _); [by vm_compute|].
    destruct H as (n & Hn & _ & ->); [lia|]. eauto.
Defined.

(** ** Trend labels *)

(** The double nearest to a quotient below [2 ^ b]: at least [53 - b]
    binary places, and an error of at most half a unit of the last one. *)
Lemma nearest_double_below p q b :
  0 < p → 0 < q → 0 ≤ b ≤ 52 → p < 2 ^ b * q →
  ∃ m k, JS.nearest_double p q = (m, - k)
         ∧ 53 - b ≤ k
         ∧ - q ≤ 2 * (m * q - p * 2 ^ k) ≤ q.
Proof.
  intros Hp Hq Hb Hbig. unfold JS.nearest_double.
  pose proof (binade_spec p q Hp Hq) as Hl. simpl in Hl.
  set (l := JS.binade p q) in *.
  assert (l < b) as Hlb.
  { destruct (Z.lt_ge_cases l b) as [|Hge]; [done|]. exfalso.
    rewrite (Z.max_r 0 l), (Z.max_l 0 (- l)), Z.pow_0_r in Hl by lia.
    pose proof (Z.pow_le_mono_r 2 b l ltac:(lia) ltac:(lia)).
    assert (2 ^ b * q ≤ 2 ^ l * q) by (apply Z.mul_le_mono_nonneg_r; lia). lia. }
  exists (JS.div_half_even (p * 2 ^ Z.max 0 (- (l - 52))) (q * 2 ^ Z.max 0 (l - 52))),
    (52 - l).
  rewrite (Z.max_r 0 (- (l - 52))), (Z.max_l 0 (l - 52)), Z.pow_0_r, Z.mul_1_r by lia.
  replace (- (l - 52)) with (52 - l) by lia.
  assert (0 < 2 ^ (52 - l)) as Hpow by (apply Z.pow_pos_nonneg; lia).
  split; [f_equal; lia|]. split; [lia|].
  apply div_half_even_spec; [done|]. apply Z.mul_nonneg_nonneg; lia.
Qed.

(** [Math.floor(n * 0.1)] is [n] divided by 10, rounded down. *)
Lemma Math_floor_tenth n :
  0 ≤ n < 2 ^ 50 →
  JS.Math_floor (JS.multiply (JS.int n) JS.tenth) = n `div` 10.
Proof.
  intros Hn. unfold JS.multiply, JS.int, JS.tenth. simpl fst. simpl snd.
  change (Z.max 0 (0 + -55)) with 0. change (Z.max 0 (- (0 + -55))) with 55.
  rewrite Z.pow_0_r, Z.mul_1_r. unfold JS.round_ratio.
  change (2 ^ 55 =? 0) with false. change (2 ^ 55 <? 0) with false. cbv iota.
  destruct (Z.eqb_spec (n * 3602879701896397) 0) as [E|E].
  { assert (n = 0) as -> by lia. done. }
  destruct (Z.ltb_spec (n * 3602879701896397) 0); [lia|].
  destruct (nearest_double_below (n * 3602879701896397) (2 ^ 55) 47)
    as (m & k & -> & Hk & Herr); [lia|done|lia| |].
  { change (2 ^ 47) with 140737488355328. change (2 ^ 55) with 36028797018963968.
    change (2 ^ 50) with 1125899906842624 in Hn. lia. }
  assert (2 ^ 6 ≤ 2 ^ k) as HG by (apply Z.pow_le_mono_r; lia).
  set (G := 2 ^ k) in *.
  pose proof (Z.div_mod n 10 ltac:(lia)) as Hdm.
  pose proof (Z.mod_pos_bound n 10 ltac:(lia)) as Hj.
  set (a := n `div` 10) in *. set (j := n `mod` 10) in *.
  assert (0 ≤ a < 2 ^ 47) as Ha.
  { change (2 ^ 47) with 140737488355328.
    change (2 ^ 50) with 1125899906842624 in Hn. lia. }
  assert (0 ≤ a * G) as HX by (apply Z.mul_nonneg_nonneg; lia).
  assert (a * G ≤ 2 ^ 47 * G) as HX' by (apply Z.mul_le_mono_nonneg_r; lia).
  assert (0 ≤ j * G) as HY by (apply Z.mul_nonneg_nonneg; lia).
  assert (j * G ≤ 9 * G) as HY' by (apply Z.mul_le_mono_nonneg_r; lia).
  assert (n * 3602879701896397 * G
          = 3602879701896397 * (10 * (a * G) + j * G)) as E' by (rewrite Hdm; ring).
  rewrite E' in Herr.
  change (2 ^ 55) with 36028797018963968 in Herr.
  change (2 ^ 47) with 140737488355328 in *. change (2 ^ 6) with 64 in HG.
  unfold JS.Math_floor. destruct (Z.leb_spec 0 (- k)); [lia|].
  rewrite Z.opp_involutive. fold G.
  symmetry. apply (Z.div_unique_pos m G a (m - a * G)); lia.
Qed.

(** X9: the seven cards of the dashboard, in their order, and their trend
    labels for counts below 2^50: the first is always [+12%]; scouted
    athletes and recent registrations show a tenth of the count, rounded
    down and capped at 15, as a percentage; upcoming events and training
    programs show the count itself capped at 5 and 3; blog posts and contact
    submissions a tenth of the count capped at 5 and 3. A count that is not
    positive gives the label [0] (or [0%]), and without statistics every
    card shows the value 0. *)
Theorem statsCards_trends (toLocaleString : Z → string) (stats : DashboardStats.t) :
  let cards := statsCards toLocaleString (Some stats) in
  let capped_tenth cap n :=
    if 0 <? n then "+" +:+ pretty (Z.min cap (n `div` 10)) else "0" in
  let capped cap n := if 0 <? n then "+" +:+ pretty (Z.min cap n) else "0" in
  DashboardStats.scoutedAthletes stats < 2 ^ 50 →
  DashboardStats.recentRegistrations stats < 2 ^ 50 →
  DashboardStats.totalBlogPosts stats < 2 ^ 50 →
  DashboardStats.contactSubmissions stats < 2 ^ 50 →
  StatCard.title <$> cards
  = ["Total Athletes"; "Scouted Athletes"; "Upcoming Events"; "Training Programs";
     "Recent Registrations"; "Blog Posts"; "Contact Submissions"]
  ∧ StatCard.trend <$> cards
    = [ "+12%";
        capped_tenth 15 (DashboardStats.scoutedAthletes stats) +:+ "%";
        capped 5 (DashboardStats.upcomingEvents stats);
        capped 3 (DashboardStats.activeTrainingPrograms stats);
        capped_tenth 15 (DashboardStats.recentRegistrations stats) +:+ "%";
        capped_tenth 5 (DashboardStats.totalBlogPosts stats);
        capped_tenth 3 (DashboardStats.contactSubmissions stats) ]
  ∧ StatCard.trend <$> statsCards toLocaleString None
    = ["+12%"; "0%"; "0"; "0"; "0%"; "0"; "0"]
  ∧ Forall (λ card, StatCard.value card = "0") (statsCards toLocaleString None).
Proof.
  cbv zeta. intros H1 H2 H3 H4. split; [done|]. split; [|split; [done|]].
  - cbn. unfold tenth_capped, JS.Math_min.
    repeat match goal with
           | |- context [0 <? ?n] => destruct (Z.ltb_spec 0 n)
           end; rewrite ?Math_floor_tenth by lia; try done.
  - repeat constructor.
Qed.

(** ** Key metrics *)

Lemma fetchAnalyticsMetrics_cases db :
  (∃ events athletes scouted programs,
     count db (query (collection "events") []) = Some events
     ∧ count db (query (collection "athletes") []) = Some athletes
     ∧ count db (query (collection "athletes") [where_ "status" OpEq (VStr "scouted")])
       = Some scouted
     ∧ count db (query (collection "programs") [where_ "status" OpEq (VStr "active")])
       = Some programs
     ∧ fetchAnalyticsMetrics db
       = AnalyticsMetrics.mk (if 0 <? events then 85 else 0)
           (percentage scouted athletes) 75 programs)
  ∨ ((count db (query (collection "events") []) = None
      ∨ count db (query (collection "athletes") []) = None
      ∨ count db (query (collection "athletes") [where_ "status" OpEq (VStr "scouted")])
        = None
      ∨ count db (query (collection "programs") [where_ "status" OpEq (VStr "active")])
        = None)
     ∧ fetchAnalyticsMetrics db = AnalyticsMetrics.mk 0 0 0 0).
Proof.
  unfold fetchAnalyticsMetrics.
  destruct (count db (query (collection "events") [])) as [events|]; cbn; [|right; auto].
  destruct (count db (query (collection "athletes") [])) as [athletes|]; cbn;
    [|right; auto].
  destruct (count db (query (collection "athletes") [_])) as [scouted|]; cbn;
    [|right; auto 6].
  destruct (count db (query (collection "programs") [_])) as [programs|]; cbn;
    [|right; auto 6].
  left. eauto 10.
Qed.

(** X1: [fetchAnalyticsMetrics] — when its four counts fulfil, the event
    attendance rate is 85 if there is at least one event and 0 otherwise, the
    scouted share is [Math.round((scouted / athletes) * 100)] (0 without
    athletes, at most 100 when the scouted do not outnumber the athletes),
    the training completion is the constant 75 and the active programs are
    the count read. When any of the four counts rejects, all four fields are
    0, the training completion included. In both cases the two rates lie
    between 0 and 100 and nothing is negative. *)
Theorem fetchAnalyticsMetrics_rates (db : Firestore) :
  let m := fetchAnalyticsMetrics db in
  let eventsQuery := query (collection "events") [] in
  let athletesQuery := query (collection "athletes") [] in
  let scoutedQuery :=
    query (collection "athletes") [where_ "status" OpEq (VStr "scouted")] in
  let programsQuery :=
    query (collection "programs") [where_ "status" OpEq (VStr "active")] in
  (∀ events athletes scouted programs,
     count db eventsQuery = Some events →
     count db athletesQuery = Some athletes →
     count db scoutedQuery = Some scouted →
     count db programsQuery = Some programs →
     AnalyticsMetrics.eventAttendanceRate m = (if 0 <? events then 85 else 0)
     ∧ AnalyticsMetrics.athletesScouted m = percentage scouted athletes
     ∧ AnalyticsMetrics.trainingCompletion m = 75
     ∧ AnalyticsMetrics.activePrograms m = programs
     ∧ (scouted ≤ athletes → AnalyticsMetrics.athletesScouted m ≤ 100))
  ∧ (count db eventsQuery = None ∨ count db athletesQuery = None
     ∨ count db scoutedQuery = None ∨ count db programsQuery = None →
     m = AnalyticsMetrics.mk 0 0 0 0)
  ∧ 0 ≤ AnalyticsMetrics.eventAttendanceRate m ≤ 100
  ∧ 0 ≤ AnalyticsMetrics.athletesScouted m
  ∧ 0 ≤ AnalyticsMetrics.trainingCompletion m ≤ 100
  ∧ 0 ≤ AnalyticsMetrics.activePrograms m.
Proof.
  cbv zeta.
  destruct (fetchAnalyticsMetrics_cases db)
    as [(events & athletes & scouted & programs & He & Ha & Hs & Hp & ->) | [Hnone ->]];
    cbn.
  - pose proof (count_nonneg _ _ _ Hs) as Hs0.
    pose proof (count_nonneg _ _ _ Hp) as Hp0.
    rewrite He, Ha, Hs, Hp.
    split; [|split; [|split; [|split; [|split]]]].
    + intros ? ? ? ? [= <-] [= <-] [= <-] [= <-].
      split_and!; try done.
      intros Hle. apply percentage_range. split; [done|done].
    + intros [? | [? | [? | ?]]]; done.
    + destruct (0 <? events); lia.
    + by apply percentage_nonneg.
    + lia.
    + done.
  - split; [|split; [|repeat split; lia]].
    + intros ? ? ? ? H1 H2 H3 H4. destruct Hnone as [H | [H | [H | H]]]; congruence.
    + done.
Qed.

(** ** What the analytics overview shows *)

Lemma fetchGrowthData_length getMonth now athletesSnapshot eventsSnapshot :
  length (fetchGrowthData getMonth now athletesSnapshot eventsSnapshot)
  = match athletesSnapshot, eventsSnapshot with
    | Some _, Some _ => 6%nat
    | _, _ => 0%nat
    end.
Proof.
  destruct athletesSnapshot as [athletes|], eventsSnapshot as [events|]; try done.
  unfold fetchGrowthData. rewrite monthlyData_of_window.
  rewrite <- (length_fmap GrowthData.month), cumulative_months.
  by rewrite !length_fmap.
Qed.

Lemma with_level_nonneg k docs : 0 ≤ with_level k docs.
Proof. unfold with_level. lia. Qed.

Lemma fetchLevelData_some_positive athletesSnapshot :
  existsb (λ d, SportsAnalytics.positive (LevelData.value d))
    (fetchLevelData athletesSnapshot) = true
  ↔ ∃ athletes, athletesSnapshot = Some athletes ∧ Exists recognised athletes.
Proof.
  destruct athletesSnapshot as [athletes|].
  - unfold fetchLevelData, JS.get.
    rewrite !(foldl_count_level_lookup athletes levelCounts0 _ 0) by done.
    cbn. rewrite !Z.add_0_l, orb_false_r, !orb_true_iff, !Z.ltb_lt.
    pose proof (with_level_sum athletes) as Hsum.
    pose proof (with_level_nonneg "Grassroots" athletes).
    pose proof (with_level_nonneg "Semi-Pro" athletes).
    pose proof (with_level_nonneg "Professional" athletes).
    split.
    + intros Hpos. exists athletes. split; [done|].
      destruct (filter recognised athletes) as [|d l] eqn:E; [simpl in Hsum; lia|].
      apply Exists_exists. exists d.
      assert (d ∈ filter recognised athletes) as Hd by (rewrite E; by left).
      apply list_elem_of_filter in Hd as [? ?]. done.
    + intros (? & [= <-] & Hex). apply Exists_exists in Hex as (d & Hd & Hr).
      assert (d ∈ filter recognised athletes) as Hin by (by apply list_elem_of_filter).
      destruct (filter recognised athletes); [by apply elem_of_nil in Hin|].
      simpl in Hsum. lia.
  - cbn. split; [done|]. by intros (? & ? & _).
Qed.

Lemma regions_nil athletes events :
  regions athletes events = []
  ↔ Forall (λ d, JS.inherited (location_of d) = true) (athletes ++ events).
Proof.
  rewrite Forall_forall. split.
  - intros Hnil d Hd.
    destruct (JS.inherited (location_of d)) eqn:E; [done|]. exfalso.
    assert (location_of d ∈ regions athletes events) as Hin.
    { apply regions_elem. split; [done|]. apply list_elem_of_fmap. eauto. }
    rewrite Hnil in Hin. by apply elem_of_nil in Hin.
  - intros Hall. destruct (regions athletes events) as [|k l] eqn:E; [done|]. exfalso.
    assert (k ∈ regions athletes events) as Hin by (rewrite E; by left).
    apply regions_elem in Hin as [Hk (d & -> & Hd)%list_elem_of_fmap].
    rewrite (Hall d Hd) in Hk. done.
Qed.

Lemma ranking_length athletes events :
  length (ranking athletes events) = length (regions athletes events).
Proof.
  unfold ranking.
  by rewrite Array_sort_perm, length_fmap, enumeration_order_perm.
Qed.

Lemma fetchRegionalData_nonempty athletesSnapshot eventsSnapshot :
  (0 < length (fetchRegionalData athletesSnapshot eventsSnapshot))%nat
  ↔ ∃ athletes events,
      athletesSnapshot = Some athletes ∧ eventsSnapshot = Some events
      ∧ Exists (λ d, JS.inherited (location_of d) = false) (athletes ++ events).
Proof.
  destruct athletesSnapshot as [athletes|], eventsSnapshot as [events|];
    try (cbn; split; [lia|by intros (? & ? & ? & ? & _)]).
  rewrite fetchRegionalData_ranking, length_take, ranking_length.
  pose proof (regions_nil athletes events) as Hnil.
  split.
  - intros Hpos. exists athletes, events. split; [done|]. split; [done|].
    destruct (regions athletes events) as [|k l] eqn:E; [simpl in Hpos; lia|].
    assert (k ∈ regions athletes events) as Hin by (rewrite E; by left).
    apply regions_elem in Hin as [Hk (d & -> & Hd)%list_elem_of_fmap].
    apply Exists_exists. eauto.
  - intros (? & ? & [= <-] & [= <-] & Hex).
    destruct (regions athletes events) eqn:E; [|simpl; lia]. exfalso.
    destruct Hnil as [Hnil _]. specialize (Hnil eq_refl).
    apply Exists_exists in Hex as (d & Hd & Hinh).
    rewrite Forall_forall in Hnil. rewrite (Hnil d Hd) in Hinh. done.
Qed.

(** X4: [SportsAnalytics] after [loadAnalytics] on the initial state —
    [fetchAllAnalytics] never rejects, because each of its four members
    catches its own failures, so the component always leaves the spinner and
    never shows the error alert. It renders the overview with the four metric
    cards of [fetchAnalyticsMetrics]; the growth chart is drawn exactly when
    both reads of the last six months fulfil, the level chart exactly when
    some athlete read has a recognised level, and the regional chart exactly
    when both collection reads fulfil and some document has an own
    location. *)
Theorem SportsAnalytics_overview (getMonth : Z → Z) (firstOfMonth : Z → Z → Z)
    (db : Firestore) (now : Z) :
  let athletesRead := getDocs db (query (collection "athletes") []) in
  let eventsRead := getDocs db (query (collection "events") []) in
  let recentAthletesRead :=
    getDocs db (query (collection "athletes")
                  [where_ "createdAt" OpGe (VTime (firstOfMonth now 5))]) in
  let recentEventsRead :=
    getDocs db (query (collection "events")
                  [where_ "createdAt" OpGe (VTime (firstOfMonth now 5))]) in
  let metrics := fetchAnalyticsMetrics db in
  ∃ growthChart levelChart regionChart,
    SportsAnalytics.render
      (SportsAnalytics.loadAnalytics (fetchAllAnalytics getMonth firstOfMonth db now)
         SportsAnalytics.initial)
    = SportsAnalytics.Overview growthChart levelChart regionChart
        (AnalyticsMetrics.eventAttendanceRate metrics)
        (AnalyticsMetrics.athletesScouted metrics)
        (AnalyticsMetrics.trainingCompletion metrics)
        (AnalyticsMetrics.activePrograms metrics)
    ∧ (growthChart = true ↔ is_Some recentAthletesRead ∧ is_Some recentEventsRead)
    ∧ (levelChart = true
       ↔ ∃ athletes, athletesRead = Some athletes ∧ Exists recognised athletes)
    ∧ (regionChart = true
       ↔ ∃ athletes events,
           athletesRead = Some athletes ∧ eventsRead = Some events
           ∧ Exists (λ d, JS.inherited (location_of d) = false) (athletes ++ events)).
Proof.
  cbv zeta. eexists _, _, _. split; [reflexivity|]. cbn. split_and!.
  - rewrite bool_decide_eq_true. unfold fetchGrowthData_from.
    rewrite fetchGrowthData_length.
    destruct (getDocs db (query (collection "athletes") [_])),
      (getDocs db (query (collection "events") [_])); split;
      try lia; try (by intros [[? ?] [? ?]]); by intros _; split; eexists.
  - apply fetchLevelData_some_positive.
  - rewrite bool_decide_eq_true. apply fetchRegionalData_nonempty.
Qed.

(** ** Regions never overlap *)

Lemma Zsum_app l1 l2 : Zsum (l1 ++ l2) = Zsum l1 + Zsum l2.
Proof. unfold Zsum. induction l1 as [|x l1 IH]; simpl; lia. Qed.

Lemma Zsum_perm l1 l2 : l1 ≡ₚ l2 → Zsum l1 = Zsum l2.
Proof. unfold Zsum. induction 1; simpl; lia. Qed.

Lemma Zsum_nonneg l : Forall (λ x, 0 ≤ x) l → 0 ≤ Zsum l.
Proof. unfold Zsum. induction 1; simpl; lia. Qed.

Lemma Zsum_take n l : Forall (λ x, 0 ≤ x) l → Zsum (take n l) ≤ Zsum l.
Proof.
  intros Hl. rewrite <- (take_drop n l) at 2. rewrite Zsum_app.
  assert (0 ≤ Zsum (drop n l)); [|lia].
  apply Zsum_nonneg. rewrite <- (take_drop n l) in Hl.
  by apply Forall_app in Hl as [_ ?].
Qed.

(** Distinct locations count disjoint sets of documents. *)
Lemma sum_located ks docs :
  NoDup ks →
  Zsum ((λ k, Z.of_nat (located k docs)) <$> ks)
  = Z.of_nat (length (filter (λ d, location_of d ∈ ks) docs)).
Proof.
  intros Hnd. induction docs as [|d docs IH].
  - change (Zsum ((λ _, 0) <$> ks) = 0). clear Hnd.
    induction ks as [|k ks IHk]; [done|].
    rewrite fmap_cons. unfold Zsum in *. cbn [foldr]. by rewrite IHk.
  - rewrite filter_cons. 
    assert (Zsum ((λ k, Z.of_nat (located k (d :: docs))) <$> ks)
            = Zsum ((λ k, Z.of_nat (located k docs)) <$> ks)
              + (if decide (location_of d ∈ ks) then 1 else 0)) as ->.
    { clear IH. induction ks as [|k ks IHk].
      - rewrite decide_False by apply not_elem_of_nil. done.
      - apply NoDup_cons in Hnd as [Hk Hnd]. rewrite !fmap_cons.
        unfold Zsum in *. cbn [foldr]. rewrite IHk by done.
        unfold located at 1 3. rewrite filter_cons.
        destruct (decide (location_of d = k)) as [Heq|Hne].
        + rewrite (decide_True (P := location_of d ∈ k :: ks)) by (rewrite Heq; by left).
          rewrite (decide_False (P := location_of d ∈ ks)) by (by rewrite Heq).
          cbn [length]. lia.
        + destruct (decide (location_of d ∈ ks)).
          * rewrite (decide_True (P := location_of d ∈ k :: ks)) by (by right). lia.
          * rewrite (decide_False (P := location_of d ∈ k :: ks)); [lia|].
            rewrite not_elem_of_cons. tauto. }
    rewrite IH. case_decide; cbn [length]; lia.
Qed.

Lemma ranking_perm athletes events :
  ranking athletes events ≡ₚ region_entry athletes events <$> regions athletes events.
Proof. unfold ranking. by rewrite Array_sort_perm, enumeration_order_perm. Qed.

Lemma ranking_names athletes events :
  RegionalData.name <$> ranking athletes events ≡ₚ regions athletes events.
Proof.
  rewrite ranking_perm, <- list_fmap_compose.
  rewrite <- (list_fmap_id (regions _ _)) at 2.
  by erewrite list_fmap_ext; [done|].
Qed.

(** X2: [fetchRegionalData] — the regions returned carry pairwise distinct
    names; each one reports exactly the number of athletes and of events
    whose location ([data.location || "Unknown"]) is its name, and at least
    one document in total. The athletes over all regions never exceed the
    athletes read (likewise the events), no own location left out of the ten
    has more athletes than a region kept, and with at most ten regions and no
    location that names a property of [Object.prototype] every athlete is
    counted in exactly one region. *)
Theorem fetchRegionalData_regions (athletes events : list Doc) :
  let result := fetchRegionalData (Some athletes) (Some events) in
  NoDup (RegionalData.name <$> result)
  ∧ Forall (λ r, JS.inherited (RegionalData.name r) = false
                 ∧ RegionalData.athletes r
                   = Z.of_nat (located (RegionalData.name r) athletes)
                 ∧ RegionalData.events r
                   = Z.of_nat (located (RegionalData.name r) events)
                 ∧ 1 ≤ RegionalData.athletes r + RegionalData.events r) result
  ∧ Zsum (RegionalData.athletes <$> result) ≤ Z.of_nat (length athletes)
  ∧ Zsum (RegionalData.events <$> result) ≤ Z.of_nat (length events)
  ∧ (∀ r k, r ∈ result → k ∈ location_of <$> athletes ++ events →
            JS.inherited k = false → k ∉ RegionalData.name <$> result →
            Z.of_nat (located k athletes) ≤ RegionalData.athletes r)
  ∧ ((length (regions athletes events) ≤ 10)%nat →
     Forall (λ d, JS.inherited (location_of d) = false) athletes →
     Zsum (RegionalData.athletes <$> result) = Z.of_nat (length athletes)).
Proof.
  cbv zeta. rewrite fetchRegionalData_ranking.
  pose proof (ranking_perm athletes events) as Hperm.
  pose proof (ranking_names athletes events) as Hnames.
  assert (NoDup (regions athletes events)) as Hnd by apply first_seen_NoDup.
  assert (Forall (λ r, JS.inherited (RegionalData.name r) = false
                       ∧ RegionalData.athletes r
                         = Z.of_nat (located (RegionalData.name r) athletes)
                       ∧ RegionalData.events r
                         = Z.of_nat (located (RegionalData.name r) events)
                       ∧ 1 ≤ RegionalData.athletes r + RegionalData.events r)
            (ranking athletes events)) as Hall.
  { rewrite Hperm. apply Forall_fmap, Forall_forall. intros k Hk. cbn.
    apply regions_elem in Hk as [Hinh (d & -> & Hd)%list_elem_of_fmap].
    split; [done|]. split; [done|]. split; [done|].
    apply elem_of_app in Hd as [Hd|Hd].
    - assert (d ∈ filter (λ d', location_of d' = location_of d) athletes) as Hin
        by (by apply list_elem_of_filter).
      unfold located. destruct (filter _ athletes); [by apply elem_of_nil in Hin|].
      simpl. lia.
    - assert (d ∈ filter (λ d', location_of d' = location_of d) events) as Hin
        by (by apply list_elem_of_filter).
      unfold located at 2. destruct (filter _ events); [by apply elem_of_nil in Hin|].
      simpl. lia. }
  assert (∀ docs (count : RegionalData.t → Z),
            (∀ k, count (region_entry athletes events k) = Z.of_nat (located k docs)) →
            Zsum (count <$> ranking athletes events)
            = Z.of_nat (length (filter (λ d, location_of d ∈ regions athletes events) docs)))
    as Hsum.
  { intros docs count Hcount.
    rewrite (Zsum_perm _ (count <$> (region_entry athletes events
                                       <$> regions athletes events)))
      by (by rewrite Hperm).
    rewrite <- list_fmap_compose, <- sum_located by done.
    f_equal. apply list_fmap_ext. intros i k _. apply Hcount. }
  assert (∀ count : RegionalData.t → Z,
            Forall (λ r, 0 ≤ count r) (ranking athletes events) →
            Zsum (count <$> take 10 (ranking athletes events))
            ≤ Zsum (count <$> ranking athletes events)) as Htake.
  { intros count Hpos. rewrite fmap_take. apply Zsum_take. by apply Forall_fmap. }
  split_and!.
  - rewrite fmap_take.
    apply (sublist_NoDup _ (RegionalData.name <$> ranking athletes events));
      [by rewrite Hnames|apply sublist_take].
  - rewrite <- (take_drop 10 (ranking athletes events)) in Hall.
    by apply Forall_app in Hall as [? _].
  - etransitivity; [apply Htake|].
    + eapply Forall_impl; [exact Hall|]. intros r (_ & -> & _). lia.
    + rewrite (Hsum athletes) by done. pose proof (length_filter
        (λ d, location_of d ∈ regions athletes events) athletes). lia.
  - etransitivity; [apply Htake|].
    + eapply Forall_impl; [exact Hall|]. intros r (_ & _ & -> & _). lia.
    + rewrite (Hsum events) by done. pose proof (length_filter
        (λ d, location_of d ∈ regions athletes events) events). lia.
  - intros r k Hr Hk Hinh Hout.
    assert (region_entry athletes events k ∈ ranking athletes events) as Hin.
    { rewrite Hperm. apply list_elem_of_fmap. exists k. split; [done|].
      by apply regions_elem. }
    rewrite <- (take_drop 10 (ranking athletes events)) in Hin.
    apply elem_of_app in Hin as [Hin|Hin].
    { exfalso. apply Hout. apply list_elem_of_fmap.
      by exists (region_entry athletes events k). }
    pose proof (Array_sort_sorted by_athletes_desc RegionalData.athletes
                  ltac:(done)
                  (region_entry athletes events
                     <$> enumeration_order (regions athletes events))) as Hsorted.
    fold (ranking athletes events) in Hsorted.
    rewrite <- (take_drop 10 (ranking athletes events)) in Hsorted.
    by apply (StronglySorted_app_1_elem_of _ _ _ _ _ Hsorted Hr Hin).
  - intros Hlen Hown.
    rewrite take_ge by (rewrite ranking_length; lia).
    rewrite (Hsum athletes) by done. f_equal. f_equal.
    apply filter_all. eapply Forall_forall. intros d Hd.
    apply regions_elem. split.
    + rewrite Forall_forall in Hown. by apply Hown.
    + apply list_elem_of_fmap. exists d. split; [done|]. apply elem_of_app. by left.
Qed.

(** ** The order of the documents in a snapshot *)

Lemma length_filter_perm {A} (P : A → Prop) `{∀ x, Decision (P x)} (l1 l2 : list A) :
  l1 ≡ₚ l2 → length (filter P l1) = length (filter P l2).
Proof. intros Hp. by rewrite Hp. Qed.

(** X3: the order in which a snapshot delivers its documents does not change
    the level chart nor the growth chart; it leaves the regional chart the
    same up to the order of its rows as long as at most ten regions exist,
    and it can change that order: two athletes of two regions read in the
    opposite order give the two rows in the opposite order. *)
Theorem charts_and_document_order (getMonth : Z → Z) (now : Z) :
  (∀ athletes athletes' : list Doc,
     athletes ≡ₚ athletes' →
     fetchLevelData (Some athletes) = fetchLevelData (Some athletes'))
  ∧ (∀ athletes athletes' events events' : list Doc,
       athletes ≡ₚ athletes' → events ≡ₚ events' →
       fetchGrowthData getMonth now (Some athletes) (Some events)
       = fetchGrowthData getMonth now (Some athletes') (Some events'))
  ∧ (∀ athletes athletes' events events' : list Doc,
       athletes ≡ₚ athletes' → events ≡ₚ events' →
       (length (regions athletes events) ≤ 10)%nat →
       fetchRegionalData (Some athletes) (Some events)
       ≡ₚ fetchRegionalData (Some athletes') (Some events'))
  ∧ fetchRegionalData (Some [located_at "Bong"; located_at "Lofa"]) (Some [])
    ≠ fetchRegionalData (Some [located_at "Lofa"; located_at "Bong"]) (Some []).
Proof.
  split_and!.
  - intros athletes athletes' Hp. unfold fetchLevelData, JS.get.
    rewrite !(foldl_count_level_lookup athletes levelCounts0 _ 0) by done.
    rewrite !(foldl_count_level_lookup athletes' levelCounts0 _ 0) by done.
    unfold with_level. by rewrite !(length_filter_perm _ _ _ Hp).
  - intros athletes athletes' events events' Ha He. unfold fetchGrowthData.
    rewrite !monthlyData_of_window. f_equal. apply list_fmap_ext.
    intros i k _. unfold month_counts, in_month.
    by rewrite (length_filter_perm _ _ _ Ha), (length_filter_perm _ _ _ He).
  - intros athletes athletes' events events' Ha He Hle.
    rewrite !fetchRegionalData_ranking.
    assert (ranking athletes events ≡ₚ ranking athletes' events') as Hr.
    { unfold ranking. rewrite !Array_sort_perm, !enumeration_order_perm.
      assert (regions athletes events ≡ₚ regions athletes' events') as Hreg.
      { apply NoDup_Permutation; [apply first_seen_NoDup..|].
        intros k. rewrite !regions_elem. by rewrite Ha, He. }
      rewrite Hreg.
      rewrite (list_fmap_ext (region_entry athletes events)
                 (region_entry athletes' events') (regions athletes' events'));
        [done|].
      intros i k _. unfold region_entry, located.
      by rewrite (length_filter_perm _ _ _ Ha), (length_filter_perm _ _ _ He). }
    rewrite (take_ge (ranking athletes events)) by (rewrite ranking_length; lia).
    rewrite take_ge; [by rewrite Hr|].
    rewrite <- Hr, ranking_length. lia.
  - by vm_compute.
Qed.

(** ** Degraded dashboard statistics *)

Lemma catch_zero_default p : catch_ p zero_count = Some (default 0 p).
Proof. by destruct p. Qed.

Lemma fetchDashboardStats_unfold {tz : TimeZone} db now :
  ∃ contacts,
    contactSubmissionsCount db = Some contacts
    ∧ fetchDashboardStats db now
      = Some
          (let usersCount := default 0 (count db all_users_query) in
           let programsCount :=
             default 0 (count db (query (collection "programs")
                                    [where_ "status" OpEq (VStr "active")])) in
           let certificatesCount :=
             default 0 (count db (query (collection "certificates") [])) in
           let admissionsCount :=
             default 0 (count db (query (collection "admissionApplications") [])) in
           let blogPostsCount := default 0 (count db (query (collection "blogPosts") [])) in
           let athletesCount := default 0 (count db (query (collection "athletes") [])) in
           let scoutedAthletesCount :=
             default 0 (count db (query (collection "athletes")
                                    [where_ "status" OpEq (VStr "scouted")])) in
           default
             (DashboardStats.mk usersCount programsCount 0 0 certificatesCount
                admissionsCount blogPostsCount athletesCount scoutedAthletesCount
                0 0 contacts)
             (dashboard_stats_body db now usersCount programsCount
                (default 0 (count db all_tasks_query)) certificatesCount
                admissionsCount blogPostsCount athletesCount scoutedAthletesCount
                contacts)).
Proof.
  rewrite contactSubmissionsCount_first_success. eexists. split; [done|].
  unfold fetchDashboardStats.
  rewrite !catch_zero_default, contactSubmissionsCount_first_success. simpl.
  by destruct (dashboard_stats_body _ _ _ _ _ _ _ _ _ _ _).
Qed.

Lemma dashboard_stats_body_unfold {tz : TimeZone} db now a1 a2 tasks a4 a5 a6 a7 a8 contacts :
  dashboard_stats_body db now a1 a2 tasks a4 a5 a6 a7 a8 contacts
  = completed ← count db completed_tasks_query;
    upcoming ←
      match count db (upcoming_events_query now) with
      | Some n => if decide (n = 0) then count db all_events_query else Some n
      | None => count db all_events_query
      end;
    recent ← count db (recent_registrations_query now);
    Some (DashboardStats.mk a1 a2 upcoming (percentage completed tasks) a4 a5 a6 a7 a8
            (default 0 (count db training_programs_query)) recent contacts).
Proof.
  unfold dashboard_stats_body.
  fold completed_tasks_query (upcoming_events_query now) all_events_query
    (recent_registrations_query now) training_programs_query.
  destruct (count db completed_tasks_query); simpl; [|done].
  destruct (count db (upcoming_events_query now)) as [n|]; simpl.
  - destruct (decide (n = 0)); simpl.
    + destruct (count db all_events_query); simpl; [|done]. done.
    + done.
  - destruct (count db all_events_query); simpl; [|done]. done.
Qed.

(** X5: [fetchDashboardStats] always fulfils. The seven fields taken
    directly from the first batch of counts are reported as read, a rejected
    count as 0. If the count of
    completed tasks or of recent registrations rejects, or the count of
    upcoming events yields nothing positive and the fallback count of all
    events rejects, then the four later fields (upcoming events, tasks
    completed, recent registrations, active training programs) are all
    reported as 0, whatever was read for them. Otherwise upcoming events is
    the count of upcoming events when positive and the count of all events
    when not, and the other three are computed from their counts. The count
    of users created after the instant seven days ago (with [>]) is issued,
    its result never used. *)
Theorem fetchDashboardStats_degrades {tz : TimeZone} (db : Firestore) (now : Z) :
  ∃ stats,
    fetchDashboardStats db now = Some stats
    ∧ first_batch_of db stats
    ∧ (count db completed_tasks_query = None
       ∨ count db (recent_registrations_query now) = None
       ∨ ((count db (upcoming_events_query now) = None
           ∨ count db (upcoming_events_query now) = Some 0)
          ∧ count db all_events_query = None) →
       second_batch_blank stats)
    ∧ (∀ completed recent,
         count db completed_tasks_query = Some completed →
         count db (recent_registrations_query now) = Some recent →
         (∀ n, count db (upcoming_events_query now) = Some n → 0 < n →
               DashboardStats.upcomingEvents stats = n
               ∧ DashboardStats.tasksCompleted stats
                 = percentage completed (default 0 (count db all_tasks_query))
               ∧ DashboardStats.recentRegistrations stats = recent
               ∧ DashboardStats.activeTrainingPrograms stats
                 = default 0 (count db training_programs_query))
         ∧ (∀ m, count db (upcoming_events_query now) = None
                 ∨ count db (upcoming_events_query now) = Some 0 →
                 count db all_events_query = Some m →
                 DashboardStats.upcomingEvents stats = m
                 ∧ DashboardStats.tasksCompleted stats
                   = percentage completed (default 0 (count db all_tasks_query))
                 ∧ DashboardStats.recentRegistrations stats = recent
                 ∧ DashboardStats.activeTrainingPrograms stats
                   = default 0 (count db training_programs_query)))
    ∧ (∀ db' : Firestore,
         (∀ q, q ≠ registered_after_query now →
               getCountFromServer db' q = getCountFromServer db q) →
         fetchDashboardStats db' now = Some stats).
Proof.
  destruct (fetchDashboardStats_unfold db now) as (contacts & Hc & E).
  eexists. split; [exact E|]. clear E. cbv zeta.
  rewrite dashboard_stats_body_unfold. split_and!.
  - unfold first_batch_of.
    destruct (_ ≫= _) as [s|] eqn:Eb; simpl; [|done].
    repeat match type of Eb with
           | context [mbind _ ?p] => destruct p; simpl in Eb; [|discriminate]
           end.
    by injection Eb as <-.
  - unfold second_batch_blank. intros [-> | [H | [H ->]]]; [done| |].
    + rewrite H. destruct (count db completed_tasks_query); simpl; [|done].
      destruct (count db (upcoming_events_query now)) as [n|];
        [destruct (decide (n = 0))|]; simpl; try done;
        by destruct (count db all_events_query).
    + destruct (count db completed_tasks_query); simpl; [|done].
      by destruct H as [-> | ->].
  - intros completed recent -> ->. simpl. split.
    + intros n -> Hn. rewrite decide_False by lia. done.
    + intros m [-> | ->] ->; done.
  - intros db' Hdb'.
    assert (∀ q, q ≠ registered_after_query now → count db' q = count db q) as Hq.
    { intros q Hne. unfold count. by rewrite Hdb'. }
    destruct (fetchDashboardStats_unfold db' now) as (contacts' & Hc' & E').
    rewrite E'. cbv zeta. rewrite dashboard_stats_body_unfold.
    rewrite contactSubmissionsCount_first_success in Hc, Hc'.
    injection Hc as <-. injection Hc' as <-.
    unfold contact_collections. simpl.
    rewrite !Hq by done. done.
Qed.

(** ** The percentage of completed tasks *)

Lemma count_db_tasks_completed completed total :
  0 ≤ completed →
  count (db_tasks completed total) completed_tasks_query = Some completed.
Proof.
  intros H. unfold count, db_tasks; cbn [getCountFromServer].
  rewrite decide_True by done. cbn [fmap option_fmap option_map].
  by rewrite Z2Nat.id.
Qed.

Lemma count_db_tasks_other completed total q :
  q ≠ completed_tasks_query → 0 ≤ total →
  count (db_tasks completed total) q = Some total.
Proof.
  intros Hq H. unfold count, db_tasks; cbn [getCountFromServer].
  rewrite decide_False by done. cbn [fmap option_fmap option_map].
  by rewrite Z2Nat.id.
Qed.

Lemma db_tasks_counts completed total q :
  is_Some (getCountFromServer (db_tasks completed total) q).
Proof. unfold db_tasks; cbn [getCountFromServer]. case_decide; by eexists. Qed.

(** [tasksCompleted] is the percentage of the completed among all tasks
    whenever the [try] block of the statistics runs to its end. *)
Lemma dashboard_tasksCompleted {tz : TimeZone} db now completed :
  count db completed_tasks_query = Some completed →
  is_Some (count db (recent_registrations_query now)) →
  is_Some (count db all_events_query)
  ∨ (∃ n, count db (upcoming_events_query now) = Some n ∧ n ≠ 0) →
  ∃ stats,
    fetchDashboardStats db now = Some stats
    ∧ DashboardStats.tasksCompleted stats
      = percentage completed (default 0 (count db all_tasks_query)).
Proof.
  intros Hc [recent Hr] Hevents.
  destruct (fetchDashboardStats_unfold db now) as (contacts & _ & ->).
  cbv zeta. rewrite dashboard_stats_body_unfold, Hc, Hr.
  assert (∃ upcoming,
            match count db (upcoming_events_query now) with
            | Some n => if decide (n = 0) then count db all_events_query else Some n
            | None => count db all_events_query
            end = Some upcoming) as [upcoming ->].
  { destruct Hevents as [[m Hm]|(n & Hn & Hpos)].
    - rewrite Hm. destruct (count db (upcoming_events_query now)) as [n|]; [|by eexists].
      case_decide; by eexists.
    - rewrite Hn, decide_False by done. by eexists. }
  eexists. split; [reflexivity|]. reflexivity.
Qed.

(** [completionRate] is that percentage whenever the counts fulfil. *)
Lemma analytics_completionRate {tz : TimeZone} format db now :
  (∀ q, is_Some (getCountFromServer db q)) →
  ∃ r completed total,
    getAnalyticsData_fetchData format db now = Some r
    ∧ count db completed_tasks_query = Some completed
    ∧ count db all_tasks_query = Some total
    ∧ AnalyticsData.completionRate r = percentage completed total.
Proof.
  intros Hdb.
  destruct (getAnalyticsData_fetchData_total format db now Hdb) as [r Hr].
  exists r, (AnalyticsData.completedTasks r), (AnalyticsData.totalTasks r).
  split; [done|]. by apply analytics_fields in Hr as (? & ? & ? & _).
Qed.

(** C3, as stated, fails for large counts: with 33137618052154 completed
    tasks of 56645500943853 the exact percentage lies below 58.5, the
    double [(n / d) * 100] is 58.5, and both [tasksCompleted] and
    [completionRate] are 59, which is not the nearest integer.  At an
    exact half the doubles can also end below it: 23 of 40 is 57.5 and
    gives 57. *)
Lemma percentage_not_nearest_beyond_2_44 :
  0 ≤ 33137618052154 ≤ 56645500943853
  ∧ 2 * (100 * 33137618052154) < (2 * 58 + 1) * 56645500943853
  ∧ percentage 33137618052154 56645500943853 = 59
  ∧ 2 * (100 * 23) = (2 * 57 + 1) * 40
  ∧ percentage 23 40 = 57
  ∧ (∃ stats,
       fetchDashboardStats (tz := utc) (db_tasks 33137618052154 56645500943853) 0
       = Some stats
       ∧ DashboardStats.tasksCompleted stats = 59)
  ∧ (∃ r,
       getAnalyticsData_fetchData (tz := utc) (λ _, "")
         (db_tasks 33137618052154 56645500943853) 0 = Some r
       ∧ AnalyticsData.completionRate r = 59).
Proof.
  assert (percentage 33137618052154 56645500943853 = 59) as Hp by (by vm_compute).
  split; [lia|]. split; [lia|]. split; [exact Hp|].
  split; [lia|]. split; [by vm_compute|]. split.
  - destruct (dashboard_tasksCompleted (tz := utc)
                (db_tasks 33137618052154 56645500943853) 0 33137618052154)
      as (stats & Hs & Ht).
    + apply count_db_tasks_completed. lia.
    + rewrite count_db_tasks_other; [by eexists|discriminate|lia].
    + left. rewrite count_db_tasks_other; [by eexists|discriminate|lia].
    + exists stats. split; [exact Hs|].
      rewrite Ht, count_db_tasks_other; [exact Hp|discriminate|lia].
  - destruct (analytics_completionRate (tz := utc) (λ _, "")
                (db_tasks 33137618052154 56645500943853) 0)
      as (r & completed & total & Hr & Hc & Ht & Hrate).
    + apply db_tasks_counts.
    + exists r. split; [exact Hr|].
      rewrite count_db_tasks_completed in Hc by lia.
      rewrite count_db_tasks_other in Ht; [|discriminate|lia].
      injection Hc as <-. injection Ht as <-. by rewrite Hrate.
Qed.

(** C3, amended: the percentage behind [tasksCompleted] and
    [completionRate] is [Math.round] of the double [(n / d) * 100], the
    integer nearest to that double (halves go up).  Whenever the numerator
    is between 0 and the denominator it lies in [0, 100], and for
    denominators up to 2^44 it is an integer nearest to the exact quotient
    numerator / denominator * 100; with denominator 0 it is 0 for every
    numerator.  [tasksCompleted] is this percentage of the completed and
    the total task counts whenever the block that computes it runs to its
    end, and [completionRate] whenever the counts of the analytics
    fulfil. *)
Theorem percentage_rounding {tz : TimeZone} :
  (∀ n d, 0 ≤ n ≤ d → 0 ≤ percentage n d ≤ 100)
  ∧ (∀ n d, 0 ≤ n ≤ d → 0 < d ≤ 2 ^ 44 →
       - d ≤ 2 * (percentage n d * d - 100 * n) ≤ d)
  ∧ (∀ n d, 0 < d →
       percentage n d
       = JS.Math_round (JS.multiply (JS.divide (JS.int n) (JS.int d)) (JS.int 100)))
  ∧ (∀ m k, 0 < k →
       2 * 2 ^ k * JS.Math_round (m, - k) ≤ 2 * m + 2 ^ k
       < 2 * 2 ^ k * (JS.Math_round (m, - k) + 1))
  ∧ (∀ m e, 0 ≤ e → JS.Math_round (m, e) = m * 2 ^ e)
  ∧ (∀ x, percentage x 0 = 0)
  ∧ (∀ db now completed,
       count db completed_tasks_query = Some completed →
       is_Some (count db (recent_registrations_query now)) →
       is_Some (count db all_events_query)
       ∨ (∃ n, count db (upcoming_events_query now) = Some n ∧ n ≠ 0) →
       ∃ stats,
         fetchDashboardStats db now = Some stats
         ∧ DashboardStats.tasksCompleted stats
           = percentage completed (default 0 (count db all_tasks_query)))
  ∧ (∀ format db now,
       (∀ q, is_Some (getCountFromServer db q)) →
       ∃ r completed total,
         getAnalyticsData_fetchData format db now = Some r
         ∧ count db completed_tasks_query = Some completed
         ∧ count db all_tasks_query = Some total
         ∧ AnalyticsData.completionRate r = percentage completed total).
Proof.
  split_and!.
  - apply percentage_range.
  - intros n d Hnd Hd. unfold percentage.
    destruct (Z.ltb_spec 0 d); [|lia]. by apply ratio_percent_nearest.
  - intros n d Hd. unfold percentage. by destruct (Z.ltb_spec 0 d); [|lia].
  - intros m k Hk. by apply Math_round_spec.
  - intros m e He. simpl. by destruct (Z.leb_spec 0 e); [|lia].
  - done.
  - apply dashboard_tasksCompleted.
  - apply analytics_completionRate.
Qed.

Lemma percentage_rounding_witness :
  0 ≤ percentage 23 40 ≤ 100
  ∧ - 40 ≤ 2 * (percentage 23 40 * 40 - 100 * 23) ≤ 40
  ∧ percentage 7 0 = 0
  ∧ (∃ stats,
       fetchDashboardStats (tz := utc) (db_tasks 23 40) 0 = Some stats
       ∧ DashboardStats.tasksCompleted stats = 57)
  ∧ (∃ r,
       getAnalyticsData_fetchData (tz := utc) (λ _, "") (db_tasks 23 40) 0 = Some r
       ∧ AnalyticsData.completionRate r = 57).
Proof.
  destruct (percentage_rounding (tz := utc))
    as (Hrange & Hnearest & _ & _ & _ & Hzero & Hstats & Hanalytics).
  split; [|split; [|split; [|split]]].
  - apply (Hrange 23 40). lia.
  - apply (Hnearest 23 40); [lia|]. split; [lia|]. by vm_compute.
  - apply (Hzero 7).
  - destruct (Hstats (db_tasks 23 40) 0 23) as (stats & Hs & Ht);
      [reflexivity|by eexists|left; by eexists|].
    exists stats. split; [exact Hs|]. rewrite Ht. by vm_compute.
  - destruct (Hanalytics (λ _, "") (db_tasks 23 40) 0)
      as (r & completed & total & Hr & Hc & Ht & Hrate);
      [apply db_tasks_counts|].
    exists r. split; [exact Hr|].
    injection Hc as <-. injection Ht as <-. rewrite Hrate. by vm_compute.
Defined.

(** ** Recent activity *)

Lemma slice0_sublist {A} end_ (arr : list A) : JS.slice0 end_ arr `sublist_of` arr.
Proof. unfold JS.slice0. destruct (end_ <? 0); apply sublist_take. Qed.

Lemma slice0_length {A} end_ (arr : list A) :
  Z.of_nat (length (JS.slice0 end_ arr))
  = if end_ <? 0 then Z.max 0 (Z.of_nat (length arr) + end_)
    else Z.min end_ (Z.of_nat (length arr)).
Proof.
  unfold JS.slice0. destruct (Z.ltb_spec end_ 0); rewrite length_take; lia.
Qed.

Lemma slice0_prefix {A} end_ (arr : list A) :
  ∃ rest, arr = JS.slice0 end_ arr ++ rest.
Proof.
  unfold JS.slice0. destruct (end_ <? 0); eexists; symmetry; apply take_drop.
Qed.

(** X6: [fetchRecentActivity(limitCount)] returns the activities pushed from
    the six collections sorted from newest to oldest and cut by
    [slice(0, limitCount)]: [min(limitCount, pushed)] of them for a limit that
    is not negative, all but the last [-limitCount] for a negative one. Every
    activity returned is at least as recent as every one left out,
    activities with the same timestamp keep the order in which they were
    pushed, and as many activities are pushed as the six reads return
    documents, a read that rejects counting for none. *)
Theorem fetchRecentActivity_newest (now : Z)
    (getDocs : Query → option (list ActivityDoc.t)) (limitCount : Z) :
  let pushed := activities now getDocs in
  let result := fetchRecentActivity now getDocs limitCount in
  (0 ≤ limitCount →
   Z.of_nat (length result) = Z.min limitCount (Z.of_nat (length pushed)))
  ∧ (limitCount < 0 →
     Z.of_nat (length result) = Z.max 0 (Z.of_nat (length pushed) + limitCount))
  ∧ StronglySorted
      (λ a b, RecentActivity.timestamp b ≤ RecentActivity.timestamp a) result
  ∧ (∃ rest, result ++ rest ≡ₚ pushed
             ∧ ∀ a b, a ∈ result → b ∈ rest →
                 RecentActivity.timestamp b ≤ RecentActivity.timestamp a)
  ∧ (∀ t, ∃ n,
       filter (λ a, RecentActivity.timestamp a = t) result
       = take n (filter (λ a, RecentActivity.timestamp a = t) pushed))
  ∧ (length pushed
     = length (recent_docs getDocs "users" "createdAt")
       + length (recent_docs getDocs "programs" "createdAt")
       + length (recent_docs getDocs "events" "startDate")
       + length (recent_docs getDocs "athletes" "createdAt")
       + length (recent_docs getDocs "trainingSessions" "startDate")
       + length (recent_docs getDocs "contactSubmissions" "createdAt"))%nat.
Proof.
  cbv zeta. unfold fetchRecentActivity.
  set (pushed := activities now getDocs).
  set (sorted := JS.Array_sort (newest_first) pushed).
  assert (sorted ≡ₚ pushed) as Hperm by apply Array_sort_perm.
  assert (StronglySorted
            (λ a b, RecentActivity.timestamp b ≤ RecentActivity.timestamp a) sorted)
    as Hsorted by (by apply (Array_sort_sorted newest_first)).
  destruct (slice0_prefix limitCount sorted) as [rest Hrest].
  assert (length sorted = length pushed) as Hlen by (by rewrite Hperm).
  split_and!.
  - intros Hl. rewrite slice0_length, Hlen.
    destruct (Z.ltb_spec limitCount 0); lia.
  - intros Hl. rewrite slice0_length, Hlen.
    destruct (Z.ltb_spec limitCount 0); lia.
  - rewrite Hrest in Hsorted. by apply StronglySorted_app_1_l in Hsorted.
  - exists rest. split; [by rewrite <- Hrest|].
    intros a b Ha Hb. rewrite Hrest in Hsorted.
    by apply (StronglySorted_app_1_elem_of _ _ _ _ _ Hsorted Ha Hb).
  - intros t.
    pose proof (Array_sort_stable newest_first RecentActivity.timestamp
                  ltac:(done) t pushed) as Hstable.
    fold sorted in Hstable. rewrite <- Hstable.
    generalize dependent (JS.slice0 limitCount sorted). intros res ->.
    exists (length (filter (λ a, RecentActivity.timestamp a = t) res)).
    by rewrite filter_app, take_app_length.
  - unfold pushed, activities. rewrite !length_app, !length_fmap. lia.
Qed.

Lemma fetchRecentActivity_newest_witness :
  Z.of_nat (length (fetchRecentActivity 0 (λ _, Some [ActivityDoc.mk "a" None None None None None None (Some 5) (Some 7)]) 4)) = 4.
Proof.
  destruct (fetchRecentActivity_newest 0
              (λ _, Some [ActivityDoc.mk "a" None None None None None None (Some 5) (Some 7)])
              4) as (H & _).
  rewrite H by lia. by vm_compute.
Defined.

(** The identifiers of activities of different kinds differ in their first
    letter. *)
Lemma prefixed_NoDup (prefix : string) (l : list ActivityDoc.t) :
  NoDup (ActivityDoc.id <$> l) → NoDup ((λ d, prefix +:+ ActivityDoc.id d) <$> l).
Proof.
  intros Hnd. rewrite (list_fmap_compose ActivityDoc.id (String.app prefix)).
  by apply (NoDup_fmap_2 _).
Qed.

Lemma fmap_disjoint {A} (f g : A → string) (l1 l2 : list A) x :
  (∀ a b, f a ≠ g b) → x ∈ f <$> l1 → x ∉ g <$> l2.
Proof.
  intros Hfg (a & -> & _)%list_elem_of_fmap (b & Hb & _)%list_elem_of_fmap.
  by apply (Hfg a b).
Qed.

(** X7: the identifiers of the activities returned by [fetchRecentActivity]
    are pairwise distinct, provided that the documents read from each
    collection have distinct identifiers: the prefixes [user-], [program-],
    [event-], [athlete-], [training-] and [contact-] keep the six kinds
    apart. *)
Theorem fetchRecentActivity_ids (now : Z)
    (getDocs : Query → option (list ActivityDoc.t)) (limitCount : Z) :
  (∀ name field, NoDup (ActivityDoc.id <$> recent_docs getDocs name field)) →
  NoDup (RecentActivity.id <$> fetchRecentActivity now getDocs limitCount).
Proof.
  intros Hids. unfold fetchRecentActivity.
  eapply (sublist_NoDup _ (RecentActivity.id <$> JS.Array_sort (newest_first)
                             (activities now getDocs))).
  2: { apply fmap_sublist, slice0_sublist. }
  rewrite Array_sort_perm. unfold activities.
  rewrite !fmap_app, <- !list_fmap_compose.
  repeat (apply NoDup_app; split; [apply (prefixed_NoDup _ _ (Hids _ _))|];
          split;
          [intros x Hx; rewrite ?not_elem_of_app; repeat split;
           (eapply fmap_disjoint; [|exact Hx]; intros ? ?; cbn; discriminate)|]).
  apply (prefixed_NoDup _ _ (Hids _ _)).
Qed.

Lemma fetchRecentActivity_ids_witness :
  NoDup (RecentActivity.id
           <$> fetchRecentActivity 0
                 (λ _, Some [ActivityDoc.mk "a" None None None None None None (Some 5)
                               (Some 7)]) 10).
Proof.
  apply fetchRecentActivity_ids. intros name field. cbn. apply NoDup_singleton.
Defined.

(** ** Day arrays in general *)

(** X10: [getDaysArray(start, end)] is empty when [end] precedes [start];
    otherwise it begins with [start], each further entry is the entry
    before it moved by [setDate(getDate() + 1)], and the last entry is the
    one whose next day lies after [end].  Every entry lies between [start]
    and [end].  Where the zone keeps one offset from [start] to a day
    after [end], the entries are [start + k] days and there are
    [floor((end - start) / day) + 1] of them. *)
Theorem getDaysArray_days {tz : TimeZone} (start end_ : Z) :
  let days := getDaysArray start end_ in
  (end_ < start → days = [])
  ∧ (start ≤ end_ →
       head days = Some start
       ∧ ∃ final, last days = Some final ∧ final ≤ end_ < setDate_plus final 1)
  ∧ (∀ k d, days !! k = Some d → d = day_from start k ∧ start ≤ d ≤ end_)
  ∧ (∀ k d d', days !! k = Some d → days !! S k = Some d' → d' = setDate_plus d 1)
  ∧ (∀ offset lo hi,
       keeps_offset offset lo hi → lo ≤ start ≤ end_ → end_ + MS_PER_DAY ≤ hi →
       Z.of_nat (length days) = (end_ - start) `div` MS_PER_DAY + 1
       ∧ ∀ k d, days !! k = Some d → d = start + Z.of_nat k * MS_PER_DAY).
Proof.
  assert (0 < MS_PER_DAY) as Hday by done.
  cbv zeta.
  destruct (getDaysArray_days_from start end_) as (n & Hdays & Hle & Hgt).
  assert (∀ k d, getDaysArray start end_ !! k = Some d →
                 (k < n)%nat ∧ d = day_from start k) as Hlookup.
  { intros k d Hk. rewrite Hdays, list_lookup_fmap in Hk.
    destruct (seq 0 n !! k) as [k'|] eqn:E; [|done].
    apply lookup_seq in E as [-> Hlt]. simpl in Hk. by injection Hk as <-. }
  split_and!.
  - intros Hlt. destruct n as [|n]; [by rewrite Hdays|].
    pose proof (Hle 0%nat ltac:(lia)) as H0. unfold day_from in H0. simpl in H0. lia.
  - intros Hstart. destruct n as [|n].
    { unfold day_from in Hgt. simpl in Hgt. lia. }
    rewrite Hdays. split; [done|]. exists (day_from start n).
    rewrite seq_S, fmap_app, list_fmap_singleton, last_snoc.
    split; [done|]. split; [apply Hle; lia|apply Hgt].
  - intros k d Hk. apply Hlookup in Hk as [Hk ->]. split; [done|].
    split; [apply (day_from_mono start 0 k); lia|by apply Hle].
  - intros k d d' Hk Hk'.
    apply Hlookup in Hk as [_ ->]. by apply Hlookup in Hk' as [_ ->].
  - intros offset lo hi Hsteady Hstart Hend.
    rewrite (steady_getDaysArray _ _ _ Hsteady) by done.
    pose proof (Z.div_pos (end_ - start) MS_PER_DAY ltac:(lia) Hday) as Hq.
    rewrite length_fmap, length_seq, Z2Nat.id by lia. split; [done|].
    intros k d Hk. rewrite list_lookup_fmap in Hk.
    destruct (seq _ _ !! k) as [k'|] eqn:E; [|done].
    apply lookup_seq in E as [-> Hlt]. simpl in Hk. by injection Hk as <-.
Qed.

Lemma getDaysArray_days_witness :
  getDaysArray (tz := eastern_2025) 1741453200000 1741626000000
  = [1741453200000; 1741453200000 + 23 * MS_PER_HOUR;
     1741453200000 + 23 * MS_PER_HOUR + MS_PER_DAY]
  ∧ Z.of_nat (length (getDaysArray (tz := eastern_2025) 1751385600000 1751644800000))
    = 4.
Proof.
  split; [by vm_compute|].
  destruct (getDaysArray_days (tz := eastern_2025) 1751385600000 1751644800000)
    as (_ & _ & _ & _ & H).
  destruct (H (-4 * MS_PER_HOUR) 1751385600000 (1751644800000 + MS_PER_DAY))
    as [-> _]; [|lia|lia|by vm_compute].
  apply eastern_summer; by vm_compute.
Defined.

(** ** The day ranges of the daily series *)

Section day_ranges.
Context {tz : TimeZone} (offset now : Z).
Hypothesis Hsteady : keeps_offset offset (now - 30 * MS_PER_DAY) (now + MS_PER_DAY).

Lemma window_startOfDay date :
  now - 29 * MS_PER_DAY ≤ date ≤ now →
  startOfDay date = (date + offset) `div` MS_PER_DAY * MS_PER_DAY - offset
  ∧ endOfDay date = startOfDay date + MS_PER_DAY - 1.
Proof.
  assert (0 < MS_PER_DAY) as Hday by done.
  intros Hdate.
  pose proof (Z.div_mod (date + offset) MS_PER_DAY ltac:(lia)).
  rewrite (steady_startOfDay _ _ _ Hsteady), (steady_endOfDay _ _ _ Hsteady) by lia.
  lia.
Qed.

Lemma in_day_iff date t :
  now - 29 * MS_PER_DAY ≤ date ≤ now →
  startOfDay date ≤ t ≤ endOfDay date
  ↔ (t + offset) `div` MS_PER_DAY = (date + offset) `div` MS_PER_DAY.
Proof.
  assert (0 < MS_PER_DAY) as Hday by done.
  intros Hdate. destruct (window_startOfDay date Hdate) as [-> ->].
  pose proof (Z.div_mod (t + offset) MS_PER_DAY ltac:(lia)).
  pose proof (Z.mod_pos_bound (t + offset) MS_PER_DAY Hday).
  split.
  - intros [H1 H2]. symmetry.
    apply (Z.div_unique_pos (t + offset) MS_PER_DAY _
             (t + offset - (date + offset) `div` MS_PER_DAY * MS_PER_DAY)); lia.
  - intros <-. lia.
Qed.

End day_ranges.

(** X11: where the offset of the zone does not change over the window, the
    day ranges that [getAnalyticsData] queries neither overlap nor leave a
    gap: every instant from the start of the first day of the window to the
    end of today falls into the range of exactly one of the thirty days. *)
Theorem daily_ranges_partition_window {tz : TimeZone} (now t : Z) :
  steady_window now →
  startOfDay (subDays now 29) ≤ t ≤ endOfDay now →
  ∃ k, (k < 30)%nat
       ∧ getDaysArray (subDays now 29) now !! k = Some (window_day now k)
       ∧ startOfDay (window_day now k) ≤ t ≤ endOfDay (window_day now k)
       ∧ ∀ j, (j < 30)%nat →
           startOfDay (window_day now j) ≤ t ≤ endOfDay (window_day now j) → j = k.
Proof.
  assert (0 < MS_PER_DAY) as Hday by done.
  intros Hwindow Ht.
  destruct (steady_window_days now Hwindow) as [Hsub Hdays].
  destruct Hwindow as [offset Hsteady].
  assert (∀ k, (k < 30)%nat → now - 29 * MS_PER_DAY ≤ window_day now k ≤ now) as Hin.
  { intros k Hk. unfold window_day, MS_PER_DAY. lia. }
  assert (∀ k, (k < 30)%nat →
               (window_day now k + offset) `div` MS_PER_DAY
               = (now + offset) `div` MS_PER_DAY - 29 + Z.of_nat k) as Hcal.
  { intros k Hk. unfold window_day.
    replace (now - 29 * MS_PER_DAY + Z.of_nat k * MS_PER_DAY + offset)
      with (now + offset + (Z.of_nat k - 29) * MS_PER_DAY) by lia.
    rewrite Z.div_add by lia. lia. }
  set (today := (now + offset) `div` MS_PER_DAY) in *.
  assert (today - 29 ≤ (t + offset) `div` MS_PER_DAY ≤ today) as Hq.
  { rewrite Hsub in Ht.
    destruct (window_startOfDay offset now Hsteady (now - 29 * MS_PER_DAY)) as [Hs _];
      [lia|].
    destruct (window_startOfDay offset now Hsteady now) as [Hs' He]; [lia|].
    rewrite Hs in Ht. rewrite He, Hs' in Ht. fold today in Ht.
    assert ((now - 29 * MS_PER_DAY + offset) `div` MS_PER_DAY = today - 29) as H0.
    { replace (now - 29 * MS_PER_DAY + offset)
        with (now + offset + (-29) * MS_PER_DAY) by lia.
      rewrite Z.div_add by lia. unfold today. lia. }
    rewrite H0 in Ht.
    split.
    - apply Z.div_le_lower_bound; lia.
    - assert ((t + offset) `div` MS_PER_DAY < today + 1); [|lia].
      apply Z.div_lt_upper_bound; lia. }
  exists (Z.to_nat ((t + offset) `div` MS_PER_DAY - (today - 29))).
  split; [lia|]. split; [|split].
  - rewrite Hdays, list_lookup_fmap, lookup_seq_lt by lia. done.
  - apply (in_day_iff offset now Hsteady); [apply Hin; lia|]. rewrite Hcal; lia.
  - intros j Hj Hrange. apply (in_day_iff offset now Hsteady) in Hrange; [|by apply Hin].
    rewrite Hcal in Hrange by done. lia.
Qed.

Lemma daily_ranges_partition_window_witness :
  ∃ k, (k < 30)%nat
       ∧ startOfDay (tz := eastern_2025) (window_day 1752595200000 k) ≤ 1751000000000
           ≤ endOfDay (tz := eastern_2025) (window_day 1752595200000 k).
Proof.
  destruct (daily_ranges_partition_window (tz := eastern_2025)
              1752595200000 1751000000000) as (k & Hk & _ & Hin & _).
  - exists (-4 * MS_PER_HOUR). apply eastern_summer; by vm_compute.
  - by vm_compute.
  - exists k. split; [exact Hk|exact Hin].
Defined.

(** ** One failed count fails the analytics *)

Lemma analytics_day_fulfils {tz : TimeZone} format db date :
  is_Some (userGrowth_of_day format db date)
  ∧ is_Some (taskCompletion_of_day format db date)
  ↔ Forall (λ q, is_Some (count db q)) (analytics_day_queries date).
Proof.
  unfold analytics_day_queries, userGrowth_of_day, taskCompletion_of_day.
  rewrite !Forall_cons, Forall_nil.
  destruct (count db (users_created_until _)),
    (count db (users_created_between _ _)),
    (count db (tasks_completed_between _ _)),
    (count db (tasks_due_between _ _)),
    (count db (tasks_due_before _)); simpl;
    split; intros H; repeat split; try done;
    try (by destruct H as [[? ?] [? ?]]);
    try (by destruct H as (H1 & H2 & H3 & H4 & H5 & _);
         first [destruct H1 as [? ?]|destruct H2 as [? ?]|destruct H3 as [? ?]
               |destruct H4 as [? ?]|destruct H5 as [? ?]]).
Qed.

Lemma mapM_days_fulfil {tz : TimeZone} format db days :
  is_Some (mapM (userGrowth_of_day format db) days)
  ∧ is_Some (mapM (taskCompletion_of_day format db) days)
  ↔ Forall (λ q, is_Some (count db q)) (days ≫= analytics_day_queries).
Proof.
  rewrite !mapM_is_Some, Forall_bind, <- Forall_and.
  apply Forall_iff. intros date. apply analytics_day_fulfils.
Qed.

Lemma length_day_queries {tz : TimeZone} days :
  length (days ≫= analytics_day_queries) = (5 * length days)%nat.
Proof.
  induction days as [|d days IH]; [done|].
  rewrite bind_cons, length_app, IH. simpl. lia.
Qed.

(** X12: [getAnalyticsData] issues eight counts for the totals and five for
    every date of [getDaysArray], 158 in all where the offset of the zone
    does not change over the window, and it fulfils exactly when every one
    of them fulfils: a single rejected count rejects the whole fetch, there
    is no partial result. *)
Theorem getAnalyticsData_all_or_nothing {tz : TimeZone} (format : Z → string)
    (db : Firestore) (now : Z) :
  (is_Some (getAnalyticsData_fetchData format db now)
   ↔ Forall (λ q, is_Some (count db q)) (analytics_queries now))
  ∧ (∀ q, q ∈ analytics_queries now → count db q = None →
          getAnalyticsData_fetchData format db now = None)
  ∧ length (analytics_queries now)
    = (8 + 5 * length (getDaysArray (subDays now 29) now))%nat
  ∧ (steady_window now → length (analytics_queries now) = 158%nat).
Proof.
  assert (is_Some (getAnalyticsData_fetchData format db now)
          ↔ Forall (λ q, is_Some (count db q)) (analytics_queries now)) as Hiff.
  { unfold analytics_queries. rewrite Forall_app.
    rewrite <- (mapM_days_fulfil format).
    unfold getAnalyticsData_fetchData. rewrite !Forall_cons, Forall_nil.
    repeat match goal with
           | |- context [mbind _ (count db ?q)] =>
               destruct (count db q); simpl;
               [|split; [by intros [? ?]|intros [H _]; exfalso;
                          repeat match type of H with
                                 | _ ∧ _ => destruct H as [[? ?] H] || destruct H as [? H]
                                 end; done]]
           end.
    destruct (mapM (userGrowth_of_day format db) _); simpl;
      [|split; [by intros [? ?]|by intros [_ [[? ?] _]]]].
    destruct (mapM (taskCompletion_of_day format db) _); simpl;
      [|split; [by intros [? ?]|by intros [_ [_ [? ?]]]]].
    split; [|by eexists]. intros _. repeat split; by eexists. }
  assert (length (analytics_queries now)
          = (8 + 5 * length (getDaysArray (subDays now 29) now))%nat) as Hlen.
  { unfold analytics_queries. rewrite length_app, length_day_queries. simpl. lia. }
  split; [exact Hiff|]. split; [|split; [exact Hlen|]].
  - intros q Hq Hnone. apply eq_None_not_Some. rewrite Hiff, Forall_forall.
    intros Hall. destruct (Hall q Hq) as [n Hn]. congruence.
  - intros Hsteady. rewrite Hlen.
    destruct (steady_window_days now Hsteady) as [_ ->].
    by rewrite length_fmap, length_seq.
Qed.

Lemma getAnalyticsData_all_or_nothing_witness :
  getAnalyticsData_fetchData (tz := eastern_2025) (λ _, "")
    (db_rejecting
       (tasks_due_before (startOfDay (tz := eastern_2025) (window_day 1752595200000 3))))
    1752595200000 = None
  ∧ length (analytics_queries (tz := eastern_2025) 1752595200000) = 158%nat.
Proof.
  destruct (getAnalyticsData_all_or_nothing (tz := eastern_2025) (λ _, "")
              (db_rejecting
                 (tasks_due_before
                    (startOfDay (tz := eastern_2025) (window_day 1752595200000 3))))
              1752595200000) as (_ & H & _ & Hlen).
  split.
  - apply (H (tasks_due_before
                (startOfDay (tz := eastern_2025) (window_day 1752595200000 3)))).
    + compute_done.
    + by vm_compute.
  - apply Hlen. exists (-4 * MS_PER_HOUR). apply eastern_summer; by vm_compute.
Defined.

(** ** Average session duration *)

(** The double [(T / n) / 60] for [0 < T] and [0 < n]. *)
Lemma ratio_over_60 T n :
  0 < T < 2 ^ 52 → 0 < n →
  ∃ m1 k1 m2 k2,
    JS.divide (JS.divide (JS.int T) (JS.int n)) (JS.int 60) = (m2, - k2)
    ∧ 0 < k1 ∧ 0 < k2
    ∧ 2 ^ 52 ≤ m1
    ∧ - n ≤ 2 * (m1 * n - T * 2 ^ k1) ≤ n
    ∧ 2 ^ 52 ≤ m2
    ∧ - (60 * 2 ^ k1) ≤ 2 * (m2 * (60 * 2 ^ k1) - m1 * 2 ^ k2) ≤ 60 * 2 ^ k1.
Proof.
  intros HT Hn.
  destruct (nearest_double_small T n T ltac:(lia) Hn ltac:(nia) ltac:(lia))
    as (m1 & k1 & E1 & Hk1 & Hm1 & Hr1).
  assert (0 < 2 ^ k1) as HD by (apply Z.pow_pos_nonneg; lia).
  destruct (nearest_double_small m1 (60 * 2 ^ k1) T ltac:(lia) ltac:(lia)
              ltac:(nia) ltac:(lia))
    as (m2 & k2 & E2 & Hk2 & Hm2 & Hr2).
  exists m1, k1, m2, k2.
  split; [|by repeat split; try lia].
  unfold JS.divide at 2. unfold JS.int, JS.round_ratio. simpl fst. simpl snd.
  rewrite Z.sub_diag, Z.max_id, Z.pow_0_r, !Z.mul_1_r.
  destruct (Z.eqb_spec n 0); [lia|]. destruct (Z.ltb_spec n 0); [lia|].
  destruct (Z.eqb_spec T 0); [lia|]. destruct (Z.ltb_spec T 0); [lia|].
  rewrite E1. unfold JS.divide, JS.round_ratio. simpl fst. simpl snd.
  rewrite Z.sub_0_r, Z.sub_0_l, Z.opp_involutive.
  rewrite (Z.max_l 0 (- k1)), (Z.max_r 0 k1), Z.pow_0_r, Z.mul_1_r by lia.
  destruct (Z.eqb_spec (60 * 2 ^ k1) 0); [lia|].
  destruct (Z.ltb_spec (60 * 2 ^ k1) 0); [lia|].
  destruct (Z.eqb_spec m1 0); [lia|]. destruct (Z.ltb_spec m1 0); [lia|]. done.
Qed.

(** Two roundings and [Math.round] give an integer nearest to the exact
    quotient [T / (60 * n)] when the two rounding errors are small. *)
Lemma nearest_after_two_divisions T n m1 m2 D G r :
  0 < n → 0 < D → 0 < G →
  - n ≤ 2 * (m1 * n - T * D) ≤ n →
  - (60 * D) ≤ 2 * (m2 * (60 * D) - m1 * G) ≤ 60 * D →
  2 * G * r ≤ 2 * m2 + G < 2 * G * (r + 1) →
  n * (60 * D + G) < D * G →
  - (60 * n) ≤ 2 * (r * (60 * n) - T) ≤ 60 * n.
Proof.
  intros Hn HD HG [Ha1 Ha2] [Hb1 Hb2] [Hr1 Hr2] Hsmall.
  set (A := 2 * (m1 * n - T * D)) in *.
  set (B := 2 * (m2 * (60 * D) - m1 * G)) in *.
  assert (2 * (m2 * (60 * n * D)) - 2 * (T * D * G) = n * B + G * A) as Hid
    by (unfold A, B; ring).
  assert (n * - (60 * D) ≤ n * B ≤ n * (60 * D)) as HB
    by (split; apply Z.mul_le_mono_nonneg_l; lia).
  assert (G * - n ≤ G * A ≤ G * n) as HA
    by (split; apply Z.mul_le_mono_nonneg_l; lia).
  assert (0 < 60 * n * D) as HnD by (apply Z.mul_pos_pos; lia).
  assert (0 < D * G) as HDG by (by apply Z.mul_pos_pos).
  apply (Z.mul_le_mono_nonneg_r _ _ (60 * n * D)) in Hr1; [|lia].
  apply (Z.mul_lt_mono_pos_r (60 * n * D)) in Hr2; [|lia].
  set (S := 2 * (r * (60 * n) - T)).
  assert (2 * G * r * (60 * n * D) = D * G * S + 2 * (T * D * G)) as HS1
    by (unfold S; ring).
  assert (2 * G * (r + 1) * (60 * n * D)
          = D * G * S + 2 * (T * D * G) + 2 * (D * G) * (60 * n)) as HS2
    by (unfold S; ring).
  assert ((2 * m2 + G) * (60 * n * D) = 2 * (m2 * (60 * n * D)) + D * G * (60 * n))
    as HM by ring.
  rewrite HS1, HM in Hr1. rewrite HS2, HM in Hr2.
  assert (n * (60 * D + G) = n * (60 * D) + G * n) as Hw by ring.
  assert (D * G * S < D * G * (60 * n + 1)) as Hup by lia.
  assert (D * G * (- (60 * n) - 1) < D * G * S) as Hlo by lia.
  apply Z.mul_lt_mono_pos_l in Hup, Hlo; lia.
Qed.

Lemma average_minutes_nearest T n :
  0 ≤ T ≤ 2 ^ 44 → 0 < n →
  let r := JS.Math_round (JS.divide (JS.divide (JS.int T) (JS.int n)) (JS.int 60)) in
  - (60 * n) ≤ 2 * (r * (60 * n) - T) ≤ 60 * n.
Proof.
  intros HT Hn. cbv zeta.
  destruct (Z.eq_dec T 0) as [->|HT0].
  { replace (JS.divide (JS.divide (JS.int 0) (JS.int n)) (JS.int 60)) with (0, 0).
    - simpl. lia.
    - unfold JS.divide at 2. unfold JS.int, JS.round_ratio. simpl fst. simpl snd.
      rewrite Z.mul_0_l. destruct (n * _ =? 0); [done|].
      by destruct (n * _ <? 0). }
  destruct (ratio_over_60 T n ltac:(lia) Hn)
    as (m1 & k1 & m2 & k2 & -> & Hk1 & Hk2 & Hm1 & Hr1 & Hm2 & Hr2).
  pose proof (Math_round_spec m2 k2 Hk2) as Hr. cbv zeta in Hr.
  assert (0 < 2 ^ k1) as HD by (apply Z.pow_pos_nonneg; lia).
  assert (0 < 2 ^ k2) as HG by (apply Z.pow_pos_nonneg; lia).
  apply (nearest_after_two_divisions T n m1 m2 (2 ^ k1) (2 ^ k2)); try done.
  set (D := 2 ^ k1) in *. set (G := 2 ^ k2) in *.
  change (2 ^ 44) with 17592186044416 in *.
  change (2 ^ 52) with 4503599627370496 in *.
  (* [255 * n ≤ D]: the first quotient has 53 significant bits *)
  assert (4503599627370496 * n ≤ m1 * n) as Hm1n
    by (apply Z.mul_le_mono_nonneg_r; lia).
  assert (T * D ≤ 17592186044416 * D) as HTD
    by (apply Z.mul_le_mono_nonneg_r; lia).
  assert (255 * n ≤ D) as Ha by lia.
  (* [15000 * n ≤ G]: so has the second *)
  assert (4503599627370496 * (60 * D * n) ≤ m2 * (60 * D * n)) as Hm2n
    by (apply Z.mul_le_mono_nonneg_r; lia).
  assert (2 * (m2 * (60 * D)) * n ≤ (2 * (m1 * G) + 60 * D) * n) as Hb
    by (apply Z.mul_le_mono_nonneg_r; lia).
  assert (2 * (m1 * n) * G ≤ (2 * (T * D) + n) * G) as Hc
    by (apply Z.mul_le_mono_nonneg_r; lia).
  assert (T * (D * G) ≤ 17592186044416 * (D * G)) as HTDG
    by (apply Z.mul_le_mono_nonneg_r; [apply Z.mul_nonneg_nonneg; lia|lia]).
  assert (255 * n * G ≤ D * G) as HaG by (apply Z.mul_le_mono_nonneg_r; lia).
  assert (0 < D * G) as HDG by (by apply Z.mul_pos_pos).
  assert (0 < D * n) as HDn by (by apply Z.mul_pos_pos).
  lia.
Qed.

Lemma engagement_sessions {tz : TimeZone} db now m :
  getUserEngagementMetrics_fetchData db now = Some m →
  ∃ sessions,
    getDocs db (sessions_query now) = Some sessions
    ∧ UserEngagementMetrics.totalSessions m = Z.of_nat (length sessions)
    ∧ UserEngagementMetrics.averageSessionDuration m
      = if 0 <? Z.of_nat (length sessions)
        then JS.Math_round
               (JS.divide
                  (JS.divide (JS.int (totalDuration_of sessions))
                     (JS.int (Z.of_nat (length sessions))))
                  (JS.int 60))
        else 0.
Proof.
  unfold getUserEngagementMetrics_fetchData. intros H.
  fold (sessions_query now) in H.
  repeat match type of H with
         | context [mbind _ ?p] =>
             let n := fresh "n" in let E := fresh "E" in
             destruct p as [n|] eqn:E; simpl in H; [|discriminate]
         end.
  injection H as <-. eexists. split; [done|]. by split.
Qed.

Lemma totalDuration_of_nonneg sessions :
  Forall (λ s, 0 ≤ duration_of s) sessions → 0 ≤ totalDuration_of sessions.
Proof.
  unfold totalDuration_of. intros H.
  assert (∀ acc, 0 ≤ acc →
            0 ≤ foldl (λ sum session, sum + duration_of session) acc sessions) as Hacc.
  { induction H as [|s l Hs _ IH]; intros acc Hacc; simpl; [done|]. apply IH. lia. }
  by apply Hacc.
Qed.

(** X13: [getUserEngagementMetrics] reports as total sessions the number of
    session documents of the last thirty days; the average session duration
    is 0 without sessions, is never negative for durations that are not
    negative, and is within half a minute of (total duration / sessions) / 60
    for a total of at most 2^44 seconds: the seconds are converted to whole
    minutes by [Math.round]. *)
Theorem averageSessionDuration_minutes {tz : TimeZone} (db : Firestore) (now : Z)
    (m : UserEngagementMetrics.t) :
  getUserEngagementMetrics_fetchData db now = Some m →
  ∃ sessions,
    getDocs db (sessions_query now) = Some sessions
    ∧ UserEngagementMetrics.totalSessions m = Z.of_nat (length sessions)
    ∧ (sessions = [] → UserEngagementMetrics.averageSessionDuration m = 0)
    ∧ (Forall (λ s, 0 ≤ duration_of s) sessions →
       0 ≤ UserEngagementMetrics.averageSessionDuration m)
    ∧ (sessions ≠ [] → 0 ≤ totalDuration_of sessions ≤ 2 ^ 44 →
       let n := Z.of_nat (length sessions) in
       let average := UserEngagementMetrics.averageSessionDuration m in
       - (30 * n) ≤ average * (60 * n) - totalDuration_of sessions ≤ 30 * n).
Proof.
  intros H. apply engagement_sessions in H as (sessions & Hs & Hn & Ha).
  exists sessions. split; [done|]. split; [done|]. rewrite Ha. split_and!.
  - by intros ->.
  - intros Hpos. destruct (0 <? _); [|done].
    apply Math_round_nonneg. unfold JS.divide at 1.
    apply round_ratio_nonneg.
    + apply Z.mul_nonneg_nonneg; [|by apply Z.pow_nonneg].
      apply round_ratio_nonneg; simpl.
      * apply Z.mul_nonneg_nonneg; [|by apply Z.pow_nonneg].
        by apply totalDuration_of_nonneg.
      * apply Z.mul_nonneg_nonneg; [lia|by apply Z.pow_nonneg].
    + simpl. apply Z.mul_nonneg_nonneg; [lia|by apply Z.pow_nonneg].
  - intros Hne HT. cbv zeta.
    assert (0 < Z.of_nat (length sessions)) as Hlen by (destruct sessions; [done|simpl; lia]).
    rewrite (proj2 (Z.ltb_lt _ _) Hlen).
    pose proof (average_minutes_nearest _ _ HT Hlen) as Hnear. cbv zeta in Hnear.
    lia.
Qed.

Lemma averageSessionDuration_minutes_witness :
  ∃ m, getUserEngagementMetrics_fetchData (tz := utc)
         (db_constant 1 [session_lasting (Some 90); session_lasting None;
                         session_lasting (Some 150)]) 0 = Some m
       ∧ UserEngagementMetrics.totalSessions m = 3
       ∧ 0 ≤ UserEngagementMetrics.averageSessionDuration m.
Proof.
  destruct (getUserEngagementMetrics_fetchData (tz := utc) _ 0) as [m|] eqn:E;
    [|vm_compute in E; discriminate].
  exists m. split; [reflexivity|].
  destruct (averageSessionDuration_minutes (tz := utc) _ _ _ E) as (sessions & Hs & Hn & _ & Hpos & _).
  injection Hs as <-. split; [exact Hn|].
  apply Hpos. repeat constructor; by vm_compute.
Defined.

(** ** Program performance *)

Lemma count_by_program_lookup (m : gmap string Z) d k :
  k ≠ "" →
  default 0 (count_by_program m d !! k)
  = default 0 (m !! k) + (if decide (doc_parent d = Some k) then 1 else 0).
Proof.
  intros Hk. unfold count_by_program.
  destruct (doc_parent d) as [p|]; [|case_decide; [done|lia]].
  destruct (decide (p = "")) as [->|Hp].
  - rewrite decide_False by congruence. lia.
  - destruct (decide (p = k)) as [->|Hne].
    + rewrite lookup_insert_eq, decide_True by done. done.
    + rewrite lookup_insert_ne, decide_False by congruence. lia.
Qed.

Lemma foldl_count_by_program docs : ∀ (m : gmap string Z) k,
  k ≠ "" →
  default 0 (foldl count_by_program m docs !! k)
  = default 0 (m !! k) + documents_under k docs.
Proof.
  unfold documents_under.
  induction docs as [|d docs IH]; intros m k Hk; simpl; [lia|].
  rewrite IH, count_by_program_lookup by done.
  rewrite filter_cons. case_decide; simpl; lia.
Qed.

Lemma program_performance_is_Some enrollmentsByProgram completionsByProgram now d :
  is_Some (program_performance enrollmentsByProgram completionsByProgram now d)
  ↔ dates_convert d.
Proof.
  unfold program_performance, dates_convert.
  destruct (startDate d), (endDate d); simpl; split;
    first [by intros [? ?] | by intros [? ?]; eexists | by eexists | idtac];
    try (intros [? ?]; done); try (split; done).
Qed.

(** X14: [getProgramPerformanceMetrics] fulfils when its three reads do and
    the start and end date of every program are absent or stored as
    [Timestamp]s; it then returns one entry per program document, in the
    order read.  For a program with a non-empty identifier the enrolments
    and completions are the numbers of documents of the two collection
    groups that hang under that program, the completion rate is the rounded
    percentage of the two and 0 without enrolments, and it is not capped:
    with K times as many completions as enrolments it is at least 100 K.
    The fetch rejects if any of the three reads rejects, and also if some
    program holds a start or end date that is not a [Timestamp], such as
    the strings that [createProgram] stores. *)
Theorem program_performance_counts (db : Firestore) (now : Z) :
  let programsQuery := query (collection "programs") [orderBy "createdAt" "desc"] in
  let enrollmentsQuery := query (collectionGroup "enrollments") [] in
  let completionsQuery := query (collectionGroup "completions") [] in
  (∀ programs enrollments completions,
     getDocs db programsQuery = Some programs →
     getDocs db enrollmentsQuery = Some enrollments →
     getDocs db completionsQuery = Some completions →
     (Forall dates_convert programs →
      ∃ ps,
        getProgramPerformanceMetrics_fetchData db now = Some ps
        ∧ ProgramPerformance.id <$> ps = doc_id <$> programs
        ∧ ∀ i p, ps !! i = Some p →
            ProgramPerformance.id p ≠ "" →
            ProgramPerformance.enrollments p
              = documents_under (ProgramPerformance.id p) enrollments
            ∧ ProgramPerformance.completions p
              = documents_under (ProgramPerformance.id p) completions
            ∧ ProgramPerformance.completionRate p
              = percentage (ProgramPerformance.completions p)
                  (ProgramPerformance.enrollments p)
            ∧ (ProgramPerformance.enrollments p = 0 →
               ProgramPerformance.completionRate p = 0)
            ∧ (∀ K, 0 ≤ K → 0 < ProgramPerformance.enrollments p →
                 K * ProgramPerformance.enrollments p ≤ ProgramPerformance.completions p →
                 ProgramPerformance.completions p < 2 ^ 46 →
                 100 * K ≤ ProgramPerformance.completionRate p))
     ∧ (¬ Forall dates_convert programs →
        getProgramPerformanceMetrics_fetchData db now = None))
  ∧ (getDocs db programsQuery = None ∨ getDocs db enrollmentsQuery = None
     ∨ getDocs db completionsQuery = None →
     getProgramPerformanceMetrics_fetchData db now = None).
Proof.
  cbv zeta. split.
  - intros programs enrollments completions Hp He Hc.
    unfold getProgramPerformanceMetrics_fetchData. rewrite Hp, He, Hc. simpl.
    set (f := program_performance _ _ now). split.
    + intros Hdates.
      assert (is_Some (mapM f programs)) as [ps Hps].
      { apply mapM_is_Some. eapply Forall_impl; [exact Hdates|].
        intros d Hd. by apply program_performance_is_Some. }
      exists ps. split; [done|]. apply mapM_Some_1 in Hps.
      assert (∀ i p, ps !! i = Some p → ∃ d, programs !! i = Some d ∧ f d = Some p)
        as Hlookup.
      { intros i p Hi. by apply (Forall2_lookup_r _ _ _ _ _ Hps Hi). }
      split.
      { apply list_eq. intros i. rewrite !list_lookup_fmap.
        destruct (ps !! i) as [p|] eqn:Ei.
        - destruct (Hlookup i p Ei) as (d & -> & Hd). simpl.
          by apply program_performance_inv in Hd as (? & ? & _ & _ & ->).
        - apply Forall2_length in Hps.
          rewrite (proj2 (lookup_ge_None programs i)); [done|].
          apply lookup_ge_None in Ei. lia. }
      intros i p Hi Hid. destruct (Hlookup i p Hi) as (d & _ & Hd).
      apply program_performance_inv in Hd as (? & ? & _ & _ & ->).
      simpl in *.
      pose proof (foldl_count_by_program enrollments ∅ (doc_id d) Hid) as HE.
      pose proof (foldl_count_by_program completions ∅ (doc_id d) Hid) as HC.
      rewrite lookup_empty in HE, HC. simpl in HE, HC.
      rewrite HE, HC. split; [done|]. split; [done|]. split; [done|]. split.
      * by intros ->.
      * intros K HK Hpos Hle Hbig. by apply percentage_ge.
    + intros Hdates. apply eq_None_not_Some. intros Hsome. apply Hdates.
      apply mapM_is_Some in Hsome. eapply Forall_impl; [exact Hsome|].
      intros d Hd. by apply program_performance_is_Some in Hd.
  - unfold getProgramPerformanceMetrics_fetchData.
    intros [-> | [H | H]]; [done| |];
      destruct (getDocs db (query (collection "programs") _)); simpl; try done;
      rewrite H; simpl; try done.
    by destruct (getDocs db (query (collectionGroup "enrollments") [])).
Qed.

Lemma program_performance_counts_witness :
  (∃ ps p,
     getProgramPerformanceMetrics_fetchData
       (db_programs [a_program] [under_program "p1"; under_program "p1"]
          [under_program "p1"; under_program "p2"; under_program "p1";
           under_program "p1"]) 0 = Some ps
     ∧ ps !! 0%nat = Some p
     ∧ ProgramPerformance.enrollments p = 2
     ∧ 100 ≤ ProgramPerformance.completionRate p)
  ∧ getProgramPerformanceMetrics_fetchData
      (db_programs [a_program; a_created_program] [] []) 0 = None.
Proof.
  split.
  - destruct (program_performance_counts
                (db_programs [a_program] [under_program "p1"; under_program "p1"]
                   [under_program "p1"; under_program "p2"; under_program "p1";
                    under_program "p1"]) 0) as [H _].
    destruct (H [a_program] [under_program "p1"; under_program "p1"]
                [under_program "p1"; under_program "p2"; under_program "p1";
                 under_program "p1"] eq_refl eq_refl eq_refl) as [H' _].
    destruct H' as (ps & E & Hids & Hp).
    { repeat constructor; by vm_compute. }
    destruct ps as [|p ps]; [discriminate|].
    exists (p :: ps), p. split; [exact E|]. split; [reflexivity|].
    assert (ProgramPerformance.id p = "p1") as Hid by (by injection Hids).
    destruct (Hp 0%nat p eq_refl) as (He & Hc & _ & _ & Hrate).
    { by rewrite Hid. }
    rewrite Hid in He, Hc. split; [rewrite He; by vm_compute|].
    apply (Hrate 1); rewrite ?He, ?Hc; by vm_compute.
  - destruct (program_performance_counts
                (db_programs [a_program; a_created_program] [] []) 0) as [H _].
    destruct (H [a_program; a_created_program] [] [] eq_refl eq_refl eq_refl)
      as [_ H'].
    apply H'. intros Hall. apply Forall_cons in Hall as [_ Hall].
    apply Forall_cons in Hall as [[Hs _] _]. by apply Hs.
Defined.

(** ** Subscriptions with distinct identifiers *)

Lemma subscriptionId_inj (family : string) (now1 now2 : Z) :
  family +:+ "-" +:+ pretty now1 = family +:+ "-" +:+ pretty now2 → now1 = now2.
Proof.
  intros H. apply (inj (String.app family)) in H.
  apply (inj (String.app "-")) in H. by apply (inj pretty) in H.
Qed.

Lemma cleanup_commute id1 id2 rt :
  id1 ≠ id2 →
  listeners (cleanup id1 (cleanup id2 rt)) = listeners (cleanup id2 (cleanup id1 rt))
  ∧ subscriptions (cleanup id1 (cleanup id2 rt))
    = subscriptions (cleanup id2 (cleanup id1 rt)).
Proof.
  intros Hne. unfold cleanup, unsubscribe.
  destruct (subscriptions rt !! id1) as [l1|] eqn:E1;
    destruct (subscriptions rt !! id2) as [l2|] eqn:E2; simpl;
    rewrite ?lookup_delete_ne by done; rewrite ?E1, ?E2; simpl; try done.
  split; [apply delete_delete|apply delete_delete].
Qed.

(** X15: two subscriptions whose identifiers differ (different families, or
    the same family at different milliseconds) are independent: the cleanup
    of one detaches its own listener only and leaves the other listener and
    its registry entry in place, and the two cleanups commute. *)
Theorem cleanup_independent family1 family2 trigger1 trigger2 cb1 cb2 now1 now2 rt :
  (family1 = family2 → now1 ≠ now2) →
  family1 ∈ ["analytics"; "engagement"; "programs"] →
  family2 ∈ ["analytics"; "engagement"; "programs"] →
  let '(handle1, rt1) := subscribe family1 trigger1 cb1 now1 rt in
  let '(handle2, rt2) := subscribe family2 trigger2 cb2 now2 rt1 in
  let l1 := nextListener rt in
  let l2 := S (nextListener rt) in
  (listeners (handle1 rt2) !! l1 = None
   ∧ listeners (handle1 rt2) !! l2 = Some (trigger2, cb2)
   ∧ subscriptions (handle1 rt2) !! (family2 +:+ "-" +:+ pretty now2) = Some l2)
  ∧ (listeners (handle2 rt2) !! l2 = None
     ∧ listeners (handle2 rt2) !! l1 = Some (trigger1, cb1)
     ∧ subscriptions (handle2 rt2) !! (family1 +:+ "-" +:+ pretty now1) = Some l1)
  ∧ listeners (handle1 (handle2 rt2)) = listeners (handle2 (handle1 rt2))
  ∧ subscriptions (handle1 (handle2 rt2)) = subscriptions (handle2 (handle1 rt2))
  ∧ detached (handle2 (handle1 rt2)) = detached rt ++ [l1; l2].
Proof.
  intros Hnow Hf1 Hf2.
  assert (family1 +:+ "-" +:+ pretty now1 ≠ family2 +:+ "-" +:+ pretty now2) as Hne.
  { destruct (decide (family1 = family2)) as [->|Hf].
    - intros H%subscriptionId_inj. by apply Hnow.
    - intros H. apply Hf. clear Hnow.
      repeat (apply elem_of_cons in Hf1 as [->|Hf1]);
        repeat (apply elem_of_cons in Hf2 as [->|Hf2]);
        try done; try (by apply elem_of_nil in Hf1);
        try (by apply elem_of_nil in Hf2); simpl in H; discriminate. }
  rewrite !subscribe_unfold. cbv zeta.
  set (id1 := family1 +:+ "-" +:+ pretty now1) in *.
  set (id2 := family2 +:+ "-" +:+ pretty now2) in *.
  split_and!.
  - unfold cleanup. simpl. rewrite lookup_insert_ne, lookup_insert_eq by done. simpl.
    apply lookup_delete_eq.
  - unfold cleanup. simpl. rewrite lookup_insert_ne, lookup_insert_eq by done. simpl.
    rewrite lookup_delete_ne, lookup_insert_eq by lia. done.
  - unfold cleanup. simpl. rewrite lookup_insert_ne, lookup_insert_eq by done. simpl.
    rewrite lookup_delete_ne, lookup_insert_eq by done. done.
  - unfold cleanup. simpl. rewrite lookup_insert_eq. simpl. apply lookup_delete_eq.
  - unfold cleanup. simpl. rewrite lookup_insert_eq. simpl.
    rewrite lookup_delete_ne, lookup_insert_ne, lookup_insert_eq by lia. done.
  - unfold cleanup. simpl. rewrite lookup_insert_eq. simpl.
    rewrite lookup_delete_ne, lookup_insert_ne, lookup_insert_eq by done. done.
  - by apply cleanup_commute.
  - by apply cleanup_commute.
  - unfold cleanup. simpl. rewrite lookup_insert_ne, lookup_insert_eq by done. simpl.
    rewrite lookup_delete_ne, lookup_insert_eq by done. simpl.
    by rewrite <- app_assoc.
Qed.

Lemma cleanup_independent_witness :
  let '(handle1, rt1) := getAnalyticsData_subscribe 7%nat 1000 runtime0 in
  let '(handle2, rt2) := getAnalyticsData_subscribe 8%nat 1001 rt1 in
  listeners (handle1 rt2) !! 1%nat = Some (analytics_trigger, 8%nat)
  ∧ detached (handle2 (handle1 rt2)) = [0%nat; 1%nat].
Proof.
  pose proof (cleanup_independent "analytics" "analytics" analytics_trigger
                analytics_trigger 7%nat 8%nat 1000 1001 runtime0) as H.
  unfold getAnalyticsData_subscribe. fold analytics_trigger.
  destruct (subscribe "analytics" analytics_trigger 7%nat 1000 runtime0) as [handle1 rt1].
  destruct (subscribe "analytics" analytics_trigger 8%nat 1001 rt1) as [handle2 rt2].
  destruct H as ((_ & H1 & _) & _ & _ & _ & H2).
  - intros _. lia.
  - set_solver.
  - set_solver.
  - split; [exact H1|exact H2].
Defined.

(** ** Subscribing and cleaning up leaves no trace *)

Lemma fresh_listeners_cleanup id rt : fresh_listeners rt → fresh_listeners (cleanup id rt).
Proof.
  intros H l Hl. unfold cleanup in *.
  destruct (subscriptions rt !! id); simpl in *; [|by apply H].
  destruct (decide (n = l)) as [->|]; [apply lookup_delete_eq|].
  rewrite lookup_delete_ne by done. by apply H.
Qed.

Lemma fresh_listeners_subscribe family trigger callback now rt :
  fresh_listeners rt → fresh_listeners (subscribe family trigger callback now rt).2.
Proof.
  intros H l Hl. rewrite subscribe_unfold in *. simpl in *.
  rewrite lookup_insert_ne by lia. apply H. lia.
Qed.

(** X16: in a runtime whose listener numbers are handed out in order (an
    invariant of [subscribe] and [cleanup], true initially), subscribing
    under an identifier that is not registered and then calling the cleanup
    returned restores the listeners and the registry as they were; only the
    log of detached listeners grows by the one listener. *)
Theorem subscribe_cleanup_round_trip :
  fresh_listeners runtime0
  ∧ (∀ family trigger callback now rt,
       fresh_listeners rt →
       fresh_listeners (subscribe family trigger callback now rt).2)
  ∧ (∀ id rt, fresh_listeners rt → fresh_listeners (cleanup id rt))
  ∧ (∀ family trigger callback now rt,
       fresh_listeners rt →
       subscriptions rt !! (family +:+ "-" +:+ pretty now) = None →
       let '(handle, rt1) := subscribe family trigger callback now rt in
       listeners (handle rt1) = listeners rt
       ∧ subscriptions (handle rt1) = subscriptions rt
       ∧ detached (handle rt1) = detached rt ++ [nextListener rt]).
Proof.
  split_and!.
  - by intros l _.
  - apply fresh_listeners_subscribe.
  - apply fresh_listeners_cleanup.
  - intros family trigger callback now rt Hfresh Hid. rewrite subscribe_unfold.
    unfold cleanup. simpl. rewrite lookup_insert_eq. simpl.
    rewrite !delete_insert_eq. rewrite !delete_id; [done|done|].
    apply Hfresh. lia.
Qed.

Lemma subscribe_cleanup_round_trip_witness :
  let '(handle, rt1) := getUserEngagementMetrics_subscribe 3%nat 1000 runtime0 in
  listeners (handle rt1) = ∅ ∧ subscriptions (handle rt1) = ∅.
Proof.
  destruct subscribe_cleanup_round_trip as (H0 & _ & _ & H).
  pose proof (H "engagement" (query (collectionGroup "sessions") [limit 1]) 3%nat 1000
                runtime0 H0 eq_refl) as H'.
  unfold getUserEngagementMetrics_subscribe.
  destruct (subscribe _ _ _ _ _) as [handle rt1].
  destruct H' as (Hl & Hs & _). by split.
Defined.

(** ** Leaving the page *)

Lemma foldl_unsubscribe entries : ∀ rt,
  let rt' := foldl (λ rt (entry : string * nat), unsubscribe entry.2 rt) rt entries in
  (∀ l, listeners rt' !! l = if decide (l ∈ entries.*2) then None else listeners rt !! l)
  ∧ subscriptions rt' = subscriptions rt
  ∧ nextListener rt' = nextListener rt
  ∧ detached rt' = detached rt ++ entries.*2.
Proof.
  induction entries as [|[k l'] entries IH]; intros rt; cbv zeta; cbn [foldl].
  - split; [|by rewrite app_nil_r]. intros l. rewrite decide_False; [done|].
    apply not_elem_of_nil.
  - destruct (IH (unsubscribe l' rt)) as (Hl & Hs & Hn & Hd).
    rewrite fmap_cons. cbn [snd] in *.
    split_and!; [|done|done|by rewrite Hd; cbn; rewrite <- app_assoc].
    intros l. rewrite Hl. cbn [listeners unsubscribe].
    destruct (decide (l = l')) as [->|Hne].
    + rewrite (decide_True (P := l' ∈ l' :: _)) by (by left).
      case_decide; [done|apply lookup_delete_eq].
    + rewrite lookup_delete_ne by done.
      destruct (decide (l ∈ entries.*2)).
      * rewrite decide_True by (by right). done.
      * rewrite decide_False; [done|]. rewrite not_elem_of_cons. tauto.
Qed.

(** X17: the [beforeunload] handler detaches every listener that the
    registry holds, in the order of the registry, empties the registry and
    leaves every listener that is not registered attached; afterwards every
    cleanup and a second run of the handler change nothing. *)
Theorem beforeunload_detaches_registered (entries : list (string * nat)) (rt : Runtime) :
  entries ≡ₚ map_to_list (subscriptions rt) →
  let rt' := beforeunload entries rt in
  subscriptions rt' = ∅
  ∧ (∀ id l, subscriptions rt !! id = Some l → listeners rt' !! l = None)
  ∧ (∀ l, (∀ id, subscriptions rt !! id ≠ Some l) →
          listeners rt' !! l = listeners rt !! l)
  ∧ detached rt' = detached rt ++ entries.*2
  ∧ (∀ id, cleanup id rt' = rt')
  ∧ beforeunload [] rt' = rt'.
Proof.
  intros Hperm. cbv zeta.
  destruct (foldl_unsubscribe entries rt) as (Hl & Hs & Hn & Hd). cbv zeta in *.
  assert (∀ l, l ∈ entries.*2 ↔ ∃ id, subscriptions rt !! id = Some l) as Hiff.
  { intros l. rewrite Hperm, list_elem_of_fmap. split.
    - intros ([id l'] & -> & Hin). exists id. by apply elem_of_map_to_list in Hin.
    - intros [id Hid]. exists (id, l). split; [done|]. by apply elem_of_map_to_list. }
  unfold beforeunload. cbn [subscriptions listeners detached]. split_and!.
  - done.
  - intros id l Hid. rewrite Hl, decide_True; [done|]. apply Hiff. eauto.
  - intros l Hout. rewrite Hl, decide_False; [done|].
    rewrite Hiff. intros [id Hid]. by apply (Hout id).
  - done.
  - intros id. unfold cleanup. cbn [subscriptions]. by rewrite lookup_empty.
  - done.
Qed.

Lemma beforeunload_detaches_registered_witness :
  let '(handle1, rt1) := getAnalyticsData_subscribe 7%nat 1000 runtime0 in
  let '(handle2, rt2) := getAnalyticsData_subscribe 8%nat 1000 rt1 in
  let rt' := beforeunload [("analytics-1000", 1%nat)] rt2 in
  subscriptions rt' = ∅
  ∧ listeners rt' !! 1%nat = None
  ∧ listeners rt' !! 0%nat = Some (analytics_trigger, 7%nat).
Proof.
  unfold getAnalyticsData_subscribe. rewrite !subscribe_unfold. cbv zeta.
  unfold runtime0. cbn [subscriptions listeners nextListener detached].
  match goal with
  | |- context [beforeunload ?e ?rt] =>
      destruct (beforeunload_detaches_registered e rt) as (H1 & H2 & H3 & _)
  end.
  - cbn [subscriptions]. rewrite insert_insert_eq.
    change ("analytics" +:+ "-" +:+ pretty 1000) with "analytics-1000".
    rewrite insert_empty, map_to_list_singleton. done.
  - cbv zeta in *. split; [exact H1|]. split.
    + apply (H2 "analytics-1000"). cbn [subscriptions]. apply lookup_insert_eq.
    + rewrite H3; [done|]. intros id. cbn [subscriptions].
      rewrite insert_insert_eq.
      change ("analytics" +:+ "-" +:+ pretty 1000) with "analytics-1000".
      destruct (decide (id = "analytics-1000")) as [->|Hne].
      * by rewrite lookup_insert_eq.
      * by rewrite lookup_insert_ne, lookup_empty.
Defined.

(** ** Seeding sample data *)

Section seed_facts.
Variable now : Z.
Variable rejects_read : string → bool.
Variable rejects_write : string → SeedDoc → bool.

Lemma docs_of_insert store name docs c :
  docs_of (<[name := docs]> store) c
  = if decide (c = name) then docs else docs_of store c.
Proof.
  unfold docs_of. case_decide as Hc.
  - subst c. by rewrite lookup_insert_eq.
  - by rewrite lookup_insert_ne.
Qed.

(** A loop of writes adds a prefix of the samples to its collection, all of
    them when it fulfils, and touches no other collection. *)
Lemma seed_addAll_spec name samples : ∀ store,
  ∃ n, (n ≤ length samples)%nat
       ∧ (∀ c, docs_of (seed_addAll rejects_write name samples store).2 c
               = if decide (c = name) then docs_of store c ++ take n samples
                 else docs_of store c)
       ∧ ((seed_addAll rejects_write name samples store).1 = Some () →
          n = length samples)
       ∧ ((∀ doc, doc ∈ samples → rejects_write name doc = false) →
          (seed_addAll rejects_write name samples store).1 = Some ())
       ∧ (n = 0%nat → (seed_addAll rejects_write name samples store).2 = store).
Proof.
  induction samples as [|doc samples IH]; intros store.
  - exists 0%nat. simpl. split; [done|]. split; [|done].
    intros c. case_decide; by rewrite ?app_nil_r.
  - simpl. unfold seeding_bind, seed_addDoc.
    destruct (rejects_write name doc) eqn:Hw.
    + exists 0%nat. simpl. split; [lia|]. split; [|split; [done|split; [|done]]].
      * intros c. case_decide; by rewrite ?app_nil_r.
      * intros Hall. rewrite Hall in Hw; [done|by left].
    + destruct (IH (<[name := docs_of store name ++ [doc]]> store))
        as (n & Hn & Hdocs & Hfull & Hok & _).
      exists (S n). split; [simpl; lia|]. split; [|split; [|split; [|done]]].
      * intros c. rewrite Hdocs, docs_of_insert.
        case_decide; [|done]. subst c. by rewrite <- app_assoc.
      * intros H. by rewrite Hfull.
      * intros Hall. apply Hok. intros d Hd. apply Hall. by right.
Qed.

Lemma seed_if_empty_spec snapshot name samples store :
  ∃ n, (n ≤ length samples)%nat
       ∧ (snapshot ≠ [] → n = 0%nat)
       ∧ (∀ c, docs_of (seed_if_empty rejects_write snapshot name samples store).2 c
               = if decide (c = name) then docs_of store c ++ take n samples
                 else docs_of store c)
       ∧ ((seed_if_empty rejects_write snapshot name samples store).1 = Some () →
          snapshot = [] → n = length samples)
       ∧ ((∀ doc, doc ∈ samples → rejects_write name doc = false) →
          (seed_if_empty rejects_write snapshot name samples store).1 = Some ())
       ∧ (snapshot ≠ [] →
          seed_if_empty rejects_write snapshot name samples store = (Some (), store)).
Proof.
  destruct snapshot as [|d snapshot]; simpl.
  - destruct (seed_addAll_spec name samples store) as (n & Hn & Hdocs & Hfull & Hok & H0).
    exists n. repeat split; auto; done.
  - exists 0%nat. repeat split; try done; try lia.
    intros c. case_decide; by rewrite ?app_nil_r.
Qed.
End seed_facts.

Lemma seedSampleData_reads now rejects_read rejects_write store :
  (rejects_read "users" || rejects_read "programs" || rejects_read "events"
   || rejects_read "tasks" || rejects_read "blogPosts" = true
   ∧ seedSampleData now rejects_read rejects_write store = (None, store))
  ∨ (rejects_read "users" = false ∧ rejects_read "programs" = false
     ∧ rejects_read "events" = false ∧ rejects_read "tasks" = false
     ∧ rejects_read "blogPosts" = false
     ∧ seedSampleData now rejects_read rejects_write store
       = (seed_if_empty rejects_write (docs_of store "programs") "programs"
            (samplePrograms now) ;;ˢ
          seed_if_empty rejects_write (docs_of store "events") "events"
            (sampleEvents now) ;;ˢ
          seed_if_empty rejects_write (docs_of store "tasks") "tasks"
            (sampleTasks now) ;;ˢ
          seed_if_empty rejects_write (docs_of store "blogPosts") "blogPosts"
            (sampleBlogPosts now)) store).
Proof.
  unfold seedSampleData, seeding_bind at 1 2 3 4 5, seed_getDocs.
  destruct (rejects_read "users"); [by left|].
  destruct (rejects_read "programs"); [by left|].
  destruct (rejects_read "events"); [by left|].
  destruct (rejects_read "tasks"); [by left|].
  destruct (rejects_read "blogPosts"); [by left|].
  right. done.
Qed.

Lemma seeding_bind_ret (m : Seeding unit) store :
  (m ;;ˢ seeding_ret ()) store = m store.
Proof. unfold seeding_bind, seeding_ret. by destruct (m store) as [[[]|] ?]. Qed.

Lemma seeding_bind_ext {A B} (m : Seeding A) (f g : A → Seeding B) store :
  (∀ a s, f a s = g a s) → seeding_bind m f store = seeding_bind m g store.
Proof. intros H. unfold seeding_bind. destruct (m store) as [[a|] s]; [apply H|done]. Qed.

Lemma seedSampleData_stages now rejects_read rejects_write store :
  rejects_read "users" = false → rejects_read "programs" = false →
  rejects_read "events" = false → rejects_read "tasks" = false →
  rejects_read "blogPosts" = false →
  seedSampleData now rejects_read rejects_write store
  = seed_each now rejects_write store seeded_collections store.
Proof.
  intros Hu Hp He Ht Hb.
  destruct (seedSampleData_reads now rejects_read rejects_write store)
    as [[H _]|(_ & _ & _ & _ & _ & ->)].
  { by rewrite Hu, Hp, He, Ht, Hb in H. }
  unfold seeded_collections. cbn [seed_each].
  change (samples_for now "programs") with (samplePrograms now).
  change (samples_for now "events") with (sampleEvents now).
  change (samples_for now "tasks") with (sampleTasks now).
  change (samples_for now "blogPosts") with (sampleBlogPosts now).
  apply seeding_bind_ext. intros _ s1.
  apply seeding_bind_ext. intros _ s2.
  apply seeding_bind_ext. intros _ s3.
  symmetry. apply seeding_bind_ret.
Qed.

(** What the guarded loops leave behind, wherever they stop. *)
Lemma seed_each_spec now rejects_write snapshots names : ∀ store,
  NoDup names →
  (∀ c, c ∈ names → docs_of store c = docs_of snapshots c) →
  let run := seed_each now rejects_write snapshots names store in
  (∀ c, ∃ n,
     docs_of run.2 c
     = docs_of store c ++ take n (if decide (c ∈ names) then samples_for now c else [])
     ∧ (docs_of snapshots c ≠ [] → n = 0%nat)
     ∧ (run.1 = Some () → c ∈ names → docs_of snapshots c = [] →
        n = length (samples_for now c)))
  ∧ ((∀ c d, rejects_write c d = false) → run.1 = Some ())
  ∧ ((∀ c, c ∈ names → docs_of snapshots c ≠ []) → run = (Some (), store)).
Proof.
  induction names as [|name names IH]; intros store Hnd Hagree; cbv zeta.
  - simpl. split; [|done]. intros c. exists 0%nat.
    rewrite app_nil_r. split; [done|]. split; [done|].
    by intros _ ?%elem_of_nil.
  - apply NoDup_cons in Hnd as [Hname Hnd]. cbn [seed_each]. unfold seeding_bind.
    destruct (seed_if_empty_spec rejects_write (docs_of snapshots name) name
                (samples_for now name) store)
      as (n1 & _ & Hg1 & Hd1 & Hf1 & Hok1 & Hret1).
    destruct (seed_if_empty rejects_write (docs_of snapshots name) name
                (samples_for now name) store) as [[[]|] s1]; simpl in *.
    + destruct (IH s1 Hnd) as (Hdocs & Hok & Hsame).
      { intros c Hc. rewrite Hd1, decide_False by (by intros ->). apply Hagree. by right. }
      cbv zeta in *. split; [|split].
      * intros c. destruct (decide (c = name)) as [->|Hne].
        -- exists n1. destruct (Hdocs name) as (n' & Hn' & _).
           rewrite decide_False in Hn' by done. rewrite take_nil, app_nil_r in Hn'.
           rewrite Hn', Hd1, !decide_True by (done || by left).
           split; [done|]. split; [done|]. intros _ _. by apply Hf1.
        -- destruct (Hdocs c) as (n' & Hn' & Hg' & Hf'). exists n'.
           rewrite Hn', Hd1, decide_False by done. split; [|split; [done|]].
           ++ destruct (decide (c ∈ names)).
              ** by rewrite decide_True by (by right).
              ** rewrite decide_False; [done|]. rewrite not_elem_of_cons. tauto.
           ++ intros Hr [?|Hc]%elem_of_cons; [done|]. by apply Hf'.
      * intros Hw. by apply Hok.
      * intros Hne. assert (s1 = store) as ->.
        { by injection (Hret1 (Hne name ltac:(by left))). }
        apply Hsame. intros c Hc. apply Hne. by right.
    + split; [|split].
      * intros c. destruct (decide (c = name)) as [->|Hne].
        -- exists n1. rewrite Hd1, !decide_True by (done || by left). done.
        -- exists 0%nat. rewrite Hd1, decide_False by done.
           rewrite app_nil_r. done.
      * intros Hw. apply Hok1. intros; apply Hw.
      * intros Hne. by pose proof (Hret1 (Hne name ltac:(by left))).
Qed.

Lemma samples_for_outside now c : c ∉ seeded_collections → samples_for now c = [].
Proof.
  unfold seeded_collections, samples_for. rewrite !not_elem_of_cons. intros (?&?&?&?&_).
  by rewrite !decide_False.
Qed.

Lemma samples_for_inside now c : c ∈ seeded_collections → samples_for now c ≠ [].
Proof.
  unfold seeded_collections. rewrite !elem_of_cons, elem_of_nil.
  intros [->|[->|[->|[->|[]]]]]; done.
Qed.

(** X18: [seedSampleData] only ever appends to [programs], [events],
    [tasks] and [blogPosts], and only a prefix of the respective samples; a
    collection that holds a document gets nothing. When the run fulfils,
    every collection among the four that was empty holds exactly its
    samples. A rejected read (of [users] too, although its snapshot is only
    logged) rejects the run before anything is written, a store that
    rejects nothing lets it fulfil, and a second run after a fulfilled one
    writes nothing. *)
Theorem seedSampleData_guards (now : Z) (rejects_read : string → bool)
    (rejects_write : string → SeedDoc → bool) (store : Collections) :
  let run := seedSampleData now rejects_read rejects_write store in
  (∀ c, ∃ n,
     docs_of run.2 c = docs_of store c ++ take n (samples_for now c)
     ∧ (docs_of store c ≠ [] → n = 0%nat)
     ∧ (run.1 = Some () → docs_of store c = [] →
        docs_of run.2 c = samples_for now c))
  ∧ (∀ c, c ∉ seeded_collections → docs_of run.2 c = docs_of store c)
  ∧ ((∃ c, c ∈ "users" :: seeded_collections ∧ rejects_read c = true) →
     run = (None, store))
  ∧ ((∀ c, rejects_read c = false) → (∀ c d, rejects_write c d = false) →
     run.1 = Some ())
  ∧ (run.1 = Some () →
     seedSampleData now rejects_read rejects_write run.2 = (Some (), run.2)).
Proof.
  cbv zeta.
  assert (∀ c, c ∈ "users" :: seeded_collections → rejects_read c = true →
            rejects_read "users" || rejects_read "programs" || rejects_read "events"
            || rejects_read "tasks" || rejects_read "blogPosts" = true) as Hany.
  { unfold seeded_collections. intros c Hc Hr.
    repeat (apply elem_of_cons in Hc as [->|Hc]; [rewrite Hr; by rewrite ?orb_true_r|]).
    by apply elem_of_nil in Hc. }
  destruct (seedSampleData_reads now rejects_read rejects_write store)
    as [[Hr ->]|(Hu & Hp & He & Ht & Hb & _)]; simpl.
  { split_and!; try done.
    - intros c. exists 0%nat. by rewrite app_nil_r.
    - intros Hread. by rewrite !Hread in Hr. }
  rewrite seedSampleData_stages by done.
  assert (NoDup seeded_collections) as Hnd by compute_done.
  destruct (seed_each_spec now rejects_write store seeded_collections store Hnd
              ltac:(done)) as (Hdocs & Hok & Hsame). cbv zeta in *.
  set (run := seed_each now rejects_write store seeded_collections store) in *.
  assert (∀ c, ∃ n,
            docs_of run.2 c = docs_of store c ++ take n (samples_for now c)
            ∧ (docs_of store c ≠ [] → n = 0%nat)
            ∧ (run.1 = Some () → docs_of store c = [] →
               docs_of run.2 c = samples_for now c)) as Hall.
  { intros c. destruct (Hdocs c) as (n & Hn & Hg & Hf). exists n.
    destruct (decide (c ∈ seeded_collections)) as [Hc|Hc].
    - split; [done|]. split; [done|]. intros Hrun Hempty.
      rewrite Hn, (Hf Hrun Hc Hempty), Hempty, firstn_all. done.
    - rewrite samples_for_outside by done. rewrite take_nil, app_nil_r in *.
      split; [done|]. split; [done|]. by intros _ <-. }
  split_and!.
  - exact Hall.
  - intros c Hc. destruct (Hall c) as (n & -> & _).
    by rewrite samples_for_outside, take_nil, app_nil_r.
  - intros (c & Hc & Hread). pose proof (Hany c Hc Hread) as H.
    by rewrite Hu, Hp, He, Ht, Hb in H.
  - intros _ Hw. by apply Hok.
  - intros Hrun. rewrite seedSampleData_stages by done.
    destruct (seed_each_spec now rejects_write run.2 seeded_collections run.2 Hnd
                ltac:(done)) as (_ & _ & Hsame').
    apply Hsame'. intros c Hc.
    destruct (Hall c) as (n & Hn & _ & Hfull).
    destruct (docs_of store c) as [|d l] eqn:E.
    + rewrite (Hfull Hrun eq_refl). by apply samples_for_inside.
    + by rewrite Hn.
Qed.

Lemma seedSampleData_guards_witness :
  let run := seedSampleData 0 never never_write ∅ in
  run.1 = Some ()
  ∧ length (docs_of run.2 "tasks") = 5%nat
  ∧ docs_of run.2 "users" = []
  ∧ seedSampleData 0 never never_write run.2 = (Some (), run.2).
Proof.
  destruct (seedSampleData_guards 0 never never_write ∅)
    as (Hdocs & Hout & _ & Hok & Hidem).
  cbv zeta in *.
  assert ((seedSampleData 0 never never_write ∅).1 = Some ()) as Hrun
    by (by apply Hok).
  split; [exact Hrun|]. split; [|split].
  - destruct (Hdocs "tasks") as (n & _ & _ & ->); done.
  - rewrite Hout; [done|]. compute_done.
  - by apply Hidem.
Defined.

(** ** Instances of the properties *)

Example more_doubles_agree_with_binary64 :
  forallb (λ n, same_number (JS.multiply (JS.int n) JS.tenth)
                  (SpecFloat.SFmul 53 1024 (binary64_of n) binary64_tenth))
    [1; 9; 10; 30; 70; 149; 150; 159; 1234567; 1125899906842623]
  && forallb (λ '(x, d), same_number (JS.divide (JS.int x) (JS.int d))
                           (binary64_quotient x d))
       [ (59999, 1000); (60000, 1000); (-1, 1000); (-1500, 1000); (3599, 60);
         (86399, 3600); (604799, 86400); (9007199254740991, 1000) ]
  && forallb (λ '(T, n), same_number
                           (JS.divide (JS.divide (JS.int T) (JS.int n)) (JS.int 60))
                           (SpecFloat.SFdiv 53 1024 (binary64_quotient T n)
                              (binary64_of 60)))
       [ (240, 3); (90, 1); (5400, 7); (1, 3); (17592186044416, 3) ]
  = true.
Proof. by vm_compute. Qed.

Lemma fetchDashboardStats_degrades_witness :
  ∃ stats,
    fetchDashboardStats (tz := utc) db_without_completed 0 = Some stats
    ∧ DashboardStats.totalUsers stats = 4
    ∧ second_batch_blank stats.
Proof.
  destruct (fetchDashboardStats_degrades (tz := utc) db_without_completed 0)
    as (stats & E & (Husers & _) & Hblank & _).
  exists stats. split; [exact E|]. split; [exact Husers|].
  apply Hblank. left. by vm_compute.
Defined.

Lemma fetchAnalyticsMetrics_rates_witness :
  AnalyticsMetrics.eventAttendanceRate (fetchAnalyticsMetrics (db_constant 4 [])) = 85
  ∧ AnalyticsMetrics.athletesScouted (fetchAnalyticsMetrics (db_constant 4 [])) ≤ 100
  ∧ fetchAnalyticsMetrics (db_rejecting (query (collection "events") []))
    = AnalyticsMetrics.mk 0 0 0 0.
Proof.
  destruct (fetchAnalyticsMetrics_rates (db_constant 4 [])) as (H & _).
  destruct (H 4 4 4 4 eq_refl eq_refl eq_refl eq_refl) as (He & _ & _ & _ & Hs).
  split; [exact He|]. split; [apply Hs; lia|].
  destruct (fetchAnalyticsMetrics_rates (db_rejecting (query (collection "events") [])))
    as (_ & Hnone & _).
  apply Hnone. left. by vm_compute.
Defined.

Lemma fetchRegionalData_regions_witness :
  Zsum (RegionalData.athletes
          <$> fetchRegionalData
                (Some [located_at "Nimba"; located_at "Bong"; located_at "Nimba"])
                (Some [located_at "Lofa"])) = 3.
Proof.
  destruct (fetchRegionalData_regions
              [located_at "Nimba"; located_at "Bong"; located_at "Nimba"]
              [located_at "Lofa"]) as (_ & _ & _ & _ & _ & H).
  rewrite H; [reflexivity|vm_compute; lia|].
  repeat constructor.
Defined.

Lemma charts_and_document_order_witness :
  fetchLevelData (Some [athlete None (Some "Semi-Pro") None; athlete None None None])
  = fetchLevelData (Some [athlete None None None; athlete None (Some "Semi-Pro") None]).
Proof.
  destruct (charts_and_document_order (λ _, 0) 0) as (H & _).
  apply H. apply Permutation_swap.
Defined.

Lemma statsCards_trends_witness :
  StatCard.trend
    <$> statsCards (λ _, "") (Some (DashboardStats.mk 0 0 7 0 0 0 42 0 9 2 200 31))
  = ["+12%"; "+0%"; "+5"; "+2"; "+15%"; "+4"; "+3"].
Proof.
  destruct (statsCards_trends (λ _, "") (DashboardStats.mk 0 0 7 0 0 0 42 0 9 2 200 31))
    as (_ & -> & _); by vm_compute.
Defined.

